(** * cloudtrail-mcp: the time parser, the token budgeter, the Lake query
      lifecycle and the event lookup, embedded from the TypeScript sources.

    Conventions of the embedding.
    - A JavaScript string is a [string] that holds its UTF-8 encoding, as
      the string literals of this file do: a character below U+0080 is one
      unit, the others are two to four.  The white space of [trim], [\s]
      and [parseInt] is the whole class of ECMAScript, each character in
      its encoding; [toLowerCase] is computed on ASCII strings and is the
      host's on the others.
    - A JavaScript number is a [number]: an integer, a fraction, an
      infinity or [NaN].  Integers are shown digit by digit up to 2^53;
      beyond, and wherever the language switches to another notation, the
      rendering is the host's.  Counts and time values are [Z]; a time
      value that leaves the range of [Date] becomes the invalid date, as
      [TimeClip] prescribes.
    - Everything the handlers do to the outside (reading the clock, sending
      a command to CloudTrail, sleeping, acquiring the tokenizer) is an
      [event] appended to the [trace] of the [World]; the answers of the
      outside are functions of the trace so far. *)

From Stdlib Require Import ZArith NArith List String Ascii Bool Lia.
From Stdlib Require Import DecimalString DecimalPos DecimalN.
From Equations Require Import Equations.
Import ListNotations.

#[local] Open Scope string_scope.
#[local] Open Scope Z_scope.

(* ===================================================================== *)
(** * The JavaScript runtime, as far as the sources use it *)
(* ===================================================================== *)

Module JS.

(** ** Strings *)

Definition nl : string := String (ascii_of_nat 10) EmptyString.
Definition dquote : string := String (ascii_of_nat 34) EmptyString.

(** [Array.prototype.join] on an array of strings. *)
Definition join (sep : string) (lines : list string) : string :=
  String.concat sep lines.

(** [lines.push(l)] and [lines.push(...ls)], on an immutable array. *)
Definition push (lines : list string) (l : string) : list string :=
  (lines ++ [l])%list.

Definition pushAll (lines ls : list string) : list string :=
  (lines ++ ls)%list.

(** [needle] occurs in [hay] ([String.prototype.includes], as a
    proposition). *)
Definition includes (needle hay : string) : Prop :=
  exists pre post, hay = pre ++ needle ++ post.

(** The units of a string, given by their numbers. *)
Definition bytes (l : list nat) : string :=
  string_of_list_ascii (map ascii_of_nat l).

(** A character of ASCII: a unit below 128. *)
Definition isAscii (c : ascii) : bool := (nat_of_ascii c <? 128)%nat.

Fixpoint allb (p : ascii -> bool) (s : string) : bool :=
  match s with
  | EmptyString => true
  | String c s' => p c && allb p s'
  end.

(** [WhiteSpace] and [LineTerminator] of ECMAScript, the class of [trim],
    of [\s] and of [parseInt], by the length of the encoding:
    U+0009 to U+000D and U+0020;  U+00A0;  U+1680, U+2000 to U+200A,
    U+2028, U+2029, U+202F, U+205F, U+3000 and U+FEFF. *)
Definition space1 (a : ascii) : bool :=
  let x := nat_of_ascii a in
  ((9 <=? x) && (x <=? 13))%nat || (x =? 32)%nat.

Definition space2 (a b : ascii) : bool :=
  ((nat_of_ascii a =? 194) && (nat_of_ascii b =? 160))%nat.

Definition space3 (a b c : ascii) : bool :=
  let x := nat_of_ascii a in
  let y := nat_of_ascii b in
  let z := nat_of_ascii c in
  ((x =? 225) && (y =? 154) && (z =? 128))%nat
  || ((x =? 226) && (y =? 128) &&
      (((128 <=? z) && (z <=? 138)) || (z =? 168) || (z =? 169) || (z =? 175)))%nat
  || ((x =? 226) && (y =? 129) && (z =? 159))%nat
  || ((x =? 227) && (y =? 128) && (z =? 128))%nat
  || ((x =? 239) && (y =? 187) && (z =? 191))%nat.

Definition isDigit (c : ascii) : bool :=
  let n := nat_of_ascii c in ((48 <=? n) && (n <=? 57))%nat.

Definition lowerChar (c : ascii) : ascii :=
  let n := nat_of_ascii c in
  if ((65 <=? n) && (n <=? 90))%nat then ascii_of_nat (n + 32) else c.

(** [toLowerCase] of a string of ASCII characters. *)
Fixpoint lowerAscii (s : string) : string :=
  match s with
  | EmptyString => EmptyString
  | String c s' => String (lowerChar c) (lowerAscii s')
  end.

(** [String.prototype.trimStart]: the string without its leading white
    space. *)
Fixpoint trimStart (s : string) : string :=
  match s with
  | EmptyString => EmptyString
  | String a r1 =>
      if space1 a then trimStart r1 else
      match r1 with
      | EmptyString => s
      | String b r2 =>
          if space2 a b then trimStart r2 else
          match r2 with
          | EmptyString => s
          | String c r3 => if space3 a b c then trimStart r3 else s
          end
      end
  end.

(** [String.prototype.trimEnd]: a string of white space only becomes
    empty; otherwise its first unit stays and the rest is trimmed. *)
Fixpoint trimEnd (s : string) : string :=
  match s with
  | EmptyString => EmptyString
  | String c s' =>
      if (trimStart s =? "")%string then EmptyString
      else String c (trimEnd s')
  end.

Definition trim (s : string) : string := trimEnd (trimStart s).

(** The longest prefix whose characters satisfy [p], and the rest. *)
Fixpoint span (p : ascii -> bool) (s : string) : string * string :=
  match s with
  | EmptyString => (EmptyString, EmptyString)
  | String c s' =>
      if p c then let (a, b) := span p s' in (String c a, b)
      else (EmptyString, s)
  end.

(** [stripPrefix w s] is what follows [w] in [s], when [s] starts with
    [w]. *)
Fixpoint stripPrefix (w s : string) : option string :=
  match w, s with
  | EmptyString, _ => Some s
  | String a w', String b s' =>
      if Ascii.eqb a b then stripPrefix w' s' else None
  | String _ _, EmptyString => None
  end.

(** [String.prototype.includes], decided. *)
Fixpoint includesb (needle hay : string) : bool :=
  match stripPrefix needle hay with
  | Some _ => true
  | None =>
      match hay with
      | EmptyString => false
      | String _ hay' => includesb needle hay'
      end
  end.

(** Truthiness of an optional string: [undefined] and [""] are falsy. *)
Definition truthy (o : option string) : bool :=
  match o with
  | Some s => negb (s =? "")%string
  | None => false
  end.

(** ** Numbers *)

(** A number: an integer, a fraction [n/d] that is not an integer, an
    infinity, or [NaN]. *)
Inductive number : Type :=
| Num (z : Z)
| Fraction (n : Z) (d : positive)
| Infinity
| NegInfinity
| NaN.

(** [a > b] on numbers: every comparison with [NaN] is false. *)
Definition gt (a b : number) : bool :=
  match a, b with
  | Num x, Num y => y <? x
  | Num x, Fraction n d => n <? x * Z.pos d
  | Fraction n d, Num y => y * Z.pos d <? n
  | Fraction n d, Fraction n' d' => n' * Z.pos d <? n * Z.pos d'
  | NaN, _ => false
  | _, NaN => false
  | NegInfinity, _ => false
  | _, Infinity => false
  | Infinity, _ => true
  | _, NegInfinity => true
  end.

(** The integers up to which every integer is a number: [2^53]. *)
Definition maxSafeInteger : N := 9007199254740992.

(** Decimal rendering of an integer in a template literal. *)
Definition showZ (z : Z) : string := NilZero.string_of_int (Z.to_int z).

Definition showN (n : N) : string := NilZero.string_of_uint (N.to_uint n).

Definition digitVal (c : ascii) : Z := Z.of_nat (nat_of_ascii c) - 48.

Fixpoint parseDigits (s : string) (acc : Z) : Z :=
  match s with
  | EmptyString => acc
  | String c s' => parseDigits s' (10 * acc + digitVal c)
  end.

(** [parseInt(s, 10)] on a non-empty string of decimal digits. *)
Definition parseInt10 (s : string) : Z := parseDigits s 0.

(** ** Dates *)

(** A [Date] object: a time value in milliseconds since the epoch, or the
    invalid date (time value [NaN]). *)
Inductive Date : Type :=
| ValidDate (t : Z)
| InvalidDate.

(** [Date.prototype.getTime]; [None] stands for [NaN]. *)
Definition getTime (d : Date) : option Z :=
  match d with
  | ValidDate t => Some t
  | InvalidDate => None
  end.

Definition maxTimeValue : Z := 8640000000000000.

(** [new Date(value)] for a number: [TimeClip]. *)
Definition Date_of_number (v : option Z) : Date :=
  match v with
  | Some t => if Z.abs t <=? maxTimeValue then ValidDate t else InvalidDate
  | None => InvalidDate
  end.

(** Arithmetic that propagates [NaN]. *)
Definition nsub (a b : option Z) : option Z :=
  match a, b with Some x, Some y => Some (x - y) | _, _ => None end.

Definition nmul (a b : option Z) : option Z :=
  match a, b with Some x, Some y => Some (x * y) | _, _ => None end.

(** A string-keyed object literal used as a table. *)
Fixpoint lookup {A : Type} (k : string) (tbl : list (string * A)) : option A :=
  match tbl with
  | [] => None
  | (k', v) :: rest => if (k =? k')%string then Some v else lookup k rest
  end.

(** Thrown values. *)
Inductive exn : Type :=
| Error (message : string)
| RangeError (message : string)
| ZodError (issues : list string)
| ServiceException (name message : string).

(** Built-ins of the host and the tokenizer library, which the sources
    call but do not define. *)
Record Host : Type := {
  (** [new Date(s)] for a string: the host's date parser. *)
  Date_parse : string -> Date;
  (** [toISOString] of a valid time value. *)
  isoString : Z -> string;
  (** [String.prototype.toLowerCase] on a string that has characters
      outside ASCII: the case mapping of Unicode. *)
  Unicode_toLowerCase : string -> string;
  (** [Number::toString] of a number that is not an integer of at most
      [2^53] in magnitude: the shortest digits that read back, in
      exponent notation from [1e21]. *)
  Number_toString : number -> string;
  (** The number that an integer beyond [2^53] in magnitude becomes: the
      nearest one, or an infinity. *)
  Number_of_integer : Z -> number;
  (** [encoding_for_model(model).encode(text)]: the token ids, or the
      error that the encoder throws, as it does on a text that spells
      one of its special tokens. *)
  tiktoken_encode : string -> string -> exn + list nat;
}.

(** [String.prototype.toLowerCase]. *)
Definition toLowerCase (h : Host) (s : string) : string :=
  if allb isAscii s then lowerAscii s else Unicode_toLowerCase h s.

(** A number in a template literal. *)
Definition showNumber (h : Host) (n : number) : string :=
  match n with
  | Num z =>
      if Z.abs z <=? Z.of_N maxSafeInteger then showZ z
      else Number_toString h n
  | Fraction _ _ => Number_toString h n
  | Infinity => "Infinity"
  | NegInfinity => "-Infinity"
  | NaN => "NaN"
  end.

(** [Date.prototype.toISOString]: a [RangeError] on the invalid date. *)
Definition toISOString (h : Host) (d : Date) : exn + string :=
  match d with
  | ValidDate t => inr (isoString h t)
  | InvalidDate => inl (RangeError "Invalid time value")
  end.

End JS.
Import JS.

(* ===================================================================== *)
(** * The CloudTrail SDK: shapes of the commands and of their answers *)
(* ===================================================================== *)

Module AWS.

(** Attribute keys supported by LookupEvents ([LOOKUP_ATTRIBUTE_KEYS]). *)
Inductive LookupAttributeKey : Type :=
| EventId | EventName | ReadOnly | Username
| ResourceType | ResourceName | EventSource | AccessKeyId.

Definition keyName (k : LookupAttributeKey) : string :=
  match k with
  | EventId => "EventId" | EventName => "EventName"
  | ReadOnly => "ReadOnly" | Username => "Username"
  | ResourceType => "ResourceType" | ResourceName => "ResourceName"
  | EventSource => "EventSource" | AccessKeyId => "AccessKeyId"
  end.

Definition LOOKUP_ATTRIBUTE_KEYS : list LookupAttributeKey :=
  [EventId; EventName; ReadOnly; Username;
   ResourceType; ResourceName; EventSource; AccessKeyId].

Module Resource.
Record t : Type := mk {
    ResourceType : option string;
    ResourceName : option string }.
End Resource.

Module Event.
Record t : Type := mk {
    EventId : option string;
    EventName : option string;
    ReadOnly : option string;
    AccessKeyId : option string;
    EventTime : option Date;
    EventSource : option string;
    Username : option string;
    Resources : option (list Resource.t);
    CloudTrailEvent : option string }.
End Event.

Module LookupAttribute.
Record t : Type := mk {
    AttributeKey : LookupAttributeKey;
    AttributeValue : string }.
End LookupAttribute.

Module LookupEventsInput.
Record t : Type := mk {
    StartTime : Date;
    EndTime : Date;
    MaxResults : Z;
    LookupAttributes : option (list LookupAttribute.t);
    NextToken : option string }.
End LookupEventsInput.

Module LookupEventsOutput.
Record t : Type := mk {
    Events : option (list Event.t);
    NextToken : option string }.
End LookupEventsOutput.

Module StartQueryInput.
Record t : Type := mk { QueryStatement : string }.
End StartQueryInput.

(** The handler reads [QueryId] with a non-null assertion: it is taken to
    be present. *)
Module StartQueryOutput.
Record t : Type := mk { QueryId : string }.
End StartQueryOutput.

Module DescribeQueryInput.
Record t : Type := mk { QueryId : string }.
End DescribeQueryInput.

Module QueryStats.
Record t : Type := mk {
    EventsMatched : option Z;
    EventsScanned : option Z;
    BytesScanned : option Z;
    ExecutionTimeInMillis : option Z }.
End QueryStats.

Module DescribeQueryOutput.
Record t : Type := mk {
    QueryStatus : option string;
    QueryStatistics : option QueryStats.t;
    ErrorMessage : option string;
    DeliveryS3Uri : option string;
    DeliveryStatus : option string }.
End DescribeQueryOutput.

Module GetQueryResultsInput.
Record t : Type := mk {
    QueryId : string;
    MaxQueryResults : Z;
    NextToken : option string }.
End GetQueryResultsInput.

(** A row is an array of cells; a cell is an object, kept as the list of
    its entries in order. *)
Definition cell : Type := list (string * string).

Module GetQueryResultsOutput.
Record t : Type := mk {
    QueryResultRows : option (list (list cell));
    NextToken : option string }.
End GetQueryResultsOutput.

Inductive command : Type :=
| LookupEventsCommand (i : LookupEventsInput.t)
| StartQueryCommand (i : StartQueryInput.t)
| DescribeQueryCommand (i : DescribeQueryInput.t)
| GetQueryResultsCommand (i : GetQueryResultsInput.t).

Module Credentials.
Record t : Type := mk {
    accessKeyId : string;
    secretAccessKey : string;
    sessionToken : option string }.
End Credentials.

(** A configured [CloudTrailClient]. *)
Module Client.
Record t : Type := mk {
    region : string;
    requestTimeout : Z;
    credentials : option Credentials.t }.
End Client.

End AWS.
Import AWS.

(* ===================================================================== *)
(** * The world of a handler: clock, environment, service, trace *)
(* ===================================================================== *)

Inductive event : Type :=
| EvNow                                      (* [new Date()] *)
| EvSend (c : Client.t) (cmd : command)      (* [client.send(cmd)] *)
| EvSleep (ms : Z)                           (* [await sleep(ms)] *)
| EvEncoderNew (model : string)              (* [encoding_for_model] *)
| EvEncoderFree.                             (* [enc.free()] *)

(** The service answers a command (or rejects it) as a function of
    everything the program did before. *)
Record Service : Type := {
  onLookupEvents :
    list event -> Client.t -> LookupEventsInput.t -> exn + LookupEventsOutput.t;
  onStartQuery :
    list event -> Client.t -> StartQueryInput.t -> exn + StartQueryOutput.t;
  onDescribeQuery :
    list event -> Client.t -> DescribeQueryInput.t -> exn + DescribeQueryOutput.t;
  onGetQueryResults :
    list event -> Client.t -> GetQueryResultsInput.t ->
    exn + GetQueryResultsOutput.t;
  (** Of two requests made together after these events and both
      rejected, whether the rejection of the first arrives first. *)
  firstRejectedFirst : list event -> bool;
}.

Record World : Type := {
  env : string -> option string;       (* [process.env] *)
  clock : list event -> Z;             (* the system clock, in ms *)
  cloudtrail : Service;
  trace : list event;
}.

Definition emit (e : event) (w : World) : World :=
  {| env := env w; clock := clock w; cloudtrail := cloudtrail w;
     trace := trace w ++ [e] |}.

(** ** Computations that may throw and act on the world *)

Inductive outcome (A : Type) : Type :=
| Return (a : A)
| Throw (e : exn).
Arguments Return {A} a.
Arguments Throw {A} e.

Definition M (A : Type) : Type := World -> outcome A * World.

Definition ret {A} (a : A) : M A := fun w => (Return a, w).
Definition throw {A} (e : exn) : M A := fun w => (Throw e, w).

Definition bind {A B} (m : M A) (k : A -> M B) : M B :=
  fun w =>
    match m w with
    | (Return a, w') => k a w'
    | (Throw e, w') => (Throw e, w')
    end.

Notation "x <- m ;; k" := (bind m (fun x => k))
  (at level 61, m at next level, right associativity).
Notation "m ;;; k" := (bind m (fun _ => k))
  (at level 61, right associativity).

(** Lifting of a pure computation that may throw. *)
Definition lift {A} (r : exn + A) : M A :=
  match r with
  | inr a => ret a
  | inl e => throw e
  end.

(** [process.env.NAME]. *)
Definition getenv (name : string) : M (option string) :=
  fun w => (Return (env w name), w).

(** [new Date()]: one reading of the clock. *)
Definition newDate : M Date :=
  fun w => (Return (ValidDate (clock w (trace w))), emit EvNow w).

Definition sleep (ms : Z) : M unit :=
  fun w => (Return tt, emit (EvSleep ms) w).

(** [client.send(cmd)], one function per command class. *)
Definition send {I O : Type} (mk : I -> command)
    (answer : Service -> list event -> Client.t -> I -> exn + O)
    (c : Client.t) (i : I) : M O :=
  fun w =>
    let w' := emit (EvSend c (mk i)) w in
    match answer (cloudtrail w) (trace w) c i with
    | inr o => (Return o, w')
    | inl e => (Throw e, w')
    end.

Definition sendLookupEvents := send LookupEventsCommand onLookupEvents.
Definition sendStartQuery := send StartQueryCommand onStartQuery.
Definition sendDescribeQuery := send DescribeQueryCommand onDescribeQuery.
Definition sendGetQueryResults := send GetQueryResultsCommand onGetQueryResults.

(** [a ?? b]. *)
Definition orElse {A} (a : option A) (b : A) : A :=
  match a with Some x => x | None => b end.

Definition orElseOpt {A} (a b : option A) : option A :=
  match a with Some x => Some x | None => b end.

(* ===================================================================== *)
(** * src/types.ts and src/utils/api.ts *)
(* ===================================================================== *)

Module CloudTrailConfig.
Record t : Type := mk {
    accessKeyId : option string;
    secretAccessKey : option string;
    region : option string;
    sessionToken : option string;
    timeout : option Z }.
End CloudTrailConfig.

Module Api.

Definition DEFAULT_REGION : string := "us-east-1".
Definition DEFAULT_TIMEOUT : Z := 30000.

Definition createCloudTrailClient (config : CloudTrailConfig.t)
    (region : option string) : M Client.t :=
  envRegion <- getenv "AWS_DEFAULT_REGION" ;;
  let resolvedRegion :=
    orElse (orElseOpt region
             (orElseOpt (CloudTrailConfig.region config) envRegion))
           DEFAULT_REGION in
  let requestTimeout := orElse (CloudTrailConfig.timeout config) DEFAULT_TIMEOUT in
  envKey <- getenv "AWS_ACCESS_KEY_ID" ;;
  envSecret <- getenv "AWS_SECRET_ACCESS_KEY" ;;
  let accessKeyId := orElseOpt (CloudTrailConfig.accessKeyId config) envKey in
  let secretAccessKey :=
    orElseOpt (CloudTrailConfig.secretAccessKey config) envSecret in
  if truthy accessKeyId && truthy secretAccessKey then
    envToken <- getenv "AWS_SESSION_TOKEN" ;;
    let sessionToken :=
      orElseOpt (CloudTrailConfig.sessionToken config) envToken in
    ret (Client.mk resolvedRegion requestTimeout
           (Some (Credentials.mk (orElse accessKeyId "")
                    (orElse secretAccessKey "")
                    (if truthy sessionToken then sessionToken else None))))
  else
    ret (Client.mk resolvedRegion requestTimeout None).

End Api.

(* ===================================================================== *)
(** * src/types/cloudtrail.ts: the time parser and the event formatter *)
(* ===================================================================== *)

Module Cloudtrail.

(** The alternatives of the unit group, in the order of the pattern. *)
Definition units : list string :=
  ["second"; "minute"; "hour"; "day"; "week"; "month"].

Fixpoint matchUnit (alts : list string) (s : string) : option (string * string) :=
  match alts with
  | [] => None
  | u :: rest =>
      match stripPrefix u s with
      | Some r => Some (u, r)
      | None => matchUnit rest s
      end
  end.

(** [s.match(/^(\d+)\s+(second|minute|hour|day|week|month)s?\s+ago$/)]:
    the two captured groups.  Digits, white space and letters are
    disjoint classes and no unit is a prefix of another, so the greedy
    left-to-right reading below is the only way the pattern can match;
    [\s+] is a run of white space that is not empty, which [trimStart]
    takes off. *)
Definition relativeMatch (s : string) : option (string * string) :=
  let (digits, r1) := span isDigit s in
  if (digits =? "")%string then None else
  let r2 := trimStart r1 in
  if (r2 =? r1)%string then None else
  match matchUnit units r2 with
  | None => None
  | Some (unit, r3) =>
      let r4 := orElse (stripPrefix "s" r3) r3 in
      let r5 := trimStart r4 in
      if (r5 =? r4)%string then None else
      if (r5 =? "ago")%string then Some (digits, unit) else None
  end.

(** The table [ms] of [parseTimeInput]. *)
Definition ms : list (string * Z) :=
  [ ("second", 1000);
    ("minute", 60 * 1000);
    ("hour", 3600 * 1000);
    ("day", 86400 * 1000);
    ("week", 7 * 86400 * 1000);
    ("month", 30 * 86400 * 1000) ].

Definition invalidTimeFormat (input : string) : string :=
  "Invalid time format: " ++ dquote ++ input ++ dquote ++
  ". Use ISO format (e.g. " ++ dquote ++ "2025-01-01T00:00:00Z" ++ dquote ++
  ") or relative (e.g. " ++ dquote ++ "1 day ago" ++ dquote ++ ", " ++
  dquote ++ "2 hours ago" ++ dquote ++ ").".

Section WithHost.
Variable host : Host.

Definition parseTimeInput (input : string) : M Date :=
  let trimmed := toLowerCase host (trim input) in
  if (trimmed =? "now")%string then newDate
  else
    match relativeMatch trimmed with
    | Some (digits, unit) =>
        let amount := parseInt10 digits in
        now <- newDate ;;
        ret (Date_of_number
               (nsub (getTime now) (nmul (Some amount) (lookup unit ms))))
    | None =>
        (* Try ISO parse *)
        let parsed := Date_parse host input in
        match getTime parsed with
        | Some _ => ret parsed
        | None => throw (Error (invalidTimeFormat input))
        end
    end.

Definition formatResource (r : Resource.t) : string :=
  "  • " ++ orElse (Resource.ResourceType r) "Unknown" ++ ": " ++
  orElse (Resource.ResourceName r) "Unknown".

(** Format a CloudTrail event for human-readable output. *)
Definition formatEvent (event : Event.t) : exn + string :=
  match
    match Event.EventTime event with
    | Some d => toISOString host d
    | None => inr "Unknown"
    end
  with
  | inl e => inl e
  | inr time =>
      let lines :=
        [ "Event:       " ++ orElse (Event.EventName event) "Unknown";
          "Source:      " ++ orElse (Event.EventSource event) "Unknown";
          "Time:        " ++ time;
          "User:        " ++ orElse (Event.Username event) "Unknown";
          "Access Key:  " ++ orElse (Event.AccessKeyId event) "N/A";
          "Read Only:   " ++ orElse (Event.ReadOnly event) "Unknown";
          "Event ID:    " ++ orElse (Event.EventId event) "Unknown" ] in
      let lines :=
        match Event.Resources event with
        | Some (r :: rs) =>
            pushAll (push lines "Resources:") (map formatResource (r :: rs))
        | _ => lines
        end in
      inr (join nl lines)
  end.

End WithHost.

End Cloudtrail.

(* ===================================================================== *)
(** * src/utils/token-limiter.ts *)
(* ===================================================================== *)

Module TokenLimiter.

Record TokenCheckResult : Type := {
  allowed : bool;
  tokens : Z;
  error : option string;
}.

(** The [unknown] argument of [checkTokenLimit]: a string, or any other
    value, which the function only looks at through [JSON.stringify]. *)
Inductive unknown : Type :=
| VString (s : string)
| VOther (stringified : string).

Section WithHost.
Variable host : Host.

Definition tokenLimitExceeded (tokens : Z) (maxTokens : number) : string :=
  "Token limit exceeded: result contains " ++ showZ tokens ++
  " tokens (limit: " ++ showNumber host maxTokens ++ "). " ++
  "To reduce output size, try: reduce maxResults, narrow the time range (startTime/endTime), " ++
  "add more specific filters (attributeKey/attributeValue), add a LIMIT clause to SQL queries, " ++
  "or set break_token_rule: true to bypass this check.".

(** The encoder is acquired, used once and freed, also when it throws
    ([try]/[finally] without [catch]): its error leaves the function. *)
Definition calculateTokens (text : string) (model : string) : M Z :=
  fun w =>
    let w1 := emit (EvEncoderNew model) w in
    match tiktoken_encode host model text with
    | inr ids => (Return (Z.of_nat (List.length ids)), emit EvEncoderFree w1)
    | inl e => (Throw e, emit EvEncoderFree w1)
    end.

Definition checkTokenLimit (result : unknown) (maxTokens : number)
    (breakRule : bool) : M TokenCheckResult :=
  if breakRule then
    ret {| allowed := true; tokens := 0; error := None |}
  else
    let resultText :=
      match result with VString s => s | VOther j => j end in
    tokens <- calculateTokens resultText "gpt-4" ;;
    if gt (Num tokens) maxTokens then
      ret {| allowed := false; tokens := tokens;
             error := Some (tokenLimitExceeded tokens maxTokens) |}
    else
      ret {| allowed := true; tokens := tokens; error := None |}.

End WithHost.

End TokenLimiter.

(* ===================================================================== *)
(** * src/handlers/lake.ts *)
(* ===================================================================== *)

Module Lake.

Definition MAX_POLL_SECONDS : Z := 300.
Definition POLL_INTERVAL_MS : Z := 2000.

Definition validateMaxResults (value : option Z) (def max : Z) : Z :=
  match value with
  | None => def
  | Some v => Z.max 1 (Z.min max v)
  end.

Module LakeQueryArgs.
Record t : Type := mk {
  sql : string;
  waitForCompletion : option bool;
  region : option string }.
End LakeQueryArgs.

Module GetQueryResultsArgs.
Record t : Type := mk {
  queryId : string;
  maxResults : option Z;
  nextToken : option string;
  region : option string }.
End GetQueryResultsArgs.

(** [Promise.all] of two requests: both are issued, then both awaited.
    When both are rejected, the rejection that arrives first is the one
    thrown, as the service has it. *)
Definition promiseAll2 {A B} (a : M A) (b : M B) : M (A * B) :=
  fun w =>
    let (ra, w1) := a w in
    let (rb, w2) := b w1 in
    match ra, rb with
    | Return x, Return y => (Return (x, y), w2)
    | Throw e, Return _ => (Throw e, w2)
    | Return _, Throw e => (Throw e, w2)
    | Throw ea, Throw eb =>
        (Throw (if firstRejectedFirst (cloudtrail w) (trace w) then ea else eb),
         w2)
    end.

Definition formatCell (c : cell) : string :=
  let (key, val) := match c with e :: _ => e | [] => ("?", "?") end in
  "  " ++ key ++ ": " ++ val.

(** The body of [rows.forEach((row, idx) => ...)], from index [idx] on.
    Rows have the type the source casts them to, arrays of cells, so the
    branch for a row that is not an array is not taken. *)
Fixpoint formatRows (idx : Z) (rows : list (list cell)) : list string :=
  match rows with
  | [] => []
  | row :: rest =>
      let header := "─── Row " ++ showZ (idx + 1) ++ " ───" in
      header :: pushAll (map formatCell row) (formatRows (idx + 1) rest)
  end.

(** [if (x !== undefined) lines.push(line)]. *)
Definition pushIf (lines : list string) (line : option string) : list string :=
  match line with
  | Some l => push lines l
  | None => lines
  end.

Definition handleGetQueryResults (config : CloudTrailConfig.t)
    (args : GetQueryResultsArgs.t) : M string :=
  envRegion <- getenv "AWS_DEFAULT_REGION" ;;
  let region :=
    orElse (orElseOpt (GetQueryResultsArgs.region args)
             (orElseOpt (CloudTrailConfig.region config) envRegion))
           "us-east-1" in
  client <- Api.createCloudTrailClient config (Some region) ;;
  let maxResults :=
    validateMaxResults (GetQueryResultsArgs.maxResults args) 50 50 in
  let queryResultsInput :=
    GetQueryResultsInput.mk (GetQueryResultsArgs.queryId args) maxResults
      (if truthy (GetQueryResultsArgs.nextToken args)
       then GetQueryResultsArgs.nextToken args else None) in
  responses <-
    promiseAll2
      (sendGetQueryResults client queryResultsInput)
      (sendDescribeQuery client
         (DescribeQueryInput.mk (GetQueryResultsArgs.queryId args))) ;;
  let (resultsResponse, statusResponse) := responses in
  let queryStatus :=
    orElse (DescribeQueryOutput.QueryStatus statusResponse) "UNKNOWN" in
  let rows := orElse (GetQueryResultsOutput.QueryResultRows resultsResponse) [] in
  let lines :=
    [ "CloudTrail Lake Query Results (region: " ++ region ++ ")";
      "Query ID: " ++ GetQueryResultsArgs.queryId args;
      "Status:   " ++ queryStatus;
      "Rows:     " ++ showZ (Z.of_nat (List.length rows));
      "" ] in
  let lines :=
    match DescribeQueryOutput.QueryStatistics statusResponse with
    | Some s =>
        let lines :=
          pushIf lines
            (option_map (fun n => "Events matched: " ++ showZ n)
               (QueryStats.EventsMatched s)) in
        let lines :=
          pushIf lines
            (option_map (fun n => "Execution time: " ++ showZ n ++ " ms")
               (QueryStats.ExecutionTimeInMillis s)) in
        push lines ""
    | None => lines
    end in
  let lines :=
    match rows with
    | [] => push lines "No results returned."
    | _ => pushAll lines (formatRows 0 rows)
    end in
  let lines :=
    match (if truthy (GetQueryResultsOutput.NextToken resultsResponse)
           then GetQueryResultsOutput.NextToken resultsResponse else None) with
    | Some token =>
        pushAll lines
          [ "";
            "⟶ More results available. Use nextToken for the next page:";
            "  nextToken: " ++ token ]
    | None => lines
    end in
  ret (join nl lines).

Definition terminalStatuses : list string :=
  ["FINISHED"; "FAILED"; "CANCELLED"; "TIMED_OUT"].

(** [terminalStatuses.includes(status)]. *)
Definition isTerminal (status : string) : bool :=
  existsb (String.eqb status) terminalStatuses.

(** What is left of the polling budget, in milliseconds. *)
Definition remaining (elapsed : Z) : nat :=
  Z.to_nat (MAX_POLL_SECONDS * 1000 - elapsed).

(** The [while] loop of [handleLakeQuery], entered with the current values
    of [elapsed], [queryStatus] and [finalErrorMessage]; it yields the last
    two.  It terminates because [elapsed] grows by [POLL_INTERVAL_MS] in
    each round and the loop stops at [MAX_POLL_SECONDS * 1000]. *)
Equations? pollForCompletion (client : Client.t) (queryId : string)
    (elapsed : Z) (queryStatus : string) (finalErrorMessage : option string)
    : M (string * option string)
    by wf (remaining elapsed) lt :=
  pollForCompletion client queryId elapsed queryStatus finalErrorMessage
    with Z_lt_dec elapsed (MAX_POLL_SECONDS * 1000) => {
    | right _ => ret (queryStatus, finalErrorMessage)
    | left _ =>
        statusResponse <-
          sendDescribeQuery client (DescribeQueryInput.mk queryId) ;;
        let queryStatus :=
          orElse (DescribeQueryOutput.QueryStatus statusResponse) "UNKNOWN" in
        let finalErrorMessage :=
          DescribeQueryOutput.ErrorMessage statusResponse in
        if isTerminal queryStatus then ret (queryStatus, finalErrorMessage)
        else
          sleep POLL_INTERVAL_MS ;;;
          pollForCompletion client queryId (elapsed + POLL_INTERVAL_MS)
            queryStatus finalErrorMessage }.
Proof.
  unfold remaining, MAX_POLL_SECONDS, POLL_INTERVAL_MS in *. lia.
Qed.

Definition handleLakeQuery (config : CloudTrailConfig.t)
    (args : LakeQueryArgs.t) : M string :=
  envRegion <- getenv "AWS_DEFAULT_REGION" ;;
  let region :=
    orElse (orElseOpt (LakeQueryArgs.region args)
             (orElseOpt (CloudTrailConfig.region config) envRegion))
           "us-east-1" in
  client <- Api.createCloudTrailClient config (Some region) ;;
  let waitForCompletion := orElse (LakeQueryArgs.waitForCompletion args) true in
  startResponse <-
    sendStartQuery client (StartQueryInput.mk (LakeQueryArgs.sql args)) ;;
  let queryId := StartQueryOutput.QueryId startResponse in
  if negb waitForCompletion then
    initialStatus <-
      sendDescribeQuery client (DescribeQueryInput.mk queryId) ;;
    ret (join nl
           [ "Query submitted (region: " ++ region ++ ")";
             "Query ID: " ++ queryId;
             "Status:   " ++
               orElse (DescribeQueryOutput.QueryStatus initialStatus) "RUNNING";
             "";
             "Use get_query_status to poll for completion, then get_query_results to fetch results." ])
  else
    (* Poll for completion *)
    polled <- pollForCompletion client queryId 0 "RUNNING" None ;;
    let (queryStatus, finalErrorMessage) := polled in
    if (queryStatus =? "FINISHED")%string then
      handleGetQueryResults config
        (GetQueryResultsArgs.mk queryId (Some 50) None (Some region))
    else
      let lines :=
        [ "Query completed with status: " ++ queryStatus ++
            " (region: " ++ region ++ ")";
          "Query ID: " ++ queryId ] in
      let lines :=
        if truthy finalErrorMessage
        then push lines ("Error: " ++ orElse finalErrorMessage "")
        else lines in
      ret (join nl lines).

End Lake.

(* ===================================================================== *)
(** * src/handlers/events.ts *)
(* ===================================================================== *)

Module Events.

Module LookupEventsArgs.
Record t : Type := mk {
  startTime : option string;
  endTime : option string;
  attributeKey : option LookupAttributeKey;
  attributeValue : option string;
  maxResults : option Z;
  nextToken : option string;
  region : option string }.
End LookupEventsArgs.

Definition validateMaxResults (value : option Z) (def max : Z) : Z :=
  match value with
  | None => def
  | Some v => Z.max 1 (Z.min max v)
  end.

Definition paginationContextRequired : string :=
  "Both startTime and endTime are required when using pagination (nextToken). " ++
  "Use the exact startTime and endTime from the queryParams in the previous response.".

(** A value interpolated in a template literal: [undefined] shows as
    such. *)
Definition showOpt (o : option string) : string := orElse o "undefined".

Section WithHost.
Variable host : Host.

(** The body of [result.events.forEach((event, idx) => ...)], from index
    [idx] on; the first event that cannot be formatted throws. *)
Fixpoint formatEvents (idx : Z) (events : list Event.t) : exn + list string :=
  match events with
  | [] => inr []
  | event :: rest =>
      match Cloudtrail.formatEvent host event with
      | inl e => inl e
      | inr text =>
          match formatEvents (idx + 1) rest with
          | inl e => inl e
          | inr more =>
              inr (("─── Event " ++ showZ (idx + 1) ++ " ───")
                     :: text :: "" :: more)
          end
      end
  end.

Definition handleLookupEvents (config : CloudTrailConfig.t)
    (args : LookupEventsArgs.t) : M string :=
  envRegion <- getenv "AWS_DEFAULT_REGION" ;;
  let region :=
    orElse (orElseOpt (LookupEventsArgs.region args)
             (orElseOpt (CloudTrailConfig.region config) envRegion))
           "us-east-1" in
  client <- Api.createCloudTrailClient config (Some region) ;;
  (* Time resolution *)
  let startStr := LookupEventsArgs.startTime args in
  let endStr := LookupEventsArgs.endTime args in
  times <-
    (if truthy (LookupEventsArgs.nextToken args) then
       if negb (truthy startStr) || negb (truthy endStr) then
         throw (Error paginationContextRequired)
       else ret (orElse startStr "", orElse endStr "")
     else ret (orElse startStr "1 day ago", orElse endStr "now")) ;;
  let (startStr, endStr) := times : string * string in
  startDt <- Cloudtrail.parseTimeInput host startStr ;;
  endDt <- Cloudtrail.parseTimeInput host endStr ;;
  let maxResults :=
    validateMaxResults (LookupEventsArgs.maxResults args) 10 50 in
  let params :=
    LookupEventsInput.mk startDt endDt maxResults
      (match LookupEventsArgs.attributeKey args,
             truthy (LookupEventsArgs.attributeValue args),
             LookupEventsArgs.attributeValue args with
       | Some key, true, Some value => Some [LookupAttribute.mk key value]
       | _, _, _ => None
       end)
      (if truthy (LookupEventsArgs.nextToken args)
       then LookupEventsArgs.nextToken args else None) in
  response <- sendLookupEvents client params ;;
  let events := orElse (LookupEventsOutput.Events response) [] in
  startIso <- lift (toISOString host startDt) ;;
  endIso <- lift (toISOString host endDt) ;;
  let lines :=
    [ "CloudTrail Events (region: " ++ region ++ ")";
      "Time range: " ++ startIso ++ " → " ++ endIso ] in
  let lines :=
    match LookupEventsArgs.attributeKey args with
    | Some key =>
        push lines
          ("Filter: " ++ keyName key ++ " = " ++ dquote ++
           showOpt (LookupEventsArgs.attributeValue args) ++ dquote)
    | None => lines
    end in
  let lines :=
    push lines ("Found: " ++ showZ (Z.of_nat (List.length events)) ++ " event(s)") in
  let lines := push lines "" in
  eventLines <-
    match events with
    | [] => ret ["No events found matching the specified criteria."]
    | _ => lift (formatEvents 0 events)
    end ;;
  let lines := pushAll lines eventLines in
  let lines :=
    if truthy (LookupEventsOutput.NextToken response) then
      pushAll lines
        [ "⟶ More results available. Use nextToken for the next page:";
          "  nextToken: " ++ showOpt (LookupEventsOutput.NextToken response);
          "  startTime: " ++ startIso ++ "  (must match original request)";
          "  endTime:   " ++ endIso ++ "  (must match original request)" ]
    else lines in
  ret (join nl lines).

End WithHost.

End Events.

(* ===================================================================== *)
(** * src/events-tools.ts: the [lookup_events] tool *)
(* ===================================================================== *)

Module EventsTools.

(** A value of a tool argument as it arrives (integers are the only
    numbers kept). *)
Inductive jsvalue : Type :=
| JUndefined
| JNull
| JBool (b : bool)
| JNumber (n : Z)
| JString (s : string).

(** The arguments of an invocation, one value per key of the schema. *)
Module RawArgs.
Record t : Type := mk {
  startTime : jsvalue;
  endTime : jsvalue;
  attributeKey : jsvalue;
  attributeValue : jsvalue;
  maxResults : jsvalue;
  nextToken : jsvalue;
  region : jsvalue;
  break_token_rule : jsvalue }.
End RawArgs.

(** [z.string().optional()]. *)
Definition optionalString (v : jsvalue) : option (option string) :=
  match v with
  | JUndefined => Some None
  | JString s => Some (Some s)
  | _ => None
  end.

(** [z.enum(LOOKUP_ATTRIBUTE_KEYS).optional()]. *)
Definition optionalKey (v : jsvalue) : option (option LookupAttributeKey) :=
  match v with
  | JUndefined => Some None
  | JString s =>
      match find (fun k => (keyName k =? s)%string) LOOKUP_ATTRIBUTE_KEYS with
      | Some k => Some (Some k)
      | None => None
      end
  | _ => None
  end.

(** [z.number().int().min(1).max(50).optional()]. *)
Definition optionalMaxResults (v : jsvalue) : option (option Z) :=
  match v with
  | JUndefined => Some None
  | JNumber n => if (1 <=? n) && (n <=? 50) then Some (Some n) else None
  | _ => None
  end.

(** [z.boolean().optional().default(false)]. *)
Definition booleanDefaultFalse (v : jsvalue) : option bool :=
  match v with
  | JUndefined => Some false
  | JBool b => Some b
  | _ => None
  end.

Module Parsed.
Record t : Type := mk {
  args : Events.LookupEventsArgs.t;
  break_token_rule : bool }.
End Parsed.

Definition issue {A} (path : string) (r : option A) : list string :=
  match r with Some _ => [] | None => [path] end.

(** [LookupEventsSchema.parse(args)]: the validated arguments, or a
    [ZodError] that lists the keys that violate the schema. *)
Definition LookupEventsSchema_parse (raw : RawArgs.t) : exn + Parsed.t :=
  let startTime := optionalString (RawArgs.startTime raw) in
  let endTime := optionalString (RawArgs.endTime raw) in
  let attributeKey := optionalKey (RawArgs.attributeKey raw) in
  let attributeValue := optionalString (RawArgs.attributeValue raw) in
  let maxResults := optionalMaxResults (RawArgs.maxResults raw) in
  let nextToken := optionalString (RawArgs.nextToken raw) in
  let region := optionalString (RawArgs.region raw) in
  let break_token_rule := booleanDefaultFalse (RawArgs.break_token_rule raw) in
  match startTime, endTime, attributeKey, attributeValue,
        maxResults, nextToken, region, break_token_rule with
  | Some st, Some et, Some ak, Some av, Some mr, Some nt, Some rg, Some br =>
      inr (Parsed.mk (Events.LookupEventsArgs.mk st et ak av mr nt rg) br)
  | _, _, _, _, _, _, _, _ =>
      inl (ZodError
             (issue "startTime" startTime ++ issue "endTime" endTime ++
              issue "attributeKey" attributeKey ++
              issue "attributeValue" attributeValue ++
              issue "maxResults" maxResults ++ issue "nextToken" nextToken ++
              issue "region" region ++
              issue "break_token_rule" break_token_rule)%list)
  end.

Record TextContent : Type := {
  type : string;
  text : string;
}.

Record ToolResult : Type := { content : list TextContent }.

Section WithHost.
Variable host : Host.

(** The callback registered for [lookup_events] by [registerEventsTools]. *)
Definition lookup_events (config : CloudTrailConfig.t) (maxTokenCall : number)
    (args : RawArgs.t) : M ToolResult :=
  parsed <- lift (LookupEventsSchema_parse args) ;;
  text <- Events.handleLookupEvents host config (Parsed.args parsed) ;;
  tokenCheck <-
    TokenLimiter.checkTokenLimit host (TokenLimiter.VString text) maxTokenCall
      (Parsed.break_token_rule parsed) ;;
  if negb (TokenLimiter.allowed tokenCheck) then
    ret {| content :=
             [ {| type := "text";
                  text := orElse (TokenLimiter.error tokenCheck) "undefined" |} ] |}
  else
    ret {| content := [ {| type := "text"; text := text |} ] |}.

End WithHost.

End EventsTools.

(* ===================================================================== *)
(** * Concrete hosts, services and worlds *)
(* ===================================================================== *)

Module Sample.

(** Lowering of the ASCII letters and of the Kelvin sign (U+212A, whose
    lower case is [k]), the other characters being left as they are. *)
Fixpoint lowerKelvin (s : string) : string :=
  match s with
  | EmptyString => EmptyString
  | String a r1 =>
      match r1 with
      | String b (String c r3) =>
          if ((nat_of_ascii a =? 226) && (nat_of_ascii b =? 132) &&
              (nat_of_ascii c =? 170))%nat
          then String "k" (lowerKelvin r3)
          else String (lowerChar a) (lowerKelvin r1)
      | _ => String (lowerChar a) (lowerKelvin r1)
      end
  end.

Definition specialToken : string := "<|endoftext|>".

(** A host that parses one ISO instant, lowers the ASCII letters and the
    Kelvin sign, writes an integer out in full at any size, and counts
    one token per unit of a text, unless the text spells the special
    token, which its encoder refuses as the encoder of the library
    does. *)
Definition host : Host := {|
  Date_parse := fun s =>
    if (s =? "2025-01-01T00:00:00Z")%string then ValidDate 1735689600000
    else InvalidDate;
  isoString := fun t => showZ t;
  Unicode_toLowerCase := lowerKelvin;
  Number_toString := fun n =>
    match n with
    | Num z => showZ z
    | Fraction n d => showZ n ++ "/" ++ showZ (Z.pos d)
    | Infinity => "Infinity"
    | NegInfinity => "-Infinity"
    | NaN => "NaN"
    end;
  Number_of_integer := fun z => Num z;
  tiktoken_encode := fun _ text =>
    if includesb specialToken text
    then inl (Error ("The text contains a special token that is not allowed: "
                     ++ specialToken))
    else inr (map nat_of_ascii (list_ascii_of_string text));
|}.

Definition sleeps (tr : list event) : nat :=
  List.length (filter (fun e => match e with EvSleep _ => true | _ => false end) tr).

Definition noStats (status : string) (err : option string)
    : DescribeQueryOutput.t :=
  DescribeQueryOutput.mk (Some status) None err None None.

(** A service whose query is RUNNING until the program has slept once and
    has reached [final] afterwards. *)
Definition service (final : string) (err : option string) : Service := {|
  onLookupEvents := fun _ _ _ => inr (LookupEventsOutput.mk (Some []) None);
  onStartQuery := fun _ _ _ => inr (StartQueryOutput.mk "q-0001");
  onDescribeQuery := fun tr _ _ =>
    inr (match sleeps tr with
         | O => noStats "RUNNING" None
         | S _ => noStats final err
         end);
  onGetQueryResults := fun _ _ _ =>
    inr (GetQueryResultsOutput.mk (Some [[[("eventname", "ConsoleLogin")]]]) None);
  firstRejectedFirst := fun _ => true;
|}.

(** The clock advances by one millisecond with every event. *)
Definition world (s : Service) (tr : list event) : World := {|
  env := fun _ => None;
  clock := fun tr => 1700000000000 + Z.of_nat (List.length tr);
  cloudtrail := s;
  trace := tr;
|}.

Definition failing : Service := service "FAILED" (Some "table not found").
Definition finishing : Service := service "FINISHED" None.

Definition config : CloudTrailConfig.t :=
  CloudTrailConfig.mk None None (Some "eu-west-1") None None.

Definition noArgs : Events.LookupEventsArgs.t :=
  Events.LookupEventsArgs.mk None None None None None None None.

Definition client : Client.t := Client.mk "eu-west-1" 30000 None.

Definition lakeArgs : Lake.LakeQueryArgs.t :=
  Lake.LakeQueryArgs.mk "select 1" None None.

(** An invocation of the tool that asks for 51 events. *)
Definition raw51 : EventsTools.RawArgs.t :=
  EventsTools.RawArgs.mk
    EventsTools.JUndefined EventsTools.JUndefined EventsTools.JUndefined
    EventsTools.JUndefined (EventsTools.JNumber 51) EventsTools.JUndefined
    EventsTools.JUndefined EventsTools.JUndefined.



(** A lookup by user name with an empty name. *)
Definition emptyValueArgs : Events.LookupEventsArgs.t :=
  Events.LookupEventsArgs.mk None None (Some Username) (Some "") None None None.

(** A lookup with a key and no value. *)
Definition keyOnlyArgs : Events.LookupEventsArgs.t :=
  Events.LookupEventsArgs.mk None None (Some Username) None None None None.

(** A service whose query never leaves RUNNING. *)
Definition running : Service := service "RUNNING" None.

Definition asyncArgs : Lake.LakeQueryArgs.t :=
  Lake.LakeQueryArgs.mk "select 1" (Some false) None.

End Sample.

(* ===================================================================== *)
(** * Vocabulary of the statements *)
(* ===================================================================== *)

(** The units of the relative form and their durations in milliseconds,
    as the specification lists them. *)
Inductive timeUnit : Type := Second | Minute | Hour | Day | Week | Month.

Definition unitWord (u : timeUnit) : string :=
  match u with
  | Second => "second" | Minute => "minute" | Hour => "hour"
  | Day => "day" | Week => "week" | Month => "month"
  end.

Definition unitDuration (u : timeUnit) : Z :=
  match u with
  | Second => 1000
  | Minute => 60 * 1000
  | Hour => 3600 * 1000
  | Day => 86400 * 1000
  | Week => 7 * (86400 * 1000)
  | Month => 30 * (86400 * 1000)
  end.

(** The twelve endings of a relative form: a blank, a unit, an optional
    [s], a blank and [ago]. *)
Definition ending (u : timeUnit) (plural : bool) : string :=
  " " ++ unitWord u ++ (if plural then "s" else "") ++ " ago".

(** The string ["<n> <unit> ago"], singular or plural. *)
Definition relativeInput (n : N) (u : timeUnit) (plural : bool) : string :=
  showN n ++ " " ++ unitWord u ++ (if plural then "s" else "") ++ " ago".

(** The world after a sequence of events. *)
Definition emits (evs : list event) (w : World) : World :=
  fold_left (fun w e => emit e w) evs w.

(** One round of the polling loop: a status query, then the pause. *)
Definition describeEvent (client : Client.t) (queryId : string) : event :=
  EvSend client (DescribeQueryCommand (DescribeQueryInput.mk queryId)).

Definition pollRound (client : Client.t) (queryId : string) : list event :=
  [describeEvent client queryId; EvSleep 2000].

(** The region a handler works in: the argument, else the configuration,
    else the environment, else [us-east-1]. *)
Definition regionOf (config : CloudTrailConfig.t) (region : option string)
    (w : World) : string :=
  orElse (orElseOpt region
            (orElseOpt (CloudTrailConfig.region config)
               (env w "AWS_DEFAULT_REGION")))
         "us-east-1".

Definition startEvent (client : Client.t) (sql : string) : event :=
  EvSend client (StartQueryCommand (StartQueryInput.mk sql)).

(** The events of [rounds] full rounds of polling. *)
Definition pollRounds (client : Client.t) (queryId : string) (rounds : nat)
    : list event :=
  List.concat (repeat (pollRound client queryId) rounds).

(** The status that the loop reads in an answer. *)
Definition statusOf (response : DescribeQueryOutput.t) : string :=
  orElse (DescribeQueryOutput.QueryStatus response) "UNKNOWN".

(** What the service answers to the status query that is made in the
    world [w] once [i] full rounds of polling have followed. *)
Definition statusAnswer (w : World) (client : Client.t) (queryId : string)
    (i : nat) : exn + DescribeQueryOutput.t :=
  onDescribeQuery (cloudtrail w) (trace w ++ pollRounds client queryId i)
    client (DescribeQueryInput.mk queryId).

(** The time resolution of [handleLookupEvents]: the two strings handed
    to the parser, or the error thrown before. *)
Definition resolveTimes (args : Events.LookupEventsArgs.t)
    : exn + (string * string) :=
  let startStr := Events.LookupEventsArgs.startTime args in
  let endStr := Events.LookupEventsArgs.endTime args in
  if truthy (Events.LookupEventsArgs.nextToken args) then
    if negb (truthy startStr) || negb (truthy endStr)
    then inl (Error Events.paginationContextRequired)
    else inr (orElse startStr "", orElse endStr "")
  else inr (orElse startStr "1 day ago", orElse endStr "now").

(** The [params] that [handleLookupEvents] builds for the two parsed
    dates. *)
Definition lookupRequest (args : Events.LookupEventsArgs.t)
    (startDt endDt : Date) : LookupEventsInput.t :=
  LookupEventsInput.mk startDt endDt
    (Events.validateMaxResults (Events.LookupEventsArgs.maxResults args) 10 50)
    (match Events.LookupEventsArgs.attributeKey args,
           truthy (Events.LookupEventsArgs.attributeValue args),
           Events.LookupEventsArgs.attributeValue args with
     | Some key, true, Some value => Some [LookupAttribute.mk key value]
     | _, _, _ => None
     end)
    (if truthy (Events.LookupEventsArgs.nextToken args)
     then Events.LookupEventsArgs.nextToken args else None).

Definition lookupEvent (client : Client.t) (req : LookupEventsInput.t) : event :=
  EvSend client (LookupEventsCommand req).

(** The arguments with the two attribute fields left out. *)
Definition withoutAttribute (args : Events.LookupEventsArgs.t)
    : Events.LookupEventsArgs.t :=
  Events.LookupEventsArgs.mk
    (Events.LookupEventsArgs.startTime args)
    (Events.LookupEventsArgs.endTime args)
    None None
    (Events.LookupEventsArgs.maxResults args)
    (Events.LookupEventsArgs.nextToken args)
    (Events.LookupEventsArgs.region args).

Definition outcomeOf {A} (r : exn + A) : outcome A :=
  match r with inl e => Throw e | inr a => Return a end.

(** What [handleLookupEvents] makes of the answer of the service: the
    text, or the exception of a date or an event that cannot be shown. *)
Definition renderLookup (host : Host) (region : string)
    (args : Events.LookupEventsArgs.t) (startDt endDt : Date)
    (response : LookupEventsOutput.t) : exn + string :=
  let events := orElse (LookupEventsOutput.Events response) [] in
  match toISOString host startDt, toISOString host endDt with
  | inl e, _ => inl e
  | inr _, inl e => inl e
  | inr startIso, inr endIso =>
      let lines :=
        [ "CloudTrail Events (region: " ++ region ++ ")";
          "Time range: " ++ startIso ++ " → " ++ endIso ] in
      let lines :=
        match Events.LookupEventsArgs.attributeKey args with
        | Some key =>
            push lines
              ("Filter: " ++ keyName key ++ " = " ++ dquote ++
               Events.showOpt (Events.LookupEventsArgs.attributeValue args) ++
               dquote)
        | None => lines
        end in
      let lines :=
        push lines
          ("Found: " ++ showZ (Z.of_nat (List.length events)) ++ " event(s)") in
      let lines := push lines "" in
      match
        match events with
        | [] => inr ["No events found matching the specified criteria."]
        | _ => Events.formatEvents host 0 events
        end
      with
      | inl e => inl e
      | inr eventLines =>
          let lines := pushAll lines eventLines in
          let lines :=
            if truthy (LookupEventsOutput.NextToken response) then
              pushAll lines
                [ "⟶ More results available. Use nextToken for the next page:";
                  "  nextToken: " ++
                    Events.showOpt (LookupEventsOutput.NextToken response);
                  "  startTime: " ++ startIso ++ "  (must match original request)";
                  "  endTime:   " ++ endIso ++ "  (must match original request)" ]
            else lines in
          inr (join nl lines)
      end
  end.

(** The LookupEvents requests among some events. *)
Definition lookupsIn (evs : list event) : list LookupEventsInput.t :=
  flat_map
    (fun e =>
       match e with
       | EvSend _ (LookupEventsCommand i) => [i]
       | _ => []
       end)
    evs.

(** The filter of a lookup, as the amended claim words it: the pair, when
    a key and a non-empty value are given. *)
Definition filterOf (args : Events.LookupEventsArgs.t)
    : option (list LookupAttribute.t) :=
  match Events.LookupEventsArgs.attributeKey args,
        Events.LookupEventsArgs.attributeValue args with
  | Some key, Some value =>
      if (value =? "")%string then None
      else Some [LookupAttribute.mk key value]
  | _, _ => None
  end.

(** The arguments with another page size. *)
Definition withMaxResults (args : Events.LookupEventsArgs.t) (n : Z)
    : Events.LookupEventsArgs.t :=
  Events.LookupEventsArgs.mk
    (Events.LookupEventsArgs.startTime args)
    (Events.LookupEventsArgs.endTime args)
    (Events.LookupEventsArgs.attributeKey args)
    (Events.LookupEventsArgs.attributeValue args)
    (Some n)
    (Events.LookupEventsArgs.nextToken args)
    (Events.LookupEventsArgs.region args).

(** The page size the claims speak of. *)
Definition clamp (requested : Z) : Z := Z.max 1 (Z.min 50 requested).

(* ===================================================================== *)
(** * src/handlers/lake.ts: the status of a query *)
(* ===================================================================== *)

Module LakeStatus.

Module GetQueryStatusArgs.
Record t : Type := mk {
  queryId : string;
  region : option string }.
End GetQueryStatusArgs.

(** Two decimal digits. *)
Definition pad2 (d : Z) : string :=
  if d <? 10 then "0" ++ showZ d else showZ d.

(** The magnitude from which [toFixed] gives up its own notation for
    that of [Number::toString]: [1e21], here times 1024. *)
Definition toFixedLimit : Z := 1024 * 10 ^ 21.

(** [(n / 1024).toFixed(2)] for an integer [n].  The division by a power
    of two is exact in binary floating point; [toFixed] takes the sign
    apart and, below [1e21], rounds the exact magnitude to the nearest
    hundredth, the larger one on a tie; from [1e21] on it returns what
    [Number::toString] does. *)
Definition toFixed2_1024 (h : Host) (n : Z) : string :=
  (if n <? 0 then "-" else "") ++
  (if toFixedLimit <=? Z.abs n then Number_toString h (Num (Z.abs n / 1024))
   else
     let hundredths := (100 * Z.abs n + 512) / 1024 in
     showZ (hundredths / 100) ++ "." ++ pad2 (hundredths mod 100)).

Section WithHost.
Variable host : Host.

Definition handleGetQueryStatus (config : CloudTrailConfig.t)
    (args : GetQueryStatusArgs.t) : M string :=
  envRegion <- getenv "AWS_DEFAULT_REGION" ;;
  let region :=
    orElse (orElseOpt (GetQueryStatusArgs.region args)
             (orElseOpt (CloudTrailConfig.region config) envRegion))
           "us-east-1" in
  client <- Api.createCloudTrailClient config (Some region) ;;
  response <-
    sendDescribeQuery client
      (DescribeQueryInput.mk (GetQueryStatusArgs.queryId args)) ;;
  let queryStatus :=
    orElse (DescribeQueryOutput.QueryStatus response) "UNKNOWN" in
  let errorMessage := DescribeQueryOutput.ErrorMessage response in
  let deliveryS3Uri := DescribeQueryOutput.DeliveryS3Uri response in
  let lines :=
    [ "CloudTrail Lake Query Status (region: " ++ region ++ ")";
      "Query ID: " ++ GetQueryStatusArgs.queryId args;
      "Status:   " ++ queryStatus ] in
  let lines :=
    match DescribeQueryOutput.QueryStatistics response with
    | Some s =>
        let lines := push lines "" in
        let lines := push lines "Statistics:" in
        let lines :=
          Lake.pushIf lines
            (option_map (fun n => "  Events matched: " ++ showZ n)
               (QueryStats.EventsMatched s)) in
        let lines :=
          Lake.pushIf lines
            (option_map (fun n => "  Events scanned: " ++ showZ n)
               (QueryStats.EventsScanned s)) in
        let lines :=
          Lake.pushIf lines
            (option_map
               (fun n => "  Bytes scanned:  " ++ toFixed2_1024 host n ++ " KB")
               (QueryStats.BytesScanned s)) in
        Lake.pushIf lines
          (option_map (fun n => "  Execution time: " ++ showZ n ++ " ms")
             (QueryStats.ExecutionTimeInMillis s))
    | None => lines
    end in
  let lines :=
    if truthy errorMessage
    then push (push lines "") ("Error: " ++ orElse errorMessage "")
    else lines in
  let lines :=
    if truthy deliveryS3Uri
    then
      push
        (push (push lines "") ("Delivery S3 URI: " ++ orElse deliveryS3Uri ""))
        ("Delivery status: " ++
         orElse (DescribeQueryOutput.DeliveryStatus response) "Unknown")
    else lines in
  ret (join nl lines).

End WithHost.

End LakeStatus.

(* ===================================================================== *)
(** * src/handlers/lake.ts: the list of event data stores *)
(* ===================================================================== *)

Module LakeStores.

Module EventDataStore.
Record t : Type := mk {
  EventDataStoreArn : option string;
  Name : option string;
  Status : option string;
  RetentionPeriod : option Z;
  CreatedTimestamp : option Date }.
End EventDataStore.

Module ListEventDataStoresOutput.
Record t : Type := mk { EventDataStores : option (list EventDataStore.t) }.
End ListEventDataStoresOutput.

Module AdvancedEventSelector.
Record t : Type := mk { Name : option string }.
End AdvancedEventSelector.

Module GetEventDataStoreOutput.
Record t : Type := mk {
  MultiRegionEnabled : option bool;
  OrganizationEnabled : option bool;
  AdvancedEventSelectors : option (list AdvancedEventSelector.t) }.
End GetEventDataStoreOutput.

Module ListEventDataStoresArgs.
Record t : Type := mk {
  includeDetails : option bool;
  region : option string }.
End ListEventDataStoresArgs.

(** The two commands of this handler. *)
Inductive storeCommand : Type :=
| ListEventDataStoresCommand
| GetEventDataStoreCommand (EventDataStore : string).

Definition request : Type := (Client.t * storeCommand)%type.

(** The service answers as a function of the requests made before. *)
Record StoreService : Type := {
  onListEventDataStores :
    list request -> Client.t -> exn + ListEventDataStoresOutput.t;
  onGetEventDataStore :
    list request -> Client.t -> string -> exn + GetEventDataStoreOutput.t;
}.

(** The world of the other handlers, the two operations on stores and
    the requests made for them so far. *)
Record StoreWorld : Type := {
  world : World;
  stores : StoreService;
  requests : list request;
}.

Definition MS (A : Type) : Type := StoreWorld -> outcome A * StoreWorld.

Definition retS {A} (a : A) : MS A := fun sw => (Return a, sw).
Definition throwS {A} (e : exn) : MS A := fun sw => (Throw e, sw).

Definition bindS {A B} (m : MS A) (k : A -> MS B) : MS B :=
  fun sw =>
    match m sw with
    | (Return a, sw') => k a sw'
    | (Throw e, sw') => (Throw e, sw')
    end.

Notation "x <~ m ;; k" := (bindS m (fun x => k))
  (at level 61, m at next level, right associativity).

Definition liftS {A} (r : exn + A) : MS A :=
  match r with
  | inr a => retS a
  | inl e => throwS e
  end.

(** A computation of the other handlers, run in the inner world. *)
Definition inWorld {A} (m : M A) : MS A :=
  fun sw =>
    let (r, w') := m (world sw) in
    (r, {| world := w'; stores := stores sw; requests := requests sw |}).

Definition record (c : Client.t) (cmd : storeCommand) (sw : StoreWorld)
    : StoreWorld :=
  {| world := world sw; stores := stores sw;
     requests := (requests sw ++ [(c, cmd)])%list |}.

Definition sendListEventDataStores (c : Client.t)
    : MS ListEventDataStoresOutput.t :=
  fun sw =>
    (match onListEventDataStores (stores sw) (requests sw) c with
     | inr o => Return o
     | inl e => Throw e
     end,
     record c ListEventDataStoresCommand sw).

Definition sendGetEventDataStore (c : Client.t) (arn : string)
    : MS GetEventDataStoreOutput.t :=
  fun sw =>
    (match onGetEventDataStore (stores sw) (requests sw) c arn with
     | inr o => Return o
     | inl e => Throw e
     end,
     record c (GetEventDataStoreCommand arn) sw).

(** [try { m } catch { handler }]. *)
Definition tryCatch {A} (m : MS A) (handler : MS A) : MS A :=
  fun sw =>
    match m sw with
    | (Return a, sw') => (Return a, sw')
    | (Throw _, sw') => handler sw'
    end.

Definition showBool (b : bool) : string := if b then "true" else "false".

Definition unableToRetrieve : string :=
  "(Unable to retrieve detailed configuration)".

(** What the [try] block pushes for the details of a store. *)
Definition detailLines (lines : list string)
    (details : GetEventDataStoreOutput.t) : list string :=
  let lines :=
    Lake.pushIf lines
      (option_map (fun b => "Multi-region: " ++ showBool b)
         (GetEventDataStoreOutput.MultiRegionEnabled details)) in
  let lines :=
    Lake.pushIf lines
      (option_map (fun b => "Org-enabled:  " ++ showBool b)
         (GetEventDataStoreOutput.OrganizationEnabled details)) in
  match GetEventDataStoreOutput.AdvancedEventSelectors details with
  | Some (s :: ss) =>
      push lines
        ("Event selectors: " ++ showZ (Z.of_nat (List.length (s :: ss))))
  | _ => lines
  end.

Section WithHost.
Variable host : Host.

(** The [for] loop over the stores, from index [i] on, with the lines
    pushed so far. *)
Fixpoint describeStores (client : Client.t) (includeDetails : bool) (i : Z)
    (storeList : list EventDataStore.t) (lines : list string)
    : MS (list string) :=
  match storeList with
  | [] => retS lines
  | store :: rest =>
      let lines := push lines ("─── Store " ++ showZ (i + 1) ++ " ───") in
      let lines :=
        push lines ("Name:    " ++ orElse (EventDataStore.Name store) "Unknown") in
      let lines :=
        push lines
          ("ARN:     " ++ orElse (EventDataStore.EventDataStoreArn store) "Unknown") in
      let lines :=
        push lines ("Status:  " ++ orElse (EventDataStore.Status store) "Unknown") in
      let lines :=
        Lake.pushIf lines
          (option_map (fun n => "Retention: " ++ showZ n ++ " days")
             (EventDataStore.RetentionPeriod store)) in
      lines <~
        match EventDataStore.CreatedTimestamp store with
        | Some d =>
            created <~ liftS (toISOString host d) ;;
            retS (push lines ("Created: " ++ created))
        | None => retS lines
        end ;;
      lines <~
        (if includeDetails && truthy (EventDataStore.EventDataStoreArn store)
         then
           tryCatch
             (details <~
                sendGetEventDataStore client
                  (orElse (EventDataStore.EventDataStoreArn store) "") ;;
              retS (detailLines lines details))
             (retS (push lines unableToRetrieve))
         else retS lines) ;;
      describeStores client includeDetails (i + 1) rest (push lines "")
  end.

Definition noStores : string :=
  "No Event Data Stores found in this region. " ++
  "CloudTrail Lake must be enabled and configured.".

Definition tip : string :=
  "Tip: Use the EventDataStoreArn (without the full ARN prefix) as the FROM clause ID in lake_query SQL statements.".

Definition handleListEventDataStores (config : CloudTrailConfig.t)
    (args : ListEventDataStoresArgs.t) : MS string :=
  envRegion <~ inWorld (getenv "AWS_DEFAULT_REGION") ;;
  let region :=
    orElse (orElseOpt (ListEventDataStoresArgs.region args)
             (orElseOpt (CloudTrailConfig.region config) envRegion))
           "us-east-1" in
  client <~ inWorld (Api.createCloudTrailClient config (Some region)) ;;
  let includeDetails :=
    orElse (ListEventDataStoresArgs.includeDetails args) true in
  response <~ sendListEventDataStores client ;;
  let storeList :=
    orElse (ListEventDataStoresOutput.EventDataStores response) [] in
  let lines :=
    [ "CloudTrail Lake Event Data Stores (region: " ++ region ++ ")";
      "Found: " ++ showZ (Z.of_nat (List.length storeList)) ++ " store(s)";
      "" ] in
  match storeList with
  | [] => retS (join nl (push lines noStores))
  | _ =>
      lines <~ describeStores client includeDetails 0 storeList lines ;;
      retS (join nl (push lines tip))
  end.

End WithHost.

End LakeStores.

(* ===================================================================== *)
(** * src/lake-tools.ts: the four Lake tools *)
(* ===================================================================== *)

Module LakeTools.
Import EventsTools.

(** [z.string()]. *)
Definition requiredString (v : jsvalue) : option string :=
  match v with
  | JString s => Some s
  | _ => None
  end.

(** [z.boolean().optional()]. *)
Definition optionalBoolean (v : jsvalue) : option (option bool) :=
  match v with
  | JUndefined => Some None
  | JBool b => Some (Some b)
  | _ => None
  end.

Module LakeQueryRaw.
Record t : Type := mk {
  sql : jsvalue;
  waitForCompletion : jsvalue;
  region : jsvalue;
  break_token_rule : jsvalue }.
End LakeQueryRaw.

Module GetQueryStatusRaw.
Record t : Type := mk {
  queryId : jsvalue;
  region : jsvalue;
  break_token_rule : jsvalue }.
End GetQueryStatusRaw.

Module GetQueryResultsRaw.
Record t : Type := mk {
  queryId : jsvalue;
  maxResults : jsvalue;
  nextToken : jsvalue;
  region : jsvalue;
  break_token_rule : jsvalue }.
End GetQueryResultsRaw.

Module ListEventDataStoresRaw.
Record t : Type := mk {
  includeDetails : jsvalue;
  region : jsvalue;
  break_token_rule : jsvalue }.
End ListEventDataStoresRaw.

(** [LakeQuerySchema.parse(args)]: the arguments of the handler and
    [break_token_rule]. *)
Definition LakeQuerySchema_parse (raw : LakeQueryRaw.t)
    : exn + (Lake.LakeQueryArgs.t * bool) :=
  let sql := requiredString (LakeQueryRaw.sql raw) in
  let waitForCompletion := optionalBoolean (LakeQueryRaw.waitForCompletion raw) in
  let region := optionalString (LakeQueryRaw.region raw) in
  let break_token_rule := booleanDefaultFalse (LakeQueryRaw.break_token_rule raw) in
  match sql, waitForCompletion, region, break_token_rule with
  | Some s, Some wc, Some rg, Some br =>
      inr (Lake.LakeQueryArgs.mk s wc rg, br)
  | _, _, _, _ =>
      inl (ZodError
             (issue "sql" sql ++ issue "waitForCompletion" waitForCompletion ++
              issue "region" region ++
              issue "break_token_rule" break_token_rule)%list)
  end.

Definition GetQueryStatusSchema_parse (raw : GetQueryStatusRaw.t)
    : exn + (LakeStatus.GetQueryStatusArgs.t * bool) :=
  let queryId := requiredString (GetQueryStatusRaw.queryId raw) in
  let region := optionalString (GetQueryStatusRaw.region raw) in
  let break_token_rule :=
    booleanDefaultFalse (GetQueryStatusRaw.break_token_rule raw) in
  match queryId, region, break_token_rule with
  | Some q, Some rg, Some br =>
      inr (LakeStatus.GetQueryStatusArgs.mk q rg, br)
  | _, _, _ =>
      inl (ZodError
             (issue "queryId" queryId ++ issue "region" region ++
              issue "break_token_rule" break_token_rule)%list)
  end.

Definition GetQueryResultsSchema_parse (raw : GetQueryResultsRaw.t)
    : exn + (Lake.GetQueryResultsArgs.t * bool) :=
  let queryId := requiredString (GetQueryResultsRaw.queryId raw) in
  let maxResults := optionalMaxResults (GetQueryResultsRaw.maxResults raw) in
  let nextToken := optionalString (GetQueryResultsRaw.nextToken raw) in
  let region := optionalString (GetQueryResultsRaw.region raw) in
  let break_token_rule :=
    booleanDefaultFalse (GetQueryResultsRaw.break_token_rule raw) in
  match queryId, maxResults, nextToken, region, break_token_rule with
  | Some q, Some mr, Some nt, Some rg, Some br =>
      inr (Lake.GetQueryResultsArgs.mk q mr nt rg, br)
  | _, _, _, _, _ =>
      inl (ZodError
             (issue "queryId" queryId ++ issue "maxResults" maxResults ++
              issue "nextToken" nextToken ++ issue "region" region ++
              issue "break_token_rule" break_token_rule)%list)
  end.

Definition ListEventDataStoresSchema_parse (raw : ListEventDataStoresRaw.t)
    : exn + (LakeStores.ListEventDataStoresArgs.t * bool) :=
  let includeDetails := optionalBoolean (ListEventDataStoresRaw.includeDetails raw) in
  let region := optionalString (ListEventDataStoresRaw.region raw) in
  let break_token_rule :=
    booleanDefaultFalse (ListEventDataStoresRaw.break_token_rule raw) in
  match includeDetails, region, break_token_rule with
  | Some d, Some rg, Some br =>
      inr (LakeStores.ListEventDataStoresArgs.mk d rg, br)
  | _, _, _ =>
      inl (ZodError
             (issue "includeDetails" includeDetails ++ issue "region" region ++
              issue "break_token_rule" break_token_rule)%list)
  end.

Section WithHost.
Variable host : Host.

(** What every callback does with the text of its handler: the token
    check, then the text or the message of the check as the one item of
    the content. *)
Definition guarded (maxTokenCall : number) (break_token_rule : bool)
    (text : string) : M ToolResult :=
  tokenCheck <-
    TokenLimiter.checkTokenLimit host (TokenLimiter.VString text) maxTokenCall
      break_token_rule ;;
  if negb (TokenLimiter.allowed tokenCheck) then
    ret {| content :=
             [ {| type := "text";
                  text := orElse (TokenLimiter.error tokenCheck) "undefined" |} ] |}
  else
    ret {| content := [ {| type := "text"; text := text |} ] |}.

Definition lake_query (config : CloudTrailConfig.t) (maxTokenCall : number)
    (args : LakeQueryRaw.t) : M ToolResult :=
  parsed <- lift (LakeQuerySchema_parse args) ;;
  text <- Lake.handleLakeQuery config (fst parsed) ;;
  guarded maxTokenCall (snd parsed) text.

Definition get_query_status (config : CloudTrailConfig.t)
    (maxTokenCall : number) (args : GetQueryStatusRaw.t) : M ToolResult :=
  parsed <- lift (GetQueryStatusSchema_parse args) ;;
  text <- LakeStatus.handleGetQueryStatus host config (fst parsed) ;;
  guarded maxTokenCall (snd parsed) text.

Definition get_query_results (config : CloudTrailConfig.t)
    (maxTokenCall : number) (args : GetQueryResultsRaw.t) : M ToolResult :=
  parsed <- lift (GetQueryResultsSchema_parse args) ;;
  text <- Lake.handleGetQueryResults config (fst parsed) ;;
  guarded maxTokenCall (snd parsed) text.

Definition list_event_data_stores (config : CloudTrailConfig.t)
    (maxTokenCall : number) (args : ListEventDataStoresRaw.t)
    : LakeStores.MS ToolResult :=
  LakeStores.bindS (LakeStores.liftS (ListEventDataStoresSchema_parse args))
    (fun parsed =>
       LakeStores.bindS
         (LakeStores.handleListEventDataStores host config (fst parsed))
         (fun text =>
            LakeStores.inWorld (guarded maxTokenCall (snd parsed) text))).

End WithHost.

End LakeTools.

(* ===================================================================== *)
(** * index.ts: the token ceiling of the server *)
(* ===================================================================== *)

Module Index.

(** [parseInt(s, 10)]: leading white space, an optional sign, then the
    longest run of decimal digits; [NaN] when there is none.  The integer
    read is the result up to [2^53]; beyond, the result is the number
    that the host makes of it. *)
Definition parseInt (h : Host) (s : string) : number :=
  let s := trimStart s in
  let (sign, rest) :=
    match s with
    | String "-" r => (-1, r)
    | String "+" r => (1, r)
    | _ => (1, s)
    end in
  let (digits, _) := span isDigit rest in
  if (digits =? "")%string then NaN
  else
    let v := sign * parseInt10 digits in
    if Z.abs v <=? Z.of_N maxSafeInteger then Num v else Number_of_integer h v.

(** [parseInt(process.env.MAX_TOKEN_CALL ?? '20000', 10)], read when the
    server is created. *)
Definition maxTokenCall (h : Host) (w : World) : number :=
  parseInt h (orElse (env w "MAX_TOKEN_CALL") "20000").

End Index.

(** A service that, for this client and query, always answers the status
    query, and never with a terminal status. *)
Definition neverTerminal (s : Service) (client : Client.t) (queryId : string)
    : Prop :=
  forall tr,
    exists response,
      onDescribeQuery s tr client (DescribeQueryInput.mk queryId) = inr response /\
      Lake.isTerminal
        (orElse (DescribeQueryOutput.QueryStatus response) "UNKNOWN") = false.

(** The request for a page of results that [handleGetQueryResults] builds. *)
Definition resultsRequest (args : Lake.GetQueryResultsArgs.t)
    : GetQueryResultsInput.t :=
  GetQueryResultsInput.mk (Lake.GetQueryResultsArgs.queryId args)
    (Lake.validateMaxResults (Lake.GetQueryResultsArgs.maxResults args) 50 50)
    (if truthy (Lake.GetQueryResultsArgs.nextToken args)
     then Lake.GetQueryResultsArgs.nextToken args else None).

Definition resultsEvent (client : Client.t) (req : GetQueryResultsInput.t)
    : event :=
  EvSend client (GetQueryResultsCommand req).

(** The lines that [handleGetQueryStatus] makes of an answer. *)
Definition statusLines (host : Host) (region queryId : string)
    (response : DescribeQueryOutput.t) : list string :=
  let errorMessage := DescribeQueryOutput.ErrorMessage response in
  let deliveryS3Uri := DescribeQueryOutput.DeliveryS3Uri response in
  let lines :=
    [ "CloudTrail Lake Query Status (region: " ++ region ++ ")";
      "Query ID: " ++ queryId;
      "Status:   " ++
        orElse (DescribeQueryOutput.QueryStatus response) "UNKNOWN" ] in
  let lines :=
    match DescribeQueryOutput.QueryStatistics response with
    | Some s =>
        Lake.pushIf
          (Lake.pushIf
             (Lake.pushIf
                (Lake.pushIf (push (push lines "") "Statistics:")
                   (option_map (fun n => "  Events matched: " ++ showZ n)
                      (QueryStats.EventsMatched s)))
                (option_map (fun n => "  Events scanned: " ++ showZ n)
                   (QueryStats.EventsScanned s)))
             (option_map
                (fun n =>
                   "  Bytes scanned:  " ++ LakeStatus.toFixed2_1024 host n ++ " KB")
                (QueryStats.BytesScanned s)))
          (option_map (fun n => "  Execution time: " ++ showZ n ++ " ms")
             (QueryStats.ExecutionTimeInMillis s))
    | None => lines
    end in
  let lines :=
    if truthy errorMessage
    then push (push lines "") ("Error: " ++ orElse errorMessage "")
    else lines in
  if truthy deliveryS3Uri
  then
    push
      (push (push lines "") ("Delivery S3 URI: " ++ orElse deliveryS3Uri ""))
      ("Delivery status: " ++
       orElse (DescribeQueryOutput.DeliveryStatus response) "Unknown")
  else lines.

(** The world of the store handler with other requests on record. *)
Definition withRequests (sw : LakeStores.StoreWorld)
    (reqs : list LakeStores.request) : LakeStores.StoreWorld :=
  {| LakeStores.world := LakeStores.world sw;
     LakeStores.stores := LakeStores.stores sw;
     LakeStores.requests := reqs |}.

(** The ARNs of the stores that have one, in order. *)
Definition arnsOf (storeList : list LakeStores.EventDataStore.t) : list string :=
  flat_map
    (fun store =>
       if truthy (LakeStores.EventDataStore.EventDataStoreArn store)
       then [orElse (LakeStores.EventDataStore.EventDataStoreArn store) ""]
       else [])
    storeList.

Definition detailRequests (client : Client.t)
    (storeList : list LakeStores.EventDataStore.t) : list LakeStores.request :=
  map (fun arn => (client, LakeStores.GetEventDataStoreCommand arn))
    (arnsOf storeList).

(** A store whose creation time, if it has one, can be shown. *)
Definition datable (store : LakeStores.EventDataStore.t) : Prop :=
  LakeStores.EventDataStore.CreatedTimestamp store <> Some InvalidDate.

(** A service that rejects every request for the details of a store. *)
Definition rejectsDetails (s : LakeStores.StoreService) : Prop :=
  forall history client arn,
    exists e, LakeStores.onGetEventDataStore s history client arn = inl e.

(** The first lines of the list of stores. *)
Definition storeHeader (region : string) (count : nat) : list string :=
  [ "CloudTrail Lake Event Data Stores (region: " ++ region ++ ")";
    "Found: " ++ showZ (Z.of_nat count) ++ " store(s)";
    "" ].

(** The region of the store handler: the argument, else the configured
    one, else the environment's, else the default. *)
Definition storeRegion (config : CloudTrailConfig.t)
    (args : LakeStores.ListEventDataStoresArgs.t)
    (sw : LakeStores.StoreWorld) : string :=
  orElse
    (orElseOpt (LakeStores.ListEventDataStoresArgs.region args)
       (orElseOpt (CloudTrailConfig.region config)
          (env (LakeStores.world sw) "AWS_DEFAULT_REGION")))
    "us-east-1".

(** The request for the list of stores. *)
Definition listRequest (client : Client.t) : LakeStores.request :=
  (client, LakeStores.ListEventDataStoresCommand).

(** A text without any decimal digit. *)
Definition noDigit (s : string) : bool := allb (fun c => negb (isDigit c)) s.

(** A count exceeds a limit: never [NaN] or the infinity, always the
    negative infinity. *)
Definition exceeds (count : Z) (limit : number) : Prop :=
  match limit with
  | Num l => l < count
  | Fraction n d => n < count * Z.pos d
  | NegInfinity => True
  | Infinity => False
  | NaN => False
  end.

(** The events of one run of the tokenizer. *)
Definition tokenizing : list event := [EvEncoderNew "gpt-4"; EvEncoderFree].

(** The number of tokens of a text. *)
Definition tokenCount (ids : list nat) : Z := Z.of_nat (List.length ids).

(** The one item of the result of a tool. *)
Definition textItem (text : string) : EventsTools.ToolResult :=
  {| EventsTools.content :=
       [ {| EventsTools.type := "text"; EventsTools.text := text |} ] |}.

Module SampleStores.

(** Two stores, the second without an ARN, behind a service that lists
    them and rejects every request for details. *)
Definition twoStores : list LakeStores.EventDataStore.t :=
  [ LakeStores.EventDataStore.mk (Some "arn:aws:cloudtrail:eu-west-1:1:eventdatastore/a")
      (Some "audit") (Some "ENABLED") (Some 90) (Some (ValidDate 1700000000000));
    LakeStores.EventDataStore.mk None (Some "scratch") None None None ].

Definition storeService : LakeStores.StoreService := {|
  LakeStores.onListEventDataStores := fun _ _ =>
    inr (LakeStores.ListEventDataStoresOutput.mk (Some twoStores));
  LakeStores.onGetEventDataStore := fun _ _ _ =>
    inl (ServiceException "AccessDeniedException" "not authorized");
|}.

Definition storeWorld : LakeStores.StoreWorld := {|
  LakeStores.world := Sample.world Sample.failing [];
  LakeStores.stores := storeService;
  LakeStores.requests := [];
|}.

(** The list without details, and with the default. *)
Definition quietArgs : LakeStores.ListEventDataStoresArgs.t :=
  LakeStores.ListEventDataStoresArgs.mk (Some false) None.

Definition defaultArgs : LakeStores.ListEventDataStoresArgs.t :=
  LakeStores.ListEventDataStoresArgs.mk None None.

(** A store whose creation time is the invalid date, behind a service
    that lists it. *)
Definition undated : list LakeStores.EventDataStore.t :=
  [ LakeStores.EventDataStore.mk None (Some "broken") None None
      (Some InvalidDate) ].

Definition undatedWorld : LakeStores.StoreWorld := {|
  LakeStores.world := Sample.world Sample.failing [];
  LakeStores.stores := {|
    LakeStores.onListEventDataStores := fun _ _ =>
      inr (LakeStores.ListEventDataStoresOutput.mk (Some undated));
    LakeStores.onGetEventDataStore := fun _ _ _ =>
      inl (ServiceException "AccessDeniedException" "not authorized");
  |};
  LakeStores.requests := [];
|}.

End SampleStores.

Module SampleTools.

(** A world whose environment sets the token ceiling to a word. *)
Definition unlimited : World := {|
  env := fun name =>
    if (name =? "MAX_TOKEN_CALL")%string then Some "unlimited" else None;
  clock := fun tr => 1700000000000 + Z.of_nat (List.length tr);
  cloudtrail := Sample.finishing;
  trace := [];
|}.

(** A query without its statement. *)
Definition noSql : LakeTools.LakeQueryRaw.t :=
  LakeTools.LakeQueryRaw.mk EventsTools.JUndefined EventsTools.JUndefined
    EventsTools.JUndefined EventsTools.JUndefined.

(** A request for a page of 25 rows, and one for a page of 500. *)
Definition page (size : Z) : LakeTools.GetQueryResultsRaw.t :=
  LakeTools.GetQueryResultsRaw.mk (EventsTools.JString "q-0001")
    (EventsTools.JNumber size) EventsTools.JUndefined EventsTools.JUndefined
    EventsTools.JUndefined.

(** A service that answers every lookup with one event and the token of
    a second page. *)
Definition login : Event.t :=
  Event.mk (Some "e-1") (Some "ConsoleLogin") (Some "false") None
    (Some (ValidDate 1699999000000)) (Some "signin.amazonaws.com")
    (Some "alice") None None.

Definition paging : Service := {|
  onLookupEvents := fun _ _ _ =>
    inr (LookupEventsOutput.mk (Some [login]) (Some "page-2"));
  onStartQuery := onStartQuery Sample.finishing;
  onDescribeQuery := onDescribeQuery Sample.finishing;
  onGetQueryResults := onGetQueryResults Sample.finishing;
  firstRejectedFirst := fun _ => true;
|}.

(** A configuration with an empty key, in a world whose environment has
    a key and a secret. *)
Definition emptyKey : CloudTrailConfig.t :=
  CloudTrailConfig.mk (Some "") None None None None.

Definition withKeys : World := {|
  env := fun name =>
    if (name =? "AWS_ACCESS_KEY_ID")%string then Some "AKIAEXAMPLE"
    else if (name =? "AWS_SECRET_ACCESS_KEY")%string then Some "secret"
    else None;
  clock := fun tr => 1700000000000 + Z.of_nat (List.length tr);
  cloudtrail := Sample.finishing;
  trace := [];
|}.

End SampleTools.

(* ===================================================================== *)
(** * Facts about strings *)
(* ===================================================================== *)

Lemma append_assoc_s (a b c : string) : (a ++ b) ++ c = a ++ (b ++ c).
Proof. induction a as [|x a IH]; simpl; [reflexivity | now rewrite IH]. Qed.

Lemma append_empty_r (a : string) : a ++ "" = a.
Proof. induction a as [|x a IH]; simpl; [reflexivity | now rewrite IH]. Qed.

Lemma includes_refl (s : string) : includes s s.
Proof. exists "", "". simpl. now rewrite append_empty_r. Qed.

Lemma includes_empty (s : string) : includes "" s.
Proof. exists "", s. reflexivity. Qed.

Lemma includes_app_r (x a b : string) : includes x b -> includes x (a ++ b).
Proof.
  intros (pre & post & ->). exists (a ++ pre), post.
  now rewrite append_assoc_s.
Qed.

Lemma includes_app_l (x a b : string) : includes x a -> includes x (a ++ b).
Proof.
  intros (pre & post & ->). exists pre, (post ++ b).
  now rewrite !append_assoc_s.
Qed.

Lemma includes_trans (x y z : string) :
  includes x y -> includes y z -> includes x z.
Proof.
  intros Hxy (pre & post & ->).
  apply includes_app_r, includes_app_l, Hxy.
Qed.

Lemma stripPrefix_sound (w s r : string) :
  stripPrefix w s = Some r -> s = w ++ r.
Proof.
  revert s; induction w as [|a w IH]; intros s; simpl.
  - now intros [= ->].
  - destruct s as [|b s]; [discriminate|].
    destruct (Ascii.eqb_spec a b) as [->|]; [|discriminate].
    intros H. now rewrite (IH _ H).
Qed.

Lemma includesb_sound (needle hay : string) :
  includesb needle hay = true -> includes needle hay.
Proof.
  induction hay as [|c hay IH]; simpl.
  - destruct (stripPrefix needle "") as [r|] eqn:E; [|discriminate].
    intros _. apply stripPrefix_sound in E. exists "", r. exact E.
  - destruct (stripPrefix needle (String c hay)) as [r|] eqn:E.
    + intros _. apply stripPrefix_sound in E. exists "", r. exact E.
    + intros H. apply (includes_app_r _ (String c "") hay). now apply IH.
Qed.

Lemma includes_join (x sep : string) (lines : list string) :
  In x lines -> includes x (join sep lines).
Proof.
  unfold join. induction lines as [|l rest IH]; [intros []|].
  intros [->|Hin]; simpl.
  - destruct rest; [apply includes_refl | apply includes_app_l, includes_refl].
  - destruct rest as [|l' rest']; [destruct Hin|].
    apply includes_app_r, includes_app_r. now apply IH.
Qed.

(** Occurrence of a piece in a concatenation written out in the goal. *)
Ltac occurs :=
  solve
    [ apply includes_refl
    | apply includes_app_l; apply includes_refl
    | apply includesb_sound; vm_compute; reflexivity
    | apply includes_app_r; occurs ].

(* ===================================================================== *)
(** * The token budgeter *)
(* ===================================================================== *)

Section TokenBudget.
Variable host : Host.
Import TokenLimiter.

(** C3 (amended).  With the bypass off, [checkTokenLimit] runs the
    tokenizer on the text, acquiring and freeing the encoder once.  On a
    text that the tokenizer encodes it returns the measured count; it
    refuses exactly when the count exceeds the limit (never for the
    limit [NaN]), and then its message states the count, the limit and
    the remediation hints: reduce the page size, narrow the time range,
    add more specific filters, set the bypass flag; otherwise it allows,
    without a message.  On a text that the tokenizer refuses, the error
    of the tokenizer leaves the function. *)
Theorem checkTokenLimit_enforced (text : string) (maxTokens : number) (w : World) :
  match tiktoken_encode host "gpt-4" text with
  | inr ids =>
      let measured := tokenCount ids in
      exists r,
        checkTokenLimit host (VString text) maxTokens false w
          = (Return r, emits tokenizing w) /\
        tokens r = measured /\
        (allowed r = false <-> exceeds measured maxTokens) /\
        (allowed r = false ->
           exists msg,
             error r = Some msg /\
             includes (showZ measured) msg /\
             includes (showNumber host maxTokens) msg /\
             includes "reduce maxResults" msg /\
             includes "narrow the time range" msg /\
             includes "add more specific filters" msg /\
             includes "set break_token_rule: true to bypass this check" msg) /\
        (allowed r = true -> error r = None)
  | inl e =>
      checkTokenLimit host (VString text) maxTokens false w
        = (Throw e, emits tokenizing w)
  end.
Proof.
  unfold checkTokenLimit, calculateTokens, bind, ret, tokenizing.
  destruct (tiktoken_encode host "gpt-4" text) as [e|ids];
    cbv beta iota; [reflexivity|].
  fold (tokenCount ids). generalize (tokenCount ids). intros measured.
  assert (Hgt : gt (Num measured) maxTokens = true <-> exceeds measured maxTokens).
  { destruct maxTokens as [limit|n d| | |]; cbn [gt exceeds].
    - apply Z.ltb_lt.
    - apply Z.ltb_lt.
    - split; [discriminate | contradiction].
    - split; auto.
    - split; [discriminate | contradiction]. }
  destruct (gt (Num measured) maxTokens) eqn:G.
  - eexists. split; [reflexivity|]. cbn [tokens allowed error].
    split; [reflexivity|]. split; [|split].
    + split; [intros _; now apply Hgt | reflexivity].
    + intros _. eexists. split; [reflexivity|]. unfold tokenLimitExceeded.
      generalize (showNumber host maxTokens) (showZ measured).
      intros limitShown countShown.
      repeat split; occurs.
    + discriminate.
  - eexists. split; [reflexivity|]. cbn [tokens allowed error].
    split; [reflexivity|]. split; [|split].
    + split; [discriminate|]. intros H. apply Hgt in H. discriminate.
    + discriminate.
    + reflexivity.
Qed.

(** C4.  With the bypass on, [checkTokenLimit] answers allowed with a
    count of 0 whatever the text and the limit are, and the world is left
    as it was: the tokenizer is neither acquired nor run. *)
Theorem checkTokenLimit_bypass (result : unknown) (maxTokens : number) (w : World) :
  checkTokenLimit host result maxTokens true w
    = (Return {| allowed := true; tokens := 0; error := None |}, w).
Proof. reflexivity. Qed.

End TokenBudget.

(** C3, as stated for every text, fails: the encoder refuses a text that
    spells a special token, and [checkTokenLimit], which has no handler
    around the tokenizer, then returns no result at all, neither allowed
    nor refused: the error of the encoder leaves it, once the encoder has
    been freed. *)
Lemma checkTokenLimit_special_token :
  let w := Sample.world Sample.finishing [] in
  let text := "user <|endoftext|> signed in" in
  tiktoken_encode Sample.host "gpt-4" text
    = inl (Error "The text contains a special token that is not allowed: <|endoftext|>") /\
  TokenLimiter.checkTokenLimit Sample.host (TokenLimiter.VString text) (Num 20000) false w
    = (Throw (Error "The text contains a special token that is not allowed: <|endoftext|>"),
       emits tokenizing w) /\
  forall r w',
    TokenLimiter.checkTokenLimit Sample.host (TokenLimiter.VString text) (Num 20000) false w
      <> (Return r, w').
Proof.
  intros w text.
  assert (Hthrows :
    TokenLimiter.checkTokenLimit Sample.host (TokenLimiter.VString text) (Num 20000) false w
    = (Throw (Error "The text contains a special token that is not allowed: <|endoftext|>"),
       emits tokenizing w)) by reflexivity.
  split; [reflexivity|]. split; [exact Hthrows|].
  intros r w'. rewrite Hthrows. intros H. discriminate H.
Qed.

(* ===================================================================== *)
(** * The time parser *)
(* ===================================================================== *)

(** ** Decimal digits *)

Lemma digit_ascii (c : ascii) : isDigit c = true -> isAscii c = true.
Proof.
  destruct c as [[] [] [] [] [] [] [] []]; vm_compute; congruence.
Qed.

Lemma digit_not_space (c : ascii) : isDigit c = true -> space1 c = false.
Proof.
  destruct c as [[] [] [] [] [] [] [] []]; vm_compute; congruence.
Qed.

Lemma digit_lower (c : ascii) : isDigit c = true -> lowerChar c = c.
Proof.
  destruct c as [[] [] [] [] [] [] [] []]; vm_compute; congruence.
Qed.

Lemma digit_not_n (c : ascii) : isDigit c = true -> Ascii.eqb c "n" = false.
Proof.
  destruct c as [[] [] [] [] [] [] [] []]; vm_compute; congruence.
Qed.

Lemma digits_of_uint (d : Decimal.uint) :
  allb isDigit (NilEmpty.string_of_uint d) = true.
Proof. induction d; simpl; auto. Qed.

Lemma parseDigits_cons (c : ascii) (s : string) (acc : Z) :
  parseDigits (String c s) acc = parseDigits s (10 * acc + digitVal c).
Proof. reflexivity. Qed.

Lemma parseDigits_of_uint (d : Decimal.uint) (acc : Z) :
  parseDigits (NilEmpty.string_of_uint d) acc
  = Z.of_N (DecimalPos.Unsigned.of_lu (Decimal.rev d))
    + acc * 10 ^ Z.of_N (DecimalPos.Unsigned.usize d).
Proof.
  revert acc.
  induction d; intros acc; simpl DecimalPos.Unsigned.usize;
    [ simpl; lia | .. ];
    rewrite N2Z.inj_succ, Z.pow_succ_r by apply N2Z.is_nonneg;
    unfold Decimal.rev; simpl Decimal.revapp;
    rewrite DecimalPos.Unsigned.of_lu_revapp;
    simpl NilEmpty.string_of_uint; rewrite parseDigits_cons;
    rewrite IHd; unfold Decimal.rev;
    rewrite N2Z.inj_add, N2Z.inj_mul, N2Z.inj_pow;
    match goal with
    | |- context [digitVal ?c] =>
        let v := eval vm_compute in (digitVal c) in
        change (digitVal c) with v
    end;
    simpl DecimalPos.Unsigned.of_lu;
    change (Z.of_N 10) with 10;
    repeat match goal with
           | |- context [Z.of_N (N.pos ?p)] =>
               change (Z.of_N (N.pos p)) with (Z.pos p)
           end;
    change (Z.of_N 0) with 0; ring.
Qed.

Lemma showN_cons (n : N) :
  exists c s, showN n = String c s /\ isDigit c = true /\ allb isDigit s = true.
Proof.
  unfold showN, NilZero.string_of_uint.
  destruct (N.to_uint n) as [|d|d|d|d|d|d|d|d|d|d] eqn:E;
    simpl; eexists _, _; (split; [reflexivity|]); split;
    solve [reflexivity | apply digits_of_uint].
Qed.

Lemma showN_digits (n : N) : allb isDigit (showN n) = true.
Proof.
  destruct (showN_cons n) as (c & s & -> & Hc & Hs). simpl. now rewrite Hc, Hs.
Qed.

Lemma parseInt10_showN (n : N) : parseInt10 (showN n) = Z.of_N n.
Proof.
  unfold parseInt10, showN, NilZero.string_of_uint.
  rewrite <- (DecimalN.Unsigned.of_to n) at 2.
  unfold N.of_uint. rewrite DecimalPos.Unsigned.of_uint_alt.
  destruct (N.to_uint n) eqn:E;
    [ reflexivity | rewrite parseDigits_of_uint; lia .. ].
Qed.

(** ** White space is not ASCII beyond its six characters *)

Lemma space2_ascii_l (a b : ascii) : isAscii a = true -> space2 a b = false.
Proof.
  unfold isAscii, space2. intros H. apply Nat.ltb_lt in H.
  destruct (nat_of_ascii a =? 194)%nat eqn:E; [|reflexivity].
  apply Nat.eqb_eq in E. lia.
Qed.

Lemma space2_ascii_r (a b : ascii) : isAscii b = true -> space2 a b = false.
Proof.
  unfold isAscii, space2. intros H. apply Nat.ltb_lt in H.
  destruct (nat_of_ascii b =? 160)%nat eqn:E; [|apply andb_false_r].
  apply Nat.eqb_eq in E. lia.
Qed.

Lemma space3_ascii_l (a b c : ascii) : isAscii a = true -> space3 a b c = false.
Proof.
  unfold isAscii, space3. intros H. apply Nat.ltb_lt in H. cbv zeta.
  destruct (nat_of_ascii a =? 225)%nat eqn:E1; [apply Nat.eqb_eq in E1; lia|].
  destruct (nat_of_ascii a =? 226)%nat eqn:E2; [apply Nat.eqb_eq in E2; lia|].
  destruct (nat_of_ascii a =? 227)%nat eqn:E3; [apply Nat.eqb_eq in E3; lia|].
  destruct (nat_of_ascii a =? 239)%nat eqn:E4; [apply Nat.eqb_eq in E4; lia|].
  reflexivity.
Qed.

Lemma space3_ascii_r (a b c : ascii) : isAscii c = true -> space3 a b c = false.
Proof.
  unfold isAscii, space3. intros H. apply Nat.ltb_lt in H. cbv zeta.
  destruct (nat_of_ascii c =? 128)%nat eqn:E1; [apply Nat.eqb_eq in E1; lia|].
  destruct (128 <=? nat_of_ascii c)%nat eqn:E2; [apply Nat.leb_le in E2; lia|].
  destruct (nat_of_ascii c =? 168)%nat eqn:E3; [apply Nat.eqb_eq in E3; lia|].
  destruct (nat_of_ascii c =? 169)%nat eqn:E4; [apply Nat.eqb_eq in E4; lia|].
  destruct (nat_of_ascii c =? 175)%nat eqn:E5; [apply Nat.eqb_eq in E5; lia|].
  destruct (nat_of_ascii c =? 159)%nat eqn:E6; [apply Nat.eqb_eq in E6; lia|].
  destruct (nat_of_ascii c =? 191)%nat eqn:E7; [apply Nat.eqb_eq in E7; lia|].
  cbn [andb orb]. now rewrite !andb_false_r.
Qed.

(** A string that starts with an ASCII character other than white space
    has no leading white space. *)
Lemma trimStart_keep (a : ascii) (r : string) :
  isAscii a = true -> space1 a = false ->
  trimStart (String a r) = String a r.
Proof.
  intros Ha Hs. cbn [trimStart]. rewrite Hs.
  destruct r as [|b [|c r]]; [reflexivity | |].
  - now rewrite (space2_ascii_l a b Ha).
  - now rewrite (space2_ascii_l a b Ha), (space3_ascii_l a b c Ha).
Qed.

(** A string that ends with an ASCII character other than white space is
    not white space altogether. *)
Lemma trimStart_last (z : ascii) :
  isAscii z = true -> space1 z = false ->
  forall (n : nat) (s : string),
    (String.length s <= n)%nat -> trimStart (s ++ String z "") <> "".
Proof.
  intros Hz Hs. induction n as [|n IH]; intros s Hlen.
  - destruct s; [|cbn in Hlen; lia]. cbn [append].
    rewrite (trimStart_keep z "" Hz Hs). discriminate.
  - destruct s as [|a r1]; cbn [append].
    { rewrite (trimStart_keep z "" Hz Hs). discriminate. }
    cbn [String.length] in Hlen. cbn [trimStart].
    destruct (space1 a); [apply IH; lia|].
    destruct r1 as [|b r2]; cbn [append].
    { rewrite (space2_ascii_r a z Hz). discriminate. }
    cbn [String.length] in Hlen.
    destruct (space2 a b); [apply IH; lia|].
    destruct r2 as [|c r3]; cbn [append].
    { rewrite (space3_ascii_r a b z Hz). discriminate. }
    cbn [String.length] in Hlen.
    destruct (space3 a b c); [apply IH; lia | discriminate].
Qed.

Lemma trimEnd_last (z : ascii) (s : string) :
  isAscii z = true -> space1 z = false ->
  trimEnd (s ++ String z "") = s ++ String z "".
Proof.
  intros Hz Hs. induction s as [|c s IH].
  - cbn [append trimEnd]. now rewrite (trimStart_keep z "" Hz Hs).
  - change (String c s ++ String z "") with (String c (s ++ String z "")).
    cbn [trimEnd].
    destruct (trimStart (String c (s ++ String z "")) =? "")%string eqn:E.
    + apply String.eqb_eq in E.
      now apply (trimStart_last z Hz Hs (S (String.length s)) (String c s)) in E.
    + now rewrite IH.
Qed.

(** ** Trimming, lowering and scanning around a run of digits *)

Lemma allb_app (p : ascii -> bool) (a b : string) :
  allb p (a ++ b) = allb p a && allb p b.
Proof.
  induction a as [|c a IH]; cbn [append allb]; [reflexivity|].
  now rewrite IH, andb_assoc.
Qed.

Lemma digits_ascii (s : string) : allb isDigit s = true -> allb isAscii s = true.
Proof.
  induction s as [|c s IH]; cbn [allb]; [reflexivity|].
  intros H. apply andb_prop in H as [Hc Hs].
  now rewrite (digit_ascii c Hc), (IH Hs).
Qed.

Lemma lowerAscii_app (a b : string) :
  lowerAscii (a ++ b) = lowerAscii a ++ lowerAscii b.
Proof. induction a as [|c a IH]; simpl; [reflexivity | now rewrite IH]. Qed.

Lemma lowerAscii_digits (s : string) :
  allb isDigit s = true -> lowerAscii s = s.
Proof.
  induction s as [|c s IH]; simpl; [reflexivity|].
  intros H. apply andb_prop in H as [Hc Hs].
  now rewrite (digit_lower _ Hc), (IH Hs).
Qed.

Lemma span_app (p : ascii -> bool) (a : string) (c : ascii) (b : string) :
  allb p a = true -> p c = false ->
  span p (a ++ String c b) = (a, String c b).
Proof.
  intros Ha Hc. induction a as [|x a IH]; simpl.
  - now rewrite Hc.
  - simpl in Ha. apply andb_prop in Ha as [Hx Ha].
    now rewrite Hx, (IH Ha).
Qed.

Lemma relativeInput_ascii (n : N) (u : timeUnit) (plural : bool) :
  allb isAscii (relativeInput n u plural) = true.
Proof.
  change (relativeInput n u plural) with (showN n ++ ending u plural).
  rewrite allb_app, (digits_ascii _ (showN_digits n)).
  destruct u, plural; reflexivity.
Qed.

Section NormalForm.
Variable host : Host.

Lemma relativeInput_normal (n : N) (u : timeUnit) (plural : bool) :
  toLowerCase host (trim (relativeInput n u plural)) = relativeInput n u plural.
Proof.
  assert (Htrim : trim (relativeInput n u plural) = relativeInput n u plural).
  { unfold trim.
    assert (Hstart : trimStart (relativeInput n u plural)
                     = relativeInput n u plural).
    { change (relativeInput n u plural) with (showN n ++ ending u plural).
      destruct (showN_cons n) as (c & s & -> & Hc & _).
      apply trimStart_keep; [now apply digit_ascii | now apply digit_not_space]. }
    rewrite Hstart.
    replace (relativeInput n u plural)
      with ((showN n ++ " " ++ unitWord u ++ (if plural then "s" else "")
             ++ " ag") ++ "o")
      by (unfold relativeInput; rewrite !append_assoc_s;
          destruct u, plural; reflexivity).
    apply trimEnd_last; reflexivity. }
  rewrite Htrim. unfold toLowerCase. rewrite relativeInput_ascii.
  change (relativeInput n u plural) with (showN n ++ ending u plural).
  rewrite lowerAscii_app, (lowerAscii_digits _ (showN_digits n)).
  f_equal. destruct u, plural; reflexivity.
Qed.

End NormalForm.

Lemma relativeInput_not_now (n : N) (u : timeUnit) (plural : bool) :
  (relativeInput n u plural =? "now")%string = false.
Proof.
  change (relativeInput n u plural) with (showN n ++ ending u plural).
  destruct (showN_cons n) as (c & s & -> & Hc & _). simpl.
  now rewrite (digit_not_n _ Hc).
Qed.

Lemma relativeMatch_relativeInput (n : N) (u : timeUnit) (plural : bool) :
  Cloudtrail.relativeMatch (relativeInput n u plural)
  = Some (showN n, unitWord u).
Proof.
  change (relativeInput n u plural) with (showN n ++ ending u plural).
  unfold Cloudtrail.relativeMatch.
  assert (Hsp : span isDigit (showN n ++ ending u plural)
                = (showN n, ending u plural)).
  { unfold ending. simpl (" " ++ _). apply span_app;
      [apply showN_digits | reflexivity]. }
  rewrite Hsp.
  assert (Hne : (showN n =? "")%string = false).
  { destruct (showN_cons n) as (c & s & -> & _). reflexivity. }
  rewrite Hne. destruct u, plural; reflexivity.
Qed.

Lemma ms_unitDuration (u : timeUnit) :
  lookup (unitWord u) Cloudtrail.ms = Some (unitDuration u).
Proof. destruct u; reflexivity. Qed.

Section TimeParser.
Variable host : Host.
Import Cloudtrail.

(** What the parser does on a relative form, whatever the range. *)
Lemma parseTimeInput_relativeInput (n : N) (u : timeUnit) (plural : bool)
    (w : World) :
  parseTimeInput host (relativeInput n u plural) w
  = (Return (Date_of_number
               (Some (clock w (trace w) - Z.of_N n * unitDuration u))),
     emit EvNow w).
Proof.
  unfold parseTimeInput.
  rewrite relativeInput_normal, relativeInput_not_now,
    relativeMatch_relativeInput, parseInt10_showN, ms_unitDuration.
  reflexivity.
Qed.

(** C6 (amended).  For every natural number [n] written in decimal digits
    and every unit, singular or plural, the parser applied to
    ["<n> <unit> ago"] reads the clock once and returns the clock reading
    minus [n] times the unit's duration whenever that instant is within the
    range of [Date]; beyond the range it returns the invalid date. *)
Theorem parseTimeInput_relative (n : N) (u : timeUnit) (plural : bool)
    (w : World) :
  let t := clock w (trace w) - Z.of_N n * unitDuration u in
  parseTimeInput host (relativeInput n u plural) w
  = (Return (if Z.abs t <=? maxTimeValue then ValidDate t else InvalidDate),
     emit EvNow w).
Proof. intros t. apply parseTimeInput_relativeInput. Qed.

(** The parser acts on the world by at most one reading of the clock, and
    what it returns depends on the world through that reading only. *)
Lemma parseTimeInput_reading (input : string) :
  exists (f : Z -> outcome Date) (evs : list event),
    (evs = [] \/ evs = [EvNow]) /\
    forall w, parseTimeInput host input w = (f (clock w (trace w)), emits evs w).
Proof.
  unfold parseTimeInput.
  destruct (toLowerCase host (trim input) =? "now")%string.
  - exists (fun t => Return (ValidDate t)), [EvNow]. split; [now right|].
    reflexivity.
  - destruct (relativeMatch (toLowerCase host (trim input))) as [[digits unit]|].
    + exists (fun t => Return (Date_of_number
                (nsub (Some t) (nmul (Some (parseInt10 digits)) (lookup unit ms))))),
        [EvNow].
      split; [now right|]. reflexivity.
    + destruct (getTime (Date_parse host input)) eqn:E.
      * exists (fun _ => Return (Date_parse host input)), [].
        split; [now left|]. reflexivity.
      * exists (fun _ => Throw (Error (invalidTimeFormat input))), [].
        split; [now left|]. reflexivity.
Qed.

(** C7 (amended).  The parser takes the current time from the clock of
    the world, not from an argument.  Given the reading of the clock it is
    deterministic: in two worlds whose clocks show the same time it returns
    the same result for the same input, and its only effect in either is
    the same reading of the clock, made at most once. *)
Theorem parseTimeInput_deterministic (input : string) (w1 w2 : World) :
  clock w1 (trace w1) = clock w2 (trace w2) ->
  fst (parseTimeInput host input w1) = fst (parseTimeInput host input w2) /\
  exists evs,
    (evs = [] \/ evs = [EvNow]) /\
    snd (parseTimeInput host input w1) = emits evs w1 /\
    snd (parseTimeInput host input w2) = emits evs w2.
Proof.
  intros Hclock.
  destruct (parseTimeInput_reading input) as (f & evs & Hevs & H).
  rewrite (H w1), (H w2). simpl. rewrite Hclock. split; [reflexivity|].
  exists evs. auto.
Qed.

(** An input that is not [now] once trimmed and lowered, that is not a
    relative form and that the host cannot parse as a date makes the parser
    throw an error whose message quotes the input as given and names the
    ISO and the relative forms; the world is left as it was. *)
Lemma parseTimeInput_invalid (input : string) (w : World) :
  toLowerCase host (trim input) <> "now" ->
  relativeMatch (toLowerCase host (trim input)) = None ->
  Date_parse host input = InvalidDate ->
  parseTimeInput host input w = (Throw (Error (invalidTimeFormat input)), w) /\
  includes ("Invalid time format: " ++ dquote ++ input ++ dquote)
    (invalidTimeFormat input) /\
  includes "Use ISO format (e.g. " (invalidTimeFormat input) /\
  includes "or relative (e.g. " (invalidTimeFormat input).
Proof.
  intros Hnow Hrel Hdate. split.
  - unfold parseTimeInput.
    apply String.eqb_neq in Hnow. rewrite Hnow, Hrel, Hdate. reflexivity.
  - unfold invalidTimeFormat. repeat split.
    + exists "", (". Use ISO format (e.g. " ++ dquote ++ "2025-01-01T00:00:00Z" ++
                  dquote ++ ") or relative (e.g. " ++ dquote ++ "1 day ago" ++
                  dquote ++ ", " ++ dquote ++ "2 hours ago" ++ dquote ++ ").").
      simpl. now rewrite !append_assoc_s.
    + do 4 apply includes_app_r. occurs.
    + do 8 apply includes_app_r. occurs.
Qed.

End TimeParser.

(** C6, as stated, fails: 400000000 months before the clock reading is
    outside the range of [Date], and the parser returns the invalid date,
    not that instant. *)
Lemma parseTimeInput_relative_overflow :
  let w := Sample.world Sample.failing [] in
  relativeInput 400000000 Month true = "400000000 months ago" /\
  fst (Cloudtrail.parseTimeInput Sample.host "400000000 months ago" w)
    = Return InvalidDate /\
  fst (Cloudtrail.parseTimeInput Sample.host "400000000 months ago" w)
    <> Return (ValidDate (clock w (trace w) - 400000000 * unitDuration Month)).
Proof.
  intros w. split; [reflexivity|]. split; [reflexivity|].
  vm_compute. discriminate.
Qed.

(** A negative amount is not a relative form: the pattern wants digits. *)
Example relativeMatch_negative :
  Cloudtrail.relativeMatch "-1 day ago" = None.
Proof. reflexivity. Qed.

(** White space is the class of the host's [\s] and [trim]: a no-break
    space (U+00A0, the bytes 194 160) separates the amount from the unit
    as well as a blank does. *)
Example relativeMatch_no_break_space :
  Cloudtrail.relativeMatch (bytes [49; 194; 160; 100; 97; 121; 32; 97; 103; 111]%nat)
  = Some ("1", "day").
Proof. reflexivity. Qed.

(** C7, as stated, fails: the current time is not a parameter of the
    parser but the clock it reads, so evaluating the same input twice in a
    row gives two different instants. *)
Lemma parseTimeInput_reads_clock :
  let w := Sample.world Sample.failing [] in
  let first := Cloudtrail.parseTimeInput Sample.host "now" w in
  let second := Cloudtrail.parseTimeInput Sample.host "now" (snd first) in
  fst first = Return (ValidDate 1700000000000) /\
  fst second = Return (ValidDate 1700000000001) /\
  fst first <> fst second.
Proof.
  intros w first second.
  split; [reflexivity|]. split; [reflexivity|].
  vm_compute. discriminate.
Qed.

Lemma parseTimeInput_deterministic_witness :
  let w1 := Sample.world Sample.failing [] in
  let w2 := Sample.world Sample.finishing [] in
  clock w1 (trace w1) = clock w2 (trace w2) /\
  fst (Cloudtrail.parseTimeInput Sample.host "2 hours ago" w1)
  = fst (Cloudtrail.parseTimeInput Sample.host "2 hours ago" w2).
Proof.
  intros w1 w2. split; [reflexivity|].
  apply (parseTimeInput_deterministic Sample.host "2 hours ago" w1 w2).
  reflexivity.
Defined.


(* ===================================================================== *)
(** * The Lake query lifecycle *)
(* ===================================================================== *)

Lemma emits_app (a b : list event) (w : World) :
  emits (a ++ b) w = emits b (emits a w).
Proof. unfold emits. apply fold_left_app. Qed.

(** Events leave the service as it is. *)
Lemma cloudtrail_emits (evs : list event) :
  forall w, cloudtrail (emits evs w) = cloudtrail w.
Proof.
  induction evs as [|ev evs IH]; intros w; [reflexivity|].
  cbn [emits fold_left]. exact (IH (emit ev w)).
Qed.

Lemma trace_emits (evs : list event) :
  forall w, trace (emits evs w) = (trace w ++ evs)%list.
Proof.
  induction evs as [|ev evs IH]; intros w.
  - cbn. now rewrite app_nil_r.
  - change (trace (emits evs (emit ev w)) = (trace w ++ ev :: evs)%list).
    rewrite IH. cbn [emit trace]. now rewrite <- app_assoc.
Qed.

Lemma createCloudTrailClient_pure (config : CloudTrailConfig.t)
    (region : string) (w : World) :
  exists client,
    Api.createCloudTrailClient config (Some region) w = (Return client, w) /\
    Client.region client = region.
Proof.
  unfold Api.createCloudTrailClient, bind, getenv, ret. cbv beta iota.
  destruct (truthy _ && truthy _); eexists; split; reflexivity.
Qed.

Section Polling.
Import Lake.
Variables (client : Client.t) (queryId : string).

(** The answers to come, seen from the world after one more round. *)
Lemma statusAnswer_round (w : World) (i : nat) :
  statusAnswer (emit (EvSleep POLL_INTERVAL_MS) (emit (describeEvent client queryId) w))
    client queryId i
  = statusAnswer w client queryId (S i).
Proof.
  unfold statusAnswer. cbn [emit cloudtrail trace]. f_equal.
  unfold pollRounds. cbn [repeat List.concat].
  unfold pollRound at 2. cbn [app]. rewrite <- !app_assoc. reflexivity.
Qed.

(** The loop, entered with exactly [k] rounds of budget left.  Every
    full round it runs has asked for the status and got an answer that
    is not terminal.  It ends in one of three ways: the budget is used
    up after [k] rounds, and the result is what the last answer said (or
    what the loop was entered with, if there was no round); the status
    query after [rounds < k] rounds is answered with a terminal status,
    which is the result; or that query is rejected, and the rejection
    is thrown. *)
Lemma pollForCompletion_trace (k : nat) :
  forall (queryStatus : string) (finalErrorMessage : option string)
         (w : World),
    exists (rounds : nat) (last : list event) polled,
      pollForCompletion client queryId
        (MAX_POLL_SECONDS * 1000 - POLL_INTERVAL_MS * Z.of_nat k)
        queryStatus finalErrorMessage w
        = (polled, emits (pollRounds client queryId rounds ++ last) w) /\
      (forall i, (i < rounds)%nat ->
         exists response,
           statusAnswer w client queryId i = inr response /\
           isTerminal (statusOf response) = false) /\
      ( (rounds = k /\ last = [] /\
         match k with
         | O => polled = Return (queryStatus, finalErrorMessage)
         | S j =>
             exists response,
               statusAnswer w client queryId j = inr response /\
               polled = Return (statusOf response,
                                DescribeQueryOutput.ErrorMessage response)
         end)
        \/
        ((rounds < k)%nat /\ last = [describeEvent client queryId] /\
         exists response,
           statusAnswer w client queryId rounds = inr response /\
           isTerminal (statusOf response) = true /\
           polled = Return (statusOf response,
                            DescribeQueryOutput.ErrorMessage response))
        \/
        ((rounds < k)%nat /\ last = [describeEvent client queryId] /\
         exists e,
           statusAnswer w client queryId rounds = inl e /\
           polled = Throw e) ).
Proof.
  induction k as [|k IH]; intros qs fe w.
  - exists O, [], (Return (qs, fe)). simp pollForCompletion.
    destruct (Z_lt_dec _ _) as [Hlt|Hge];
      [ exfalso; unfold MAX_POLL_SECONDS, POLL_INTERVAL_MS in *; lia | ].
    split; [reflexivity|]. split; [intros i Hi; inversion Hi|].
    left. repeat split.
  - simp pollForCompletion.
    destruct (Z_lt_dec _ _) as [Hlt|Hge];
      [ | exfalso; unfold MAX_POLL_SECONDS, POLL_INTERVAL_MS in *; lia ].
    unfold pollForCompletion_unfold_clause_1, bind, sendDescribeQuery, send.
    assert (Hfirst : statusAnswer w client queryId 0
                     = onDescribeQuery (cloudtrail w) (trace w) client
                         (DescribeQueryInput.mk queryId)).
    { unfold statusAnswer, pollRounds. cbn. now rewrite app_nil_r. }
    rewrite <- Hfirst.
    destruct (statusAnswer w client queryId 0) as [e|response] eqn:Hanswer.
    + exists O, [describeEvent client queryId], (Throw e).
      split; [reflexivity|]. split; [intros i Hi; inversion Hi|].
      right. right. split; [lia|]. split; [reflexivity|]. eauto.
    + fold (statusOf response).
      destruct (isTerminal (statusOf response)) eqn:Hterminal.
      * exists O, [describeEvent client queryId]. eexists.
        split; [reflexivity|]. split; [intros i Hi; inversion Hi|].
        right. left. split; [lia|]. split; [reflexivity|]. eauto.
      * unfold sleep.
        replace (MAX_POLL_SECONDS * 1000 - POLL_INTERVAL_MS * Z.of_nat (S k)
                 + POLL_INTERVAL_MS)
          with (MAX_POLL_SECONDS * 1000 - POLL_INTERVAL_MS * Z.of_nat k) by lia.
        set (w' := emit (EvSleep POLL_INTERVAL_MS)
                     (emit (EvSend client
                              (DescribeQueryCommand (DescribeQueryInput.mk queryId)))
                        w)).
        destruct (IH (statusOf response)
                    (DescribeQueryOutput.ErrorMessage response) w')
          as (rounds & last & polled & Hrun & Hnon & Hend).
        exists (S rounds), last, polled.
        split; [rewrite Hrun; reflexivity|].
        assert (Hshift : forall i,
                   statusAnswer w' client queryId i
                   = statusAnswer w client queryId (S i))
          by (intros i; apply statusAnswer_round).
        split.
        { intros [|i] Hi.
          - exists response. split; [exact Hanswer | exact Hterminal].
          - rewrite <- Hshift. apply Hnon. lia. }
        destruct Hend as [(-> & -> & Hlast)|[(Hlt' & -> & Hlast)|(Hlt' & -> & Hlast)]].
        -- left. split; [reflexivity|]. split; [reflexivity|].
           destruct k as [|j].
           ++ exists response. split; [exact Hanswer | exact Hlast].
           ++ rewrite <- Hshift. exact Hlast.
        -- right. left. split; [lia|]. split; [reflexivity|].
           rewrite <- Hshift. exact Hlast.
        -- right. right. split; [lia|]. split; [reflexivity|].
           rewrite <- Hshift. exact Hlast.
Qed.

End Polling.

Section LakeQuery.
Import Lake.

(** What [handleGetQueryResults] asks of the service: one page of at most
    the clamped [maxResults] rows, with the token if there is one, and
    the status of the query. *)
Lemma handleGetQueryResults_requests (config : CloudTrailConfig.t)
    (args : GetQueryResultsArgs.t) (w : World) :
  exists client result,
    Client.region client = regionOf config (GetQueryResultsArgs.region args) w /\
    handleGetQueryResults config args w
    = (result,
       emits
         [ EvSend client
             (GetQueryResultsCommand
                (GetQueryResultsInput.mk (GetQueryResultsArgs.queryId args)
                   (validateMaxResults (GetQueryResultsArgs.maxResults args) 50 50)
                   (if truthy (GetQueryResultsArgs.nextToken args)
                    then GetQueryResultsArgs.nextToken args else None)));
           describeEvent client (GetQueryResultsArgs.queryId args) ] w).
Proof.
  destruct (createCloudTrailClient_pure config
              (regionOf config (GetQueryResultsArgs.region args) w) w)
    as (client & Hclient & Hregion).
  exists client.
  unfold handleGetQueryResults, bind at 1 2, getenv.
  unfold regionOf in Hclient. rewrite Hclient.
  unfold bind, promiseAll2, sendGetQueryResults, sendDescribeQuery, send.
  destruct (onGetQueryResults _ _ _ _); destruct (onDescribeQuery _ _ _ _);
    eexists; (split; [exact Hregion | reflexivity]).
Qed.

(** The handler that waits for completion, step by step. *)
Lemma handleLakeQuery_waiting (config : CloudTrailConfig.t)
    (args : LakeQueryArgs.t) (w : World) (client : Client.t) :
  let region := regionOf config (LakeQueryArgs.region args) w in
  let start := startEvent client (LakeQueryArgs.sql args) in
  LakeQueryArgs.waitForCompletion args <> Some false ->
  Api.createCloudTrailClient config (Some region) w = (Return client, w) ->
  handleLakeQuery config args w
  = match onStartQuery (cloudtrail w) (trace w) client
            (StartQueryInput.mk (LakeQueryArgs.sql args)) with
    | inl e => (Throw e, emit start w)
    | inr started =>
        let queryId := StartQueryOutput.QueryId started in
        match pollForCompletion client queryId 0 "RUNNING" None (emit start w) with
        | (Throw e, w2) => (Throw e, w2)
        | (Return (status, err), w2) =>
            if (status =? "FINISHED")%string then
              handleGetQueryResults config
                (GetQueryResultsArgs.mk queryId (Some 50) None (Some region)) w2
            else
              (Return
                 (join nl
                    (pushIf
                       [ "Query completed with status: " ++ status ++
                           " (region: " ++ region ++ ")";
                         "Query ID: " ++ queryId ]
                       (if truthy err
                        then Some ("Error: " ++ orElse err "") else None))),
               w2)
        end
    end.
Proof.
  intros region start Hwait Hclient.
  assert (Hw : orElse (LakeQueryArgs.waitForCompletion args) true = true).
  { destruct (LakeQueryArgs.waitForCompletion args) as [[]|];
      [reflexivity | now contradiction Hwait | reflexivity]. }
  unfold regionOf in region.
  unfold handleLakeQuery, bind at 1 2, getenv.
  fold region. rewrite Hclient, Hw.
  unfold bind at 1, sendStartQuery, send.
  destruct (onStartQuery (cloudtrail w) (trace w) client
              (StartQueryInput.mk (LakeQueryArgs.sql args))) as [e|started];
    [reflexivity|].
  cbn [negb]. unfold bind. subst start. unfold startEvent.
  destruct (pollForCompletion client (StartQueryOutput.QueryId started) 0
              "RUNNING" None _) as [[[status err]|e] w2];
    [|reflexivity].
  destruct (status =? "FINISHED")%string; [reflexivity|].
  destruct (truthy err); reflexivity.
Qed.

(** C1.  When [handleLakeQuery] waits for completion and the query has
    been started, the polling loop does [rounds] full rounds, each a
    status query followed by a pause of exactly 2000 ms, then possibly
    one more status query, and nothing else.  Every full round has got a
    status that is not terminal.  [rounds] is at most 150, so the pauses
    add up to at most 300000 ms, and the loop ends in one of three ways:
    after 150 rounds, with the status of the last answer; on the first
    answer with a terminal status, with that status; on a rejected status
    query, whose rejection the handler throws.  Whenever the loop ends on
    the status FINISHED, the handler's answer is that of
    [handleGetQueryResults] for the first page (at most 50 rows, no
    token) of the same query in the same region. *)
Theorem handleLakeQuery_polls (config : CloudTrailConfig.t)
    (args : LakeQueryArgs.t) (w : World) :
  LakeQueryArgs.waitForCompletion args <> Some false ->
  let region := regionOf config (LakeQueryArgs.region args) w in
  exists client,
    Client.region client = region /\
    let start := startEvent client (LakeQueryArgs.sql args) in
    match onStartQuery (cloudtrail w) (trace w) client
            (StartQueryInput.mk (LakeQueryArgs.sql args)) with
    | inl e => handleLakeQuery config args w = (Throw e, emit start w)
    | inr started =>
        let queryId := StartQueryOutput.QueryId started in
        let answer := statusAnswer (emit start w) client queryId in
        exists (rounds : nat) (last : list event) polled,
          let w2 := emits (start :: pollRounds client queryId rounds ++ last) w in
          pollForCompletion client queryId 0 "RUNNING" None (emit start w)
            = (polled, w2) /\
          (rounds <= 150)%nat /\
          POLL_INTERVAL_MS * Z.of_nat rounds <= MAX_POLL_SECONDS * 1000 /\
          (forall i, (i < rounds)%nat ->
             exists response,
               answer i = inr response /\
               isTerminal (statusOf response) = false) /\
          ( (rounds = 150%nat /\ last = [] /\
             exists response,
               answer 149%nat = inr response /\
               polled = Return (statusOf response,
                                DescribeQueryOutput.ErrorMessage response))
            \/
            ((rounds < 150)%nat /\ last = [describeEvent client queryId] /\
             exists response,
               answer rounds = inr response /\
               isTerminal (statusOf response) = true /\
               polled = Return (statusOf response,
                                DescribeQueryOutput.ErrorMessage response))
            \/
            ((rounds < 150)%nat /\ last = [describeEvent client queryId] /\
             exists e,
               answer rounds = inl e /\
               polled = Throw e /\
               handleLakeQuery config args w = (Throw e, w2)) ) /\
          (forall err, polled = Return ("FINISHED", err) ->
             handleLakeQuery config args w
             = handleGetQueryResults config
                 (GetQueryResultsArgs.mk queryId (Some 50) None (Some region))
                 w2)
    end.
Proof.
  intros Hwait region.
  destruct (createCloudTrailClient_pure config region w)
    as (client & Hclient & Hregion).
  exists client. split; [exact Hregion|]. intros start.
  rewrite (handleLakeQuery_waiting config args w client Hwait Hclient).
  fold region. fold start.
  destruct (onStartQuery (cloudtrail w) (trace w) client
              (StartQueryInput.mk (LakeQueryArgs.sql args))) as [e|started];
    [reflexivity|].
  intros queryId answer.
  destruct (pollForCompletion_trace client queryId 150 "RUNNING" None
              (emit start w))
    as (rounds & last & polled & Hrun & Hnon & Hend).
  change (MAX_POLL_SECONDS * 1000 - POLL_INTERVAL_MS * Z.of_nat 150) with 0
    in Hrun.
  fold answer in Hnon, Hend.
  exists rounds, last, polled. cbv zeta. fold queryId.
  assert (Hle : (rounds <= 150)%nat)
    by (destruct Hend as [(-> & _)|[(H & _)|(H & _)]]; lia).
  split; [exact Hrun|]. split; [exact Hle|].
  split; [unfold POLL_INTERVAL_MS, MAX_POLL_SECONDS; lia|].
  split; [exact Hnon|]. split.
  - destruct Hend as [(-> & -> & Hlast)|[(Hlt & -> & Hlast)|(Hlt & -> & e & He & ->)]].
    + left. split; [reflexivity|]. split; [reflexivity | exact Hlast].
    + right. left. split; [exact Hlt|]. split; [reflexivity | exact Hlast].
    + right. right. split; [exact Hlt|]. split; [reflexivity|].
      exists e. split; [exact He|]. split; [reflexivity|].
      now rewrite Hrun.
  - intros err ->. rewrite Hrun. reflexivity.
Qed.

(** C2.  When [handleLakeQuery] waits for completion and the polling loop
    returns a status other than FINISHED (a terminal one, or the last one
    seen when the budget ran out), the handler returns a text, not an
    exception; the text contains the query id, that status and, if the
    service gave an error message, the message as given. *)
Theorem handleLakeQuery_reports (config : CloudTrailConfig.t)
    (args : LakeQueryArgs.t) (w w2 : World) (client : Client.t)
    (started : StartQueryOutput.t) (status : string) (err : option string) :
  let region := regionOf config (LakeQueryArgs.region args) w in
  let queryId := StartQueryOutput.QueryId started in
  LakeQueryArgs.waitForCompletion args <> Some false ->
  Api.createCloudTrailClient config (Some region) w = (Return client, w) ->
  onStartQuery (cloudtrail w) (trace w) client
    (StartQueryInput.mk (LakeQueryArgs.sql args)) = inr started ->
  pollForCompletion client queryId 0 "RUNNING" None
    (emit (startEvent client (LakeQueryArgs.sql args)) w)
    = (Return (status, err), w2) ->
  status <> "FINISHED" ->
  exists text,
    handleLakeQuery config args w = (Return text, w2) /\
    includes ("Query ID: " ++ queryId) text /\
    includes ("status: " ++ status) text /\
    (forall message, err = Some message -> includes message text).
Proof.
  intros region queryId Hwait Hclient Hstart Hrun Hstatus.
  apply String.eqb_neq in Hstatus.
  rewrite (handleLakeQuery_waiting config args w client Hwait Hclient).
  rewrite Hstart. cbv zeta. fold queryId. rewrite Hrun, Hstatus.
  eexists. split; [reflexivity|].
  fold region.
  split; [|split].
  - destruct (truthy err); apply includes_join; simpl; auto.
  - apply includes_trans
      with ("Query completed with status: " ++ status ++
            " (region: " ++ region ++ ")").
    + apply includes_app_r with (a := "Query completed with ").
      apply includes_app_l with (x := "status: " ++ status)
                                (a := "status: " ++ status).
      apply includes_refl.
    + destruct (truthy err); apply includes_join; simpl; auto.
  - intros message ->.
    destruct message as [|c message]; [apply includes_empty|].
    apply includes_trans with ("Error: " ++ String c message).
    + apply includes_app_r, includes_refl.
    + apply includes_join. simpl. auto.
Qed.

End LakeQuery.

(* ===================================================================== *)
(** * The event lookup and its tool *)
(* ===================================================================== *)

Section EventLookup.
Variable host : Host.
Import Events.

(** [handleLookupEvents], step by step: time resolution, the two parses,
    one request, and the rendering of the answer. *)
Lemma handleLookupEvents_steps (config : CloudTrailConfig.t)
    (args : LookupEventsArgs.t) (w : World) :
  let region := regionOf config (LookupEventsArgs.region args) w in
  exists client,
    Api.createCloudTrailClient config (Some region) w = (Return client, w) /\
    handleLookupEvents host config args w
    = match resolveTimes args with
      | inl e => (Throw e, w)
      | inr (startStr, endStr) =>
          match Cloudtrail.parseTimeInput host startStr w with
          | (Throw e, w1) => (Throw e, w1)
          | (Return startDt, w1) =>
              match Cloudtrail.parseTimeInput host endStr w1 with
              | (Throw e, w2) => (Throw e, w2)
              | (Return endDt, w2) =>
                  let req := lookupRequest args startDt endDt in
                  let w3 := emit (lookupEvent client req) w2 in
                  match onLookupEvents (cloudtrail w2) (trace w2) client req with
                  | inl e => (Throw e, w3)
                  | inr response =>
                      (outcomeOf
                         (renderLookup host region args startDt endDt response),
                       w3)
                  end
              end
          end
      end.
Proof.
  intros region.
  destruct (createCloudTrailClient_pure config region w)
    as (client & Hclient & Hregion).
  exists client. split; [exact Hclient|].
  unfold regionOf in region.
  unfold handleLookupEvents, bind at 1 2, getenv.
  fold region. rewrite Hclient.
  unfold resolveTimes, lookupRequest, lookupEvent, bind at 1.
  destruct (truthy (LookupEventsArgs.nextToken args));
    [ destruct (negb (truthy (LookupEventsArgs.startTime args))
                || negb (truthy (LookupEventsArgs.endTime args)));
      [reflexivity|] | ].
  all: unfold ret at 1; cbv beta iota; unfold bind at 1.
  all: match goal with
       | |- context [Cloudtrail.parseTimeInput host ?s ?w0] =>
           destruct (Cloudtrail.parseTimeInput host s w0) as [[startDt|e] w1]
       end; [|reflexivity].
  all: unfold bind at 1.
  all: match goal with
       | |- context [Cloudtrail.parseTimeInput host ?s ?w0] =>
           destruct (Cloudtrail.parseTimeInput host s w0) as [[endDt|e] w2]
       end; [|reflexivity].
  all: unfold bind at 1, sendLookupEvents, send; cbv zeta.
  all: match goal with
       | |- context [onLookupEvents ?a ?b ?c ?d] =>
           destruct (onLookupEvents a b c d) as [e|response]
       end; [reflexivity|].
  all: unfold renderLookup, bind, lift, ret, throw, outcomeOf; cbv zeta.
  all: match goal with
       | |- context [toISOString host ?d] =>
           destruct (toISOString host d) as [e|startIso]
       end; [reflexivity|].
  all: match goal with
       | |- context [toISOString host ?d] =>
           destruct (toISOString host d) as [e|endIso]
       end; [reflexivity|].
  all: match goal with
       | |- context [orElse (LookupEventsOutput.Events ?r) []] =>
           destruct (orElse (LookupEventsOutput.Events r) []) as [|ev evs]
       end; [reflexivity|].
  all: match goal with
       | |- context [formatEvents host 0 ?l] =>
           destruct (formatEvents host 0 l)
       end; reflexivity.
Qed.

Lemma lookupsIn_app (a b : list event) :
  lookupsIn (a ++ b) = (lookupsIn a ++ lookupsIn b)%list.
Proof. unfold lookupsIn. apply flat_map_app. Qed.

(** The parser sends nothing. *)
Lemma parseTimeInput_events (input : string) (w : World) :
  exists r evs,
    Cloudtrail.parseTimeInput host input w = (r, emits evs w) /\
    lookupsIn evs = [] /\
    (forall e, r = Throw e -> e = Error (Cloudtrail.invalidTimeFormat input)).
Proof.
  unfold Cloudtrail.parseTimeInput.
  destruct (toLowerCase host (trim input) =? "now")%string.
  - exists (Return (ValidDate (clock w (trace w)))), [EvNow].
    repeat split. discriminate.
  - destruct (Cloudtrail.relativeMatch (toLowerCase host (trim input)))
      as [[digits unit]|].
    + eexists _, [EvNow]. split; [reflexivity|]. split; [reflexivity|].
      discriminate.
    + destruct (getTime (Date_parse host input)).
      * eexists _, []. split; [reflexivity|]. split; [reflexivity|].
        discriminate.
      * eexists _, []. split; [reflexivity|]. split; [reflexivity|].
        now intros e [= <-].
Qed.

(** What [handleLookupEvents] sends: nothing when it throws before the
    request, else the one request built from its arguments and the two
    parsed dates. *)
Lemma handleLookupEvents_sends (config : CloudTrailConfig.t)
    (args : LookupEventsArgs.t) (w : World) :
  exists result evs,
    handleLookupEvents host config args w = (result, emits evs w) /\
    ( (lookupsIn evs = [] /\ exists e, result = Throw e)
      \/ exists startDt endDt,
           lookupsIn evs = [lookupRequest args startDt endDt] ).
Proof.
  destruct (handleLookupEvents_steps config args w) as (client & _ & ->).
  destruct (resolveTimes args) as [e|[startStr endStr]].
  { exists (Throw e), []. split; [reflexivity|]. left. eauto. }
  destruct (parseTimeInput_events startStr w) as (r1 & evs1 & -> & H1 & _).
  destruct r1 as [startDt|e].
  2:{ exists (Throw e), evs1. split; [reflexivity|]. left. eauto. }
  destruct (parseTimeInput_events endStr (emits evs1 w))
    as (r2 & evs2 & -> & H2 & _).
  destruct r2 as [endDt|e].
  2:{ exists (Throw e), (evs1 ++ evs2)%list. rewrite emits_app.
      split; [reflexivity|]. left. rewrite lookupsIn_app, H1, H2. eauto. }
  cbv zeta.
  destruct (onLookupEvents _ _ client (lookupRequest args startDt endDt));
    eexists _,
      (evs1 ++ evs2 ++ [lookupEvent client (lookupRequest args startDt endDt)])%list;
    rewrite !emits_app; (split; [reflexivity|]); right;
    exists startDt, endDt; rewrite !lookupsIn_app, H1, H2; reflexivity.
Qed.

(** C9.  An input that is not [now] once trimmed and lowered, that is not a
    relative form and that the host cannot parse as a date makes the parser
    throw an error whose message quotes the input as given and names the
    ISO and the relative forms, and leaves the world as it was.  A lookup
    whose start or end time is such an input throws a time-format error
    and sends no request. *)
Theorem parseTimeInput_rejects (input : string) (w : World) :
  toLowerCase host (trim input) <> "now" ->
  Cloudtrail.relativeMatch (toLowerCase host (trim input)) = None ->
  Date_parse host input = InvalidDate ->
  Cloudtrail.parseTimeInput host input w
    = (Throw (Error (Cloudtrail.invalidTimeFormat input)), w) /\
  includes ("Invalid time format: " ++ dquote ++ input ++ dquote)
    (Cloudtrail.invalidTimeFormat input) /\
  includes "Use ISO format (e.g. " (Cloudtrail.invalidTimeFormat input) /\
  includes "or relative (e.g. " (Cloudtrail.invalidTimeFormat input) /\
  forall config args other,
    resolveTimes args = inr (input, other) \/
    resolveTimes args = inr (other, input) ->
    exists culprit evs,
      handleLookupEvents host config args w
        = (Throw (Error (Cloudtrail.invalidTimeFormat culprit)), emits evs w) /\
      lookupsIn evs = [].
Proof.
  intros Hnow Hrel Hdate.
  destruct (parseTimeInput_invalid host input w Hnow Hrel Hdate)
    as (Hparse & Hquote & Hiso & Hrelative).
  repeat (split; [assumption|]).
  intros config args other Htimes.
  destruct (handleLookupEvents_steps config args w) as (client & _ & ->).
  destruct Htimes as [-> | ->].
  - rewrite Hparse. exists input, []. split; reflexivity.
  - destruct (parseTimeInput_events other w) as (r1 & evs1 & -> & H1 & Hthrow).
    destruct r1 as [startDt|e].
    + rewrite (proj1 (parseTimeInput_invalid host input (emits evs1 w)
                        Hnow Hrel Hdate)).
      exists input, evs1. split; [reflexivity | exact H1].
    + rewrite (Hthrow e eq_refl). exists other, evs1.
      split; [reflexivity | exact H1].
Qed.


Lemma lookupRequest_filter (args : LookupEventsArgs.t) (startDt endDt : Date) :
  LookupEventsInput.LookupAttributes (lookupRequest args startDt endDt)
  = filterOf args.
Proof.
  unfold lookupRequest, filterOf. simpl.
  destruct (LookupEventsArgs.attributeKey args) as [key|]; [|reflexivity].
  destruct (LookupEventsArgs.attributeValue args) as [value|]; [|reflexivity].
  simpl. destruct (value =? "")%string; reflexivity.
Qed.

Lemma lookupRequest_withoutAttribute (args : LookupEventsArgs.t)
    (startDt endDt : Date) :
  filterOf args = None ->
  lookupRequest (withoutAttribute args) startDt endDt
  = lookupRequest args startDt endDt.
Proof.
  intros H. rewrite <- (lookupRequest_filter args startDt endDt) in H.
  unfold lookupRequest in *. simpl in *. now rewrite H.
Qed.

Lemma renderLookup_withoutAttribute (region : string)
    (args : LookupEventsArgs.t) (startDt endDt : Date)
    (response : LookupEventsOutput.t) (e : exn) :
  renderLookup host region args startDt endDt response = inl e <->
  renderLookup host region (withoutAttribute args) startDt endDt response = inl e.
Proof.
  unfold renderLookup. cbv zeta.
  destruct (toISOString host startDt); [reflexivity|].
  destruct (toISOString host endDt); [reflexivity|].
  destruct (orElse (LookupEventsOutput.Events response) []) as [|ev evs].
  - split; discriminate.
  - destruct (formatEvents host 0 (ev :: evs)); [reflexivity|].
    split; discriminate.
Qed.

(** C10 (amended).  Every request that a lookup sends carries the
    attribute pair as its filter when a key and a non-empty value are
    given, and no filter otherwise.  When there is no filter, the lookup
    does to the world exactly what it does without the two attribute
    fields (it sends the same unfiltered request), and it throws exactly
    when the lookup without them throws. *)
Theorem handleLookupEvents_filter (config : CloudTrailConfig.t)
    (args : LookupEventsArgs.t) (w : World) :
  exists result evs,
    handleLookupEvents host config args w = (result, emits evs w) /\
    (forall req, In req (lookupsIn evs) ->
       LookupEventsInput.LookupAttributes req = filterOf args) /\
    (filterOf args = None ->
       snd (handleLookupEvents host config (withoutAttribute args) w)
         = emits evs w /\
       forall e,
         result = Throw e <->
         fst (handleLookupEvents host config (withoutAttribute args) w)
           = Throw e).
Proof.
  destruct (handleLookupEvents_sends config args w)
    as (result & evs & Hrun & Hsent).
  exists result, evs. split; [exact Hrun|]. split.
  - intros req Hin.
    destruct Hsent as [(Hnone & _)|(startDt & endDt & Hone)].
    + rewrite Hnone in Hin. destruct Hin.
    + rewrite Hone in Hin. destruct Hin as [<-|[]].
      apply lookupRequest_filter.
  - intros Hfilter. clear Hsent. revert Hrun.
    destruct (handleLookupEvents_steps config args w)
      as (client & Hclient & ->).
    destruct (handleLookupEvents_steps config (withoutAttribute args) w)
      as (client' & Hclient' & ->).
    change (regionOf config
              (LookupEventsArgs.region (withoutAttribute args)) w)
      with (regionOf config (LookupEventsArgs.region args) w) in *.
    rewrite Hclient in Hclient'. injection Hclient' as <-.
    change (resolveTimes (withoutAttribute args)) with (resolveTimes args).
    destruct (resolveTimes args) as [x|[startStr endStr]].
    { intros [= <- <-]. split; [reflexivity|]. reflexivity. }
    destruct (Cloudtrail.parseTimeInput host startStr w) as [[startDt|x] w1].
    2:{ intros [= <- <-]. split; reflexivity. }
    destruct (Cloudtrail.parseTimeInput host endStr w1) as [[endDt|x] w2].
    2:{ intros [= <- <-]. split; reflexivity. }
    cbv zeta. rewrite (lookupRequest_withoutAttribute args _ _ Hfilter).
    destruct (onLookupEvents _ _ client (lookupRequest args startDt endDt)).
    { intros [= <- <-]. split; reflexivity. }
    intros [= <- <-]. split; [reflexivity|]. intros x. simpl.
    pose proof (renderLookup_withoutAttribute
                  (regionOf config (LookupEventsArgs.region args) w)
                  args startDt endDt t x) as Hrender.
    destruct (renderLookup host _ args startDt endDt t);
      destruct (renderLookup host _ (withoutAttribute args) startDt endDt t);
      simpl; split; intros [= <-];
      try (destruct Hrender as [H1 H2];
           first [ specialize (H1 eq_refl) | specialize (H2 eq_refl) ];
           congruence).
Qed.

Lemma validateMaxResults_clamp (v : Z) :
  validateMaxResults (Some v) 10 50 = clamp v /\
  Lake.validateMaxResults (Some v) 50 50 = clamp v /\
  1 <= clamp v <= 50 /\
  (v < 1 -> clamp v = 1) /\
  (50 < v -> clamp v = 50) /\
  (1 <= v <= 50 -> clamp v = v).
Proof.
  unfold validateMaxResults, Lake.validateMaxResults, clamp.
  repeat split; lia.
Qed.

Lemma LookupEventsSchema_rejects (raw : EventsTools.RawArgs.t) (v : Z) :
  EventsTools.RawArgs.maxResults raw = EventsTools.JNumber v ->
  v < 1 \/ 50 < v ->
  exists issues,
    In "maxResults" issues /\
    EventsTools.LookupEventsSchema_parse raw = inl (ZodError issues).
Proof.
  intros Hraw Hv. unfold EventsTools.LookupEventsSchema_parse.
  rewrite Hraw. cbv zeta.
  assert (Hno : EventsTools.optionalMaxResults (EventsTools.JNumber v) = None).
  { unfold EventsTools.optionalMaxResults.
    destruct ((1 <=? v) && (v <=? 50)) eqn:E; [|reflexivity].
    apply andb_prop in E as [E1 E2].
    apply Z.leb_le in E1. apply Z.leb_le in E2. lia. }
  rewrite Hno.
  destruct (EventsTools.optionalString (EventsTools.RawArgs.startTime raw)),
    (EventsTools.optionalString (EventsTools.RawArgs.endTime raw)),
    (EventsTools.optionalKey (EventsTools.RawArgs.attributeKey raw)),
    (EventsTools.optionalString (EventsTools.RawArgs.attributeValue raw)),
    (EventsTools.optionalString (EventsTools.RawArgs.nextToken raw)),
    (EventsTools.optionalString (EventsTools.RawArgs.region raw)),
    (EventsTools.booleanDefaultFalse (EventsTools.RawArgs.break_token_rule raw));
    eexists; (split; [|reflexivity]); simpl; auto 10.
Qed.

(** C5 (amended).  For a [maxResults] outside [1, 50]: the [lookup_events]
    tool rejects the invocation with a schema error that names
    [maxResults], before the handler runs and with nothing sent; the
    handlers themselves, given such a value, do not reject it but work
    exactly as with [max(1, min(50, requested))], which is the page size of
    the request they send. *)
Theorem maxResults_outside_range (config : CloudTrailConfig.t)
    (maxTokenCall : number) (v : Z) (w : World) :
  v < 1 \/ 50 < v ->
  (forall raw,
     EventsTools.RawArgs.maxResults raw = EventsTools.JNumber v ->
     exists issues,
       In "maxResults" issues /\
       EventsTools.lookup_events host config maxTokenCall raw w
       = (Throw (ZodError issues), w))
  /\
  (forall args,
     LookupEventsArgs.maxResults args = Some v ->
     handleLookupEvents host config args w
     = handleLookupEvents host config (withMaxResults args (clamp v)) w /\
     exists result evs,
       handleLookupEvents host config args w = (result, emits evs w) /\
       forall req, In req (lookupsIn evs) ->
         LookupEventsInput.MaxResults req = clamp v)
  /\
  (forall args,
     Lake.GetQueryResultsArgs.maxResults args = Some v ->
     exists client result,
       Lake.handleGetQueryResults config args w
       = (result,
          emits
            [ EvSend client
                (GetQueryResultsCommand
                   (GetQueryResultsInput.mk
                      (Lake.GetQueryResultsArgs.queryId args) (clamp v)
                      (if truthy (Lake.GetQueryResultsArgs.nextToken args)
                       then Lake.GetQueryResultsArgs.nextToken args else None)));
              describeEvent client (Lake.GetQueryResultsArgs.queryId args) ] w))
  /\
  clamp v = (if v <? 1 then 1 else 50).
Proof.
  intros Hv.
  destruct (validateMaxResults_clamp v) as (Hev & Hlake & _ & Hlow & Hhigh & _).
  split; [|split; [|split]].
  - intros raw Hraw.
    destruct (LookupEventsSchema_rejects raw v Hraw Hv) as (issues & Hin & Hparse).
    exists issues. split; [exact Hin|].
    unfold EventsTools.lookup_events, bind at 1, lift. now rewrite Hparse.
  - intros args Hargs. split.
    + destruct args as [st et ak av mr nt rg]. simpl in Hargs. subst mr.
      unfold withMaxResults, handleLookupEvents.
      cbv [LookupEventsArgs.startTime LookupEventsArgs.endTime
           LookupEventsArgs.attributeKey LookupEventsArgs.attributeValue
           LookupEventsArgs.maxResults LookupEventsArgs.nextToken
           LookupEventsArgs.region].
      assert (Hidem : validateMaxResults (Some (clamp v)) 10 50
                      = validateMaxResults (Some v) 10 50).
      { unfold validateMaxResults, clamp. lia. }
      now rewrite Hidem.
    + destruct (handleLookupEvents_sends config args w)
        as (result & evs & Hrun & Hsent).
      exists result, evs. split; [exact Hrun|].
      intros req Hin.
      destruct Hsent as [(Hnone & _)|(startDt & endDt & Hone)].
      * rewrite Hnone in Hin. destruct Hin.
      * rewrite Hone in Hin. destruct Hin as [<-|[]].
        unfold lookupRequest. simpl. now rewrite Hargs.
  - intros args Hargs.
    destruct (handleGetQueryResults_requests config args w)
      as (client & result & _ & Hrun).
    exists client, result. now rewrite Hrun, Hargs, Hlake.
  - destruct (v <? 1) eqn:E.
    + apply Z.ltb_lt in E. auto.
    + apply Z.ltb_ge in E. apply Hhigh. lia.
Qed.

End EventLookup.

(* ===================================================================== *)
(** * The statements at concrete inputs *)
(* ===================================================================== *)

Lemma parseTimeInput_rejects_witness :
  let w := Sample.world Sample.failing [] in
  toLowerCase Sample.host (trim "not a time") <> "now" /\
  Cloudtrail.relativeMatch (toLowerCase Sample.host (trim "not a time")) = None /\
  Date_parse Sample.host "not a time" = InvalidDate /\
  Cloudtrail.parseTimeInput Sample.host "not a time" w
  = (Throw (Error (Cloudtrail.invalidTimeFormat "not a time")), w).
Proof.
  intros w.
  assert (H1 : toLowerCase Sample.host (trim "not a time") <> "now") by discriminate.
  assert (H2 : Cloudtrail.relativeMatch (toLowerCase Sample.host (trim "not a time")) = None)
    by reflexivity.
  assert (H3 : Date_parse Sample.host "not a time" = InvalidDate)
    by reflexivity.
  repeat (split; [assumption|]).
  exact (proj1 (parseTimeInput_rejects Sample.host "not a time" w H1 H2 H3)).
Defined.

Lemma handleLakeQuery_polls_witness :
  let w := Sample.world Sample.finishing [] in
  Lake.LakeQueryArgs.waitForCompletion Sample.lakeArgs <> Some false /\
  exists client,
    Client.region client = "eu-west-1" /\
    let start := startEvent client "select 1" in
    let w2 :=
      emits (start :: pollRounds client "q-0001" 1
               ++ [describeEvent client "q-0001"]) w in
    Lake.pollForCompletion client "q-0001" 0 "RUNNING" None (emit start w)
    = (Return ("FINISHED", None), w2) /\
    Lake.handleLakeQuery Sample.config Sample.lakeArgs w
    = Lake.handleGetQueryResults Sample.config
        (Lake.GetQueryResultsArgs.mk "q-0001" (Some 50) None (Some "eu-west-1"))
        w2.
Proof.
  intros w.
  assert (H : Lake.LakeQueryArgs.waitForCompletion Sample.lakeArgs <> Some false)
    by discriminate.
  split; [exact H|].
  destruct (handleLakeQuery_polls Sample.config Sample.lakeArgs w H)
    as (client & Hregion & Hrest).
  exists client. split; [exact Hregion|].
  cbn [onStartQuery cloudtrail w Sample.world Sample.finishing Sample.service
         Sample.lakeArgs Lake.LakeQueryArgs.sql StartQueryOutput.QueryId]
    in Hrest.
  cbv zeta in Hrest.
  destruct Hrest as (rounds & last & polled & Hrun & _ & _ & Hnon & Hend & Hdone).
  assert (Hfirst : forall response,
             statusAnswer (emit (startEvent client "select 1") w) client
               "q-0001" 0 = inr response ->
             Lake.isTerminal (statusOf response) = false).
  { intros response [= <-]. reflexivity. }
  assert (Hsecond : forall response,
             statusAnswer (emit (startEvent client "select 1") w) client
               "q-0001" 1 = inr response ->
             response = Sample.noStats "FINISHED" None).
  { intros response [= <-]. reflexivity. }
  assert (Hrounds : rounds = 1%nat).
  { destruct rounds as [|[|rounds]]; [|reflexivity|].
    - destruct Hend as [(Hk & _)|[(_ & _ & response & Ha & Ht & _)
                                 |(_ & _ & e & Ha & _)]];
        [ discriminate Hk
        | rewrite (Hfirst response Ha) in Ht; discriminate Ht
        | discriminate Ha ].
    - destruct (Hnon 1%nat ltac:(lia)) as (response & Ha & Ht).
      rewrite (Hsecond response Ha) in Ht. discriminate Ht. }
  subst rounds.
  destruct Hend as [(Hk & _)|[(_ & -> & response & Ha & _ & ->)
                             |(_ & _ & e & Ha & _)]];
    [ discriminate Hk | | discriminate Ha ].
  rewrite (Hsecond response Ha) in *.
  cbv zeta. split; [exact Hrun|].
  exact (Hdone None eq_refl).
Defined.

Lemma handleLakeQuery_reports_witness :
  let w := Sample.world Sample.failing [] in
  let start := startEvent Sample.client "select 1" in
  let w2 :=
    emits (start :: pollRounds Sample.client "q-0001" 1
             ++ [describeEvent Sample.client "q-0001"]) w in
  Lake.LakeQueryArgs.waitForCompletion Sample.lakeArgs <> Some false /\
  Api.createCloudTrailClient Sample.config (Some "eu-west-1") w
    = (Return Sample.client, w) /\
  onStartQuery (cloudtrail w) (trace w) Sample.client
    (StartQueryInput.mk "select 1") = inr (StartQueryOutput.mk "q-0001") /\
  Lake.pollForCompletion Sample.client "q-0001" 0 "RUNNING" None (emit start w)
    = (Return ("FAILED", Some "table not found"), w2) /\
  "FAILED" <> "FINISHED" /\
  exists text,
    Lake.handleLakeQuery Sample.config Sample.lakeArgs w = (Return text, w2) /\
    includes "Query ID: q-0001" text /\
    includes "status: FAILED" text /\
    includes "table not found" text.
Proof.
  intros w start w2.
  assert (H1 : Lake.LakeQueryArgs.waitForCompletion Sample.lakeArgs <> Some false)
    by discriminate.
  assert (H2 : Api.createCloudTrailClient Sample.config (Some "eu-west-1") w
               = (Return Sample.client, w)) by reflexivity.
  assert (H3 : onStartQuery (cloudtrail w) (trace w) Sample.client
                 (StartQueryInput.mk "select 1")
               = inr (StartQueryOutput.mk "q-0001")) by reflexivity.
  assert (H4 : Lake.pollForCompletion Sample.client "q-0001" 0 "RUNNING" None
                 (emit start w)
               = (Return ("FAILED", Some "table not found"), w2))
    by reflexivity.
  assert (H5 : "FAILED" <> "FINISHED") by discriminate.
  repeat (split; [assumption|]).
  destruct (handleLakeQuery_reports Sample.config Sample.lakeArgs w w2
              Sample.client (StartQueryOutput.mk "q-0001") "FAILED"
              (Some "table not found") H1 H2 H3 H4 H5)
    as (text & Hrun & Hid & Hstatus & Hmessage).
  exists text. repeat split; try assumption. now apply Hmessage.
Defined.

(** C5, as stated, fails: the tool does not clamp a request for 51
    events, it rejects it with a schema error, and nothing is sent. *)
Lemma lookup_events_rejects_51 :
  let w := Sample.world Sample.failing [] in
  EventsTools.lookup_events Sample.host Sample.config (Num 20000) Sample.raw51 w
  = (Throw (ZodError ["maxResults"]), w).
Proof. reflexivity. Qed.

Lemma maxResults_outside_range_witness :
  let w := Sample.world Sample.failing [] in
  (51 < 1 \/ 50 < 51) /\
  (exists issues,
     In "maxResults" issues /\
     EventsTools.lookup_events Sample.host Sample.config (Num 20000)
       Sample.raw51 w
     = (Throw (ZodError issues), w)) /\
  clamp 51 = 50.
Proof.
  intros w.
  assert (H : 51 < 1 \/ 50 < 51) by (right; reflexivity).
  split; [exact H|].
  destruct (maxResults_outside_range Sample.host Sample.config (Num 20000) 51 w H)
    as (Htool & _ & _ & Hclamp).
  split; [apply Htool; reflexivity | exact Hclamp].
Defined.



(** C10, as stated, fails: a lookup that provides a key and the empty
    string as its value sends its request without a filter. *)
Lemma handleLookupEvents_empty_value :
  let w := Sample.world Sample.failing [] in
  let run := Events.handleLookupEvents Sample.host Sample.config
               Sample.emptyValueArgs w in
  Events.LookupEventsArgs.attributeKey Sample.emptyValueArgs = Some Username /\
  Events.LookupEventsArgs.attributeValue Sample.emptyValueArgs = Some "" /\
  lookupsIn (trace (snd run))
  = [ LookupEventsInput.mk (ValidDate 1699913600000) (ValidDate 1700000000001)
        10 None None ].
Proof.
  intros w run. split; [reflexivity|]. split; [reflexivity|].
  vm_compute. reflexivity.
Qed.

Lemma handleLookupEvents_filter_witness :
  let w := Sample.world Sample.failing [] in
  filterOf Sample.keyOnlyArgs = None /\
  exists result evs,
    Events.handleLookupEvents Sample.host Sample.config Sample.keyOnlyArgs w
      = (result, emits evs w) /\
    snd (Events.handleLookupEvents Sample.host Sample.config
           (withoutAttribute Sample.keyOnlyArgs) w) = emits evs w.
Proof.
  intros w. split; [reflexivity|].
  destruct (handleLookupEvents_filter Sample.host Sample.config
              Sample.keyOnlyArgs w)
    as (result & evs & Hrun & _ & Hsame).
  exists result, evs. split; [exact Hrun|]. exact (proj1 (Hsame eq_refl)).
Defined.

(* ===================================================================== *)
(** * More of the Lake query lifecycle *)
(* ===================================================================== *)

Section LakeMore.
Import Lake.

(** The handler that does not wait, step by step. *)
Lemma handleLakeQuery_submitting (config : CloudTrailConfig.t)
    (args : LakeQueryArgs.t) (w : World) (client : Client.t) :
  let region := regionOf config (LakeQueryArgs.region args) w in
  let w1 := emit (startEvent client (LakeQueryArgs.sql args)) w in
  LakeQueryArgs.waitForCompletion args = Some false ->
  Api.createCloudTrailClient config (Some region) w = (Return client, w) ->
  handleLakeQuery config args w
  = match onStartQuery (cloudtrail w) (trace w) client
            (StartQueryInput.mk (LakeQueryArgs.sql args)) with
    | inl e => (Throw e, w1)
    | inr started =>
        let queryId := StartQueryOutput.QueryId started in
        let w2 := emit (describeEvent client queryId) w1 in
        match onDescribeQuery (cloudtrail w1) (trace w1) client
                (DescribeQueryInput.mk queryId) with
        | inl e => (Throw e, w2)
        | inr status =>
            (Return
               (join nl
                  [ "Query submitted (region: " ++ region ++ ")";
                    "Query ID: " ++ queryId;
                    "Status:   " ++
                      orElse (DescribeQueryOutput.QueryStatus status) "RUNNING";
                    "";
                    "Use get_query_status to poll for completion, then get_query_results to fetch results." ]),
             w2)
        end
    end.
Proof.
  intros region w1 Hwait Hclient. subst w1.
  unfold regionOf in region.
  unfold handleLakeQuery, bind at 1 2, getenv.
  fold region. rewrite Hclient, Hwait.
  unfold bind at 1, sendStartQuery, send, startEvent.
  destruct (onStartQuery (cloudtrail w) (trace w) client
              (StartQueryInput.mk (LakeQueryArgs.sql args))) as [e|started];
    [reflexivity|].
  cbn [orElse negb]. unfold bind, sendDescribeQuery, send, describeEvent.
  cbv zeta.
  destruct (onDescribeQuery _ _ client
              (DescribeQueryInput.mk (StartQueryOutput.QueryId started)))
    as [e|status]; reflexivity.
Qed.

(** X1.  A Lake query that does not wait for completion makes exactly two
    requests, the start of the query and one status query, and never
    sleeps.  It throws the rejection of either request; otherwise it
    returns a text with the query id and the status it saw, RUNNING when
    the answer carries none. *)
Theorem handleLakeQuery_async (config : CloudTrailConfig.t)
    (args : LakeQueryArgs.t) (w : World) :
  LakeQueryArgs.waitForCompletion args = Some false ->
  exists client,
    Client.region client = regionOf config (LakeQueryArgs.region args) w /\
    let start := startEvent client (LakeQueryArgs.sql args) in
    let w1 := emit start w in
    match onStartQuery (cloudtrail w) (trace w) client
            (StartQueryInput.mk (LakeQueryArgs.sql args)) with
    | inl e => handleLakeQuery config args w = (Throw e, w1)
    | inr started =>
        let queryId := StartQueryOutput.QueryId started in
        let w2 := emit (describeEvent client queryId) w1 in
        match onDescribeQuery (cloudtrail w1) (trace w1) client
                (DescribeQueryInput.mk queryId) with
        | inl e => handleLakeQuery config args w = (Throw e, w2)
        | inr status =>
            exists text,
              handleLakeQuery config args w = (Return text, w2) /\
              includes ("Query ID: " ++ queryId) text /\
              includes
                ("Status:   " ++
                 orElse (DescribeQueryOutput.QueryStatus status) "RUNNING")
                text
        end
    end.
Proof.
  intros Hwait.
  destruct (createCloudTrailClient_pure config
              (regionOf config (LakeQueryArgs.region args) w) w)
    as (client & Hclient & Hregion).
  exists client. split; [exact Hregion|]. cbv zeta.
  rewrite (handleLakeQuery_submitting config args w client Hwait Hclient).
  destruct (onStartQuery (cloudtrail w) (trace w) client
              (StartQueryInput.mk (LakeQueryArgs.sql args))) as [e|started];
    [reflexivity|].
  cbv zeta.
  destruct (onDescribeQuery _ _ client
              (DescribeQueryInput.mk (StartQueryOutput.QueryId started)))
    as [e|status]; [reflexivity|].
  eexists. split; [reflexivity|].
  split; apply includes_join; simpl; auto.
Qed.

(** X2.  When the service never reports a terminal status, a Lake query
    that waits gives up after exactly 150 rounds of a status query and a
    pause of 2000 ms, the last pause included, and returns (it does not
    throw) a text that announces, as the status the query completed with,
    the status of the 150th answer, which is not a terminal one. *)
Theorem handleLakeQuery_gives_up (config : CloudTrailConfig.t)
    (args : LakeQueryArgs.t) (w : World) (client : Client.t)
    (started : StartQueryOutput.t) :
  let region := regionOf config (LakeQueryArgs.region args) w in
  let queryId := StartQueryOutput.QueryId started in
  let start := startEvent client (LakeQueryArgs.sql args) in
  LakeQueryArgs.waitForCompletion args <> Some false ->
  Api.createCloudTrailClient config (Some region) w = (Return client, w) ->
  onStartQuery (cloudtrail w) (trace w) client
    (StartQueryInput.mk (LakeQueryArgs.sql args)) = inr started ->
  neverTerminal (cloudtrail w) client queryId ->
  exists response text,
    statusAnswer (emit start w) client queryId 149 = inr response /\
    isTerminal (statusOf response) = false /\
    handleLakeQuery config args w
    = (Return text, emits (start :: pollRounds client queryId 150) w) /\
    includes
      ("Query completed with status: " ++ statusOf response ++
       " (region: " ++ region ++ ")") text /\
    includes ("Query ID: " ++ queryId) text.
Proof.
  intros region queryId start Hwait Hclient Hstart Hnever.
  rewrite (handleLakeQuery_waiting config args w client Hwait Hclient).
  rewrite Hstart. cbv zeta. fold queryId start.
  destruct (pollForCompletion_trace client queryId 150 "RUNNING" None
              (emit start w))
    as (rounds & last & polled & Hrun & Hnon & Hend).
  change (MAX_POLL_SECONDS * 1000 - POLL_INTERVAL_MS * Z.of_nat 150) with 0
    in Hrun.
  assert (Hanswers : forall i,
             exists response,
               statusAnswer (emit start w) client queryId i = inr response /\
               isTerminal (statusOf response) = false).
  { intros i. unfold statusAnswer, statusOf. apply Hnever. }
  destruct Hend as [(-> & -> & response & Hlast & ->)
                   |[(_ & _ & response & Ha & Ht & _)|(_ & _ & e & Ha & _)]].
  - destruct (Hanswers 149%nat) as (response' & Ha & Hterm).
    rewrite Hlast in Ha. injection Ha as <-.
    exists response. rewrite Hrun, app_nil_r.
    assert (Hnot : (statusOf response =? "FINISHED")%string = false).
    { destruct (statusOf response =? "FINISHED")%string eqn:E; [|reflexivity].
      apply String.eqb_eq in E. rewrite E in Hterm. discriminate Hterm. }
    rewrite Hnot. eexists. split; [exact Hlast|]. split; [exact Hterm|].
    split; [reflexivity|].
    split; destruct (truthy (DescribeQueryOutput.ErrorMessage response));
      apply includes_join; cbn [pushIf push app In]; auto.
  - destruct (Hanswers rounds) as (response' & Ha' & Hterm).
    rewrite Ha in Ha'. injection Ha' as <-. congruence.
  - destruct (Hanswers rounds) as (response' & Ha' & _). congruence.
Qed.

(** With [k] rounds of budget left at most, the loop makes at most [k]
    status queries. *)
Lemma pollForCompletion_budget (client : Client.t) (queryId : string)
    (k : nat) :
  forall (elapsed : Z) (queryStatus : string) (finalErrorMessage : option string)
         (w : World),
    MAX_POLL_SECONDS * 1000 - elapsed <= POLL_INTERVAL_MS * Z.of_nat k ->
    exists (rounds : nat) (last : list event) polled,
      pollForCompletion client queryId elapsed queryStatus finalErrorMessage w
        = (polled, emits (pollRounds client queryId rounds ++ last) w) /\
      (last = [] \/ last = [describeEvent client queryId]) /\
      (rounds + List.length last <= k)%nat.
Proof.
  induction k as [|k IH]; intros elapsed qs fe w Hk.
  - exists O, [], (Return (qs, fe)).
    simp pollForCompletion.
    destruct (Z_lt_dec elapsed (MAX_POLL_SECONDS * 1000)) as [Hlt|Hge].
    { exfalso. unfold MAX_POLL_SECONDS, POLL_INTERVAL_MS in *. lia. }
    split; [reflexivity|]. split; [now left | simpl; lia].
  - simp pollForCompletion.
    destruct (Z_lt_dec elapsed (MAX_POLL_SECONDS * 1000)) as [Hlt|Hge].
    + unfold pollForCompletion_unfold_clause_1, bind, sendDescribeQuery, send.
      destruct (onDescribeQuery (cloudtrail w) (trace w) client
                  (DescribeQueryInput.mk queryId)) as [x|resp].
      * exists O, [describeEvent client queryId], (Throw x).
        split; [reflexivity|]. split; [now right | simpl; lia].
      * destruct (isTerminal
                    (orElse (DescribeQueryOutput.QueryStatus resp) "UNKNOWN")).
        -- exists O, [describeEvent client queryId]. eexists.
           split; [reflexivity|]. split; [now right | simpl; lia].
        -- unfold sleep.
           edestruct (IH (elapsed + POLL_INTERVAL_MS))
             as (rounds & last & polled & Hrun & Hlast & Hle);
             [ unfold MAX_POLL_SECONDS, POLL_INTERVAL_MS in *; lia | ].
           exists (S rounds), last, polled. split.
           { rewrite Hrun. f_equal. }
           split; [exact Hlast | simpl; lia].
    + exists O, [], (Return (qs, fe)).
      split; [reflexivity|]. split; [now left | simpl; lia].
Qed.

(** X3.  Whatever the service answers, the polling loop of one invocation
    makes at most 150 status queries: [rounds] of a query and a pause, and
    at most one query more, 150 at most together. *)
Theorem pollForCompletion_queries (client : Client.t) (queryId : string)
    (w : World) :
  exists (rounds : nat) (last : list event) polled,
    pollForCompletion client queryId 0 "RUNNING" None w
      = (polled, emits (pollRounds client queryId rounds ++ last) w) /\
    (last = [] \/ last = [describeEvent client queryId]) /\
    (rounds + List.length last <= 150)%nat.
Proof.
  apply pollForCompletion_budget. vm_compute. discriminate.
Qed.

(** [handleGetQueryResults], step by step. *)
Lemma handleGetQueryResults_steps (config : CloudTrailConfig.t)
    (args : GetQueryResultsArgs.t) (w : World) (client : Client.t) :
  let region := regionOf config (GetQueryResultsArgs.region args) w in
  let queryId := GetQueryResultsArgs.queryId args in
  let req := resultsRequest args in
  let w1 := emit (resultsEvent client req) w in
  let w2 := emit (describeEvent client queryId) w1 in
  Api.createCloudTrailClient config (Some region) w = (Return client, w) ->
  handleGetQueryResults config args w
  = match onGetQueryResults (cloudtrail w) (trace w) client req,
          onDescribeQuery (cloudtrail w1) (trace w1) client
            (DescribeQueryInput.mk queryId) with
    | inl e, inr _ => (Throw e, w2)
    | inr _, inl e => (Throw e, w2)
    | inl e, inl e' =>
        (Throw (if firstRejectedFirst (cloudtrail w) (trace w) then e else e'),
         w2)
    | inr results, inr status =>
        let rows := orElse (GetQueryResultsOutput.QueryResultRows results) [] in
        let lines :=
          [ "CloudTrail Lake Query Results (region: " ++ region ++ ")";
            "Query ID: " ++ queryId;
            "Status:   " ++
              orElse (DescribeQueryOutput.QueryStatus status) "UNKNOWN";
            "Rows:     " ++ showZ (Z.of_nat (List.length rows));
            "" ] in
        let lines :=
          match DescribeQueryOutput.QueryStatistics status with
          | Some s =>
              push
                (pushIf
                   (pushIf lines
                      (option_map (fun n => "Events matched: " ++ showZ n)
                         (QueryStats.EventsMatched s)))
                   (option_map
                      (fun n => "Execution time: " ++ showZ n ++ " ms")
                      (QueryStats.ExecutionTimeInMillis s)))
                ""
          | None => lines
          end in
        let lines :=
          match rows with
          | [] => push lines "No results returned."
          | _ => pushAll lines (formatRows 0 rows)
          end in
        let lines :=
          if truthy (GetQueryResultsOutput.NextToken results) then
            pushAll lines
              [ "";
                "⟶ More results available. Use nextToken for the next page:";
                "  nextToken: " ++
                  orElse (GetQueryResultsOutput.NextToken results) "" ]
          else lines in
        (Return (join nl lines), w2)
    end.
Proof.
  intros region queryId req w1 w2 Hclient. subst w1 w2 req queryId.
  unfold regionOf in region.
  unfold handleGetQueryResults, bind at 1 2, getenv.
  fold region. rewrite Hclient.
  unfold bind, promiseAll2, sendGetQueryResults, sendDescribeQuery, send,
    resultsRequest, resultsEvent, describeEvent.
  destruct (onGetQueryResults _ _ _ _) as [e|results];
    destruct (onDescribeQuery _ _ _ _) as [e'|status]; try reflexivity.
  unfold ret. cbv zeta. do 2 f_equal. f_equal.
  destruct (GetQueryResultsOutput.NextToken results) as [tok|];
    [|reflexivity].
  simpl. destruct (tok =? "")%string; reflexivity.
Qed.

Lemma formatRows_cell (row : list cell) (c : cell) :
  forall (rows : list (list cell)) (idx : Z),
    In row rows -> In c row -> In (formatCell c) (formatRows idx rows).
Proof.
  induction rows as [|r rest IH]; intros idx Hrow Hc; [destruct Hrow|].
  simpl. right. unfold pushAll. apply in_or_app.
  destruct Hrow as [->|Hrow].
  - left. now apply in_map.
  - right. now apply IH.
Qed.

(** X4.  [handleGetQueryResults] always sends both of its requests, the
    page of results (with the token, if it is not empty) and the status of
    the query, even when the first is rejected.  When one of them is
    rejected it throws that rejection; when both are, it throws the one
    of the two that arrives first.  Otherwise it returns a text that
    tells the number of rows, shows the first entry of every cell of
    every row, says so when there are no rows, and repeats the token of
    the next page when the service gave one. *)
Theorem handleGetQueryResults_page (config : CloudTrailConfig.t)
    (args : GetQueryResultsArgs.t) (w : World) :
  exists client,
    Client.region client = regionOf config (GetQueryResultsArgs.region args) w /\
    let queryId := GetQueryResultsArgs.queryId args in
    let req := resultsRequest args in
    let w1 := emit (resultsEvent client req) w in
    let w2 := emit (describeEvent client queryId) w1 in
    match onGetQueryResults (cloudtrail w) (trace w) client req,
          onDescribeQuery (cloudtrail w1) (trace w1) client
            (DescribeQueryInput.mk queryId) with
    | inl e, inr _ => handleGetQueryResults config args w = (Throw e, w2)
    | inr _, inl e => handleGetQueryResults config args w = (Throw e, w2)
    | inl e, inl e' =>
        handleGetQueryResults config args w
        = (Throw (if firstRejectedFirst (cloudtrail w) (trace w) then e else e'),
           w2) /\
        (fst (handleGetQueryResults config args w) = Throw e \/
         fst (handleGetQueryResults config args w) = Throw e')
    | inr results, inr status =>
        let rows := orElse (GetQueryResultsOutput.QueryResultRows results) [] in
        exists text,
          handleGetQueryResults config args w = (Return text, w2) /\
          includes ("Rows:     " ++ showZ (Z.of_nat (List.length rows))) text /\
          (rows = [] -> includes "No results returned." text) /\
          (forall row key val rest,
             In row rows -> In ((key, val) :: rest) row ->
             includes ("  " ++ key ++ ": " ++ val) text) /\
          (forall token,
             GetQueryResultsOutput.NextToken results = Some token ->
             token <> "" ->
             includes ("  nextToken: " ++ token) text)
    end.
Proof.
  destruct (createCloudTrailClient_pure config
              (regionOf config (GetQueryResultsArgs.region args) w) w)
    as (client & Hclient & Hregion).
  exists client. split; [exact Hregion|]. cbv zeta.
  rewrite (handleGetQueryResults_steps config args w client Hclient).
  cbv zeta.
  destruct (onGetQueryResults _ _ _ _) as [e|results];
    destruct (onDescribeQuery _ _ _ _) as [e'|status];
    [ split; [reflexivity|]; cbn [fst];
      destruct (firstRejectedFirst _ _); auto
    | reflexivity | reflexivity | ].
  eexists. split; [reflexivity|].
  set (rows := orElse (GetQueryResultsOutput.QueryResultRows results) []).
  set (lines0 := [_; _; _; _; _]).
  set (lines1 := match DescribeQueryOutput.QueryStatistics status with
                 | Some s => _ | None => _ end).
  set (lines2 := match rows with [] => _ | _ => _ end).
  assert (H01 : forall l, In l lines0 -> In l lines1).
  { intros l Hl. subst lines1.
    destruct (DescribeQueryOutput.QueryStatistics status) as [s|]; [|exact Hl].
    destruct (QueryStats.EventsMatched s), (QueryStats.ExecutionTimeInMillis s);
      cbn [option_map pushIf]; unfold push;
      repeat (apply in_or_app; left); exact Hl. }
  assert (H12 : forall l, In l lines1 -> In l lines2).
  { intros l Hl. subst lines2. destruct rows;
      [unfold push | unfold pushAll]; apply in_or_app; now left. }
  assert (H2 : forall l, In l lines2 ->
               In l (if truthy (GetQueryResultsOutput.NextToken results)
                     then pushAll lines2
                            [ "";
                              "⟶ More results available. Use nextToken for the next page:";
                              "  nextToken: " ++
                                orElse (GetQueryResultsOutput.NextToken results) "" ]
                     else lines2)).
  { intros l Hl. destruct (truthy _); [|exact Hl].
    unfold pushAll. apply in_or_app. now left. }
  split; [|split; [|split]].
  - apply includes_join, H2, H12, H01. subst lines0. simpl. auto.
  - intros Hrows. apply includes_join, H2. subst lines2. rewrite Hrows.
    unfold push. apply in_or_app. right. now left.
  - intros row key val rest Hrow Hcell.
    apply includes_join, H2. subst lines2.
    destruct rows as [|r rs] eqn:E; [destruct Hrow|].
    unfold pushAll. apply in_or_app. right.
    apply (formatRows_cell row ((key, val) :: rest) (r :: rs) 0 Hrow Hcell).
  - intros token Htoken Hne. apply includes_join.
    rewrite Htoken. simpl. apply String.eqb_neq in Hne. rewrite Hne. simpl.
    unfold pushAll. apply in_or_app. right. simpl. auto.
Qed.

End LakeMore.

(* ===================================================================== *)
(** * The status of a query *)
(* ===================================================================== *)

(** Membership in lines built by pushes, once the tests are decided. *)
Ltac disjunct :=
  solve [ reflexivity | left; disjunct | right; disjunct ].

Ltac member :=
  cbn [option_map Lake.pushIf]; unfold push, pushAll;
  repeat rewrite in_app_iff; cbn [In]; disjunct.

Section QueryStatus.
Variable host : Host.
Import LakeStatus.

(** [handleGetQueryStatus], step by step. *)
Lemma handleGetQueryStatus_steps (config : CloudTrailConfig.t)
    (args : GetQueryStatusArgs.t) (w : World) (client : Client.t) :
  let region := regionOf config (GetQueryStatusArgs.region args) w in
  let queryId := GetQueryStatusArgs.queryId args in
  let w1 := emit (describeEvent client queryId) w in
  Api.createCloudTrailClient config (Some region) w = (Return client, w) ->
  handleGetQueryStatus host config args w
  = match onDescribeQuery (cloudtrail w) (trace w) client
            (DescribeQueryInput.mk queryId) with
    | inl e => (Throw e, w1)
    | inr response =>
        (Return (join nl (statusLines host region queryId response)), w1)
    end.
Proof.
  intros region queryId w1 Hclient. subst w1 queryId.
  unfold regionOf in region.
  unfold handleGetQueryStatus, bind at 1 2, getenv.
  fold region. rewrite Hclient.
  unfold bind, sendDescribeQuery, send, describeEvent.
  destruct (onDescribeQuery _ _ _ _) as [e|response]; reflexivity.
Qed.

(** X5.  [handleGetQueryStatus] makes one request, the status query for
    the given id.  It throws the rejection of that request; otherwise it
    returns a text with the query id and the status (UNKNOWN when the
    answer carries none), and with the error message, the delivery
    location and the bytes scanned whenever the answer has them; a
    delivery without a delivery status is shown as Unknown. *)
Theorem handleGetQueryStatus_report (config : CloudTrailConfig.t)
    (args : GetQueryStatusArgs.t) (w : World) :
  exists client,
    Client.region client = regionOf config (GetQueryStatusArgs.region args) w /\
    let queryId := GetQueryStatusArgs.queryId args in
    let w1 := emit (describeEvent client queryId) w in
    match onDescribeQuery (cloudtrail w) (trace w) client
            (DescribeQueryInput.mk queryId) with
    | inl e => handleGetQueryStatus host config args w = (Throw e, w1)
    | inr response =>
        exists text,
          handleGetQueryStatus host config args w = (Return text, w1) /\
          includes ("Query ID: " ++ queryId) text /\
          includes
            ("Status:   " ++
             orElse (DescribeQueryOutput.QueryStatus response) "UNKNOWN") text /\
          (forall message,
             DescribeQueryOutput.ErrorMessage response = Some message ->
             message <> "" ->
             includes ("Error: " ++ message) text) /\
          (forall uri,
             DescribeQueryOutput.DeliveryS3Uri response = Some uri ->
             uri <> "" ->
             includes ("Delivery S3 URI: " ++ uri) text /\
             includes
               ("Delivery status: " ++
                orElse (DescribeQueryOutput.DeliveryStatus response) "Unknown")
               text) /\
          (forall stats n,
             DescribeQueryOutput.QueryStatistics response = Some stats ->
             QueryStats.BytesScanned stats = Some n ->
             includes ("  Bytes scanned:  " ++ toFixed2_1024 host n ++ " KB") text)
    end.
Proof.
  destruct (createCloudTrailClient_pure config
              (regionOf config (GetQueryStatusArgs.region args) w) w)
    as (client & Hclient & Hregion).
  exists client. split; [exact Hregion|]. cbv zeta.
  rewrite (handleGetQueryStatus_steps config args w client Hclient).
  destruct (onDescribeQuery _ _ _ _) as [e|response]; [reflexivity|].
  eexists. split; [reflexivity|].
  destruct response as [status stats err uri delivery].
  unfold statusLines.
  cbn [DescribeQueryOutput.QueryStatus
    DescribeQueryOutput.QueryStatistics DescribeQueryOutput.ErrorMessage
    DescribeQueryOutput.DeliveryS3Uri DescribeQueryOutput.DeliveryStatus].
  split; [|split; [|split; [|split]]].
  - apply includes_join.
    destruct stats as [[m sc b t]|]; [destruct m, sc, b, t|];
      destruct (truthy err), (truthy uri); member.
  - apply includes_join.
    destruct stats as [[m sc b t]|]; [destruct m, sc, b, t|];
      destruct (truthy err), (truthy uri); member.
  - intros message -> Hne. apply String.eqb_neq in Hne.
    apply includes_join. cbn [truthy orElse]. rewrite Hne. cbn [negb].
    destruct stats as [[m sc b t]|]; [destruct m, sc, b, t|];
      destruct (truthy uri); member.
  - intros u -> Hne. apply String.eqb_neq in Hne.
    cbn [truthy orElse]. rewrite Hne. cbn [negb].
    split; apply includes_join;
      destruct stats as [[m sc b t]|]; [destruct m, sc, b, t| |destruct m, sc, b, t|];
      destruct (truthy err); member.
  - intros st n [= ->] Hbytes. apply includes_join.
    destruct st as [m sc b t]. cbn in Hbytes. subst b.
    destruct m, sc, t; destruct (truthy err), (truthy uri); member.
Qed.

(** X6.  The bytes scanned are shown in kilobytes with two decimals: for
    a count that is not negative and below the magnitude from which
    [toFixed] changes its notation (1e21 kilobytes), the figure shown is
    the count divided by 1024 and rounded to the nearest hundredth (so it
    is off by at most half a hundredth), and a whole number [k] of
    kilobytes is shown as [k.00]. *)
Theorem toFixed2_1024_rounds (n : Z) :
  0 <= n < toFixedLimit ->
  exists units hundredths,
    toFixed2_1024 host n = showZ units ++ "." ++ pad2 hundredths /\
    0 <= units /\ 0 <= hundredths < 100 /\
    Z.abs (1024 * (100 * units + hundredths) - 100 * n) <= 512 /\
    (forall k, n = 1024 * k -> units = k /\ hundredths = 0).
Proof.
  intros [Hn Hlimit]. unfold toFixed2_1024.
  assert (Hsmall : (toFixedLimit <=? Z.abs n) = false)
    by (apply Z.leb_gt; lia).
  rewrite Hsmall. cbv zeta.
  set (h := (100 * Z.abs n + 512) / 1024).
  exists (h / 100), (h mod 100).
  assert (Habs : Z.abs n = n) by lia.
  assert (Hh : 1024 * h <= 100 * n + 512 < 1024 * h + 1024).
  { subst h. rewrite Habs.
    pose proof (Z.div_mod (100 * n + 512) 1024 ltac:(lia)) as Hdm.
    pose proof (Z.mod_pos_bound (100 * n + 512) 1024 ltac:(lia)). lia. }
  assert (Hh0 : 0 <= h) by lia.
  pose proof (Z.div_mod h 100 ltac:(lia)) as Hdm.
  pose proof (Z.mod_pos_bound h 100 ltac:(lia)) as Hmod.
  assert (Hneg : (n <? 0) = false) by (apply Z.ltb_ge; lia).
  rewrite Hneg. split; [reflexivity|].
  split; [apply Z.div_pos; lia|]. split; [exact Hmod|].
  split; [lia|].
  intros k ->. assert (h = 100 * k) by lia. subst h.
  split.
  - rewrite H. rewrite Z.mul_comm. apply Z.div_mul. lia.
  - rewrite H. rewrite Z.mul_comm. apply Z.mod_mul. lia.
Qed.

End QueryStatus.

(* ===================================================================== *)
(** * The list of event data stores *)
(* ===================================================================== *)

Section StoreList.
Variable host : Host.
Import LakeStores.

(** A step that returns hands its value and its world to the rest. *)
Lemma bindS_run {A B : Type} (m : MS A) (k : A -> MS B)
    (sw sw' : StoreWorld) (a : A) :
  m sw = (Return a, sw') -> bindS m k sw = k a sw'.
Proof. intros H. unfold bindS. now rewrite H. Qed.

(** Without details the loop over the stores makes no request. *)
Lemma describeStores_quiet (client : Client.t) :
  forall (storeList : list EventDataStore.t) (i : Z) (lines : list string)
         (sw : StoreWorld),
    exists r, describeStores host client false i storeList lines sw = (r, sw).
Proof.
  induction storeList as [|store rest IH]; intros i lines sw.
  - eexists. reflexivity.
  - cbn [describeStores andb]. unfold bindS.
    destruct (EventDataStore.CreatedTimestamp store) as [[t|]|]; cbn.
    + apply IH.
    + eexists. reflexivity.
    + apply IH.
Qed.

(** With stores whose creation times can be shown, the loop returns: it
    keeps the lines it was given, makes one request for details per store
    that has an ARN when details are wanted, and stands in a line for the
    details of each store whose request was rejected. *)
Lemma describeStores_run (client : Client.t) (includeDetails : bool) :
  forall (storeList : list EventDataStore.t) (i : Z) (lines : list string)
         (sw : StoreWorld),
    Forall datable storeList ->
    exists lines',
      describeStores host client includeDetails i storeList lines sw
      = (Return lines',
         withRequests sw
           (requests sw ++
            (if includeDetails then detailRequests client storeList else []))) /\
      (forall l, In l lines -> In l lines') /\
      (includeDetails = true -> rejectsDetails (stores sw) ->
       forall store,
         In store storeList ->
         truthy (EventDataStore.EventDataStoreArn store) = true ->
         In unableToRetrieve lines').
Proof.
  induction storeList as [|store rest IH]; intros i lines sw Hok.
  - exists lines. split; [|split].
    + cbn. unfold retS, withRequests.
      destruct sw, includeDetails; cbn; now rewrite app_nil_r.
    + auto.
    + intros _ _ store [].
  - inversion Hok as [|? ? Hstore Hrest]; subst.
    cbn [describeStores].
    set (lines1 := Lake.pushIf _ _).
    assert (H01 : forall l, In l lines -> In l lines1).
    { intros l Hl. subst lines1.
      destruct (EventDataStore.RetentionPeriod store);
        cbn [option_map Lake.pushIf]; unfold push;
        repeat (apply in_or_app; left); exact Hl. }
    clearbody lines1.
    assert (Hcreated : exists lines2,
               match EventDataStore.CreatedTimestamp store with
               | Some d =>
                   created <~ liftS (toISOString host d) ;;
                   retS (push lines1 ("Created: " ++ created))
               | None => retS lines1
               end sw = (Return lines2, sw) /\
               forall l, In l lines1 -> In l lines2).
    { unfold datable in Hstore.
      destruct (EventDataStore.CreatedTimestamp store) as [[t|]|].
      - eexists. split; [reflexivity|]. intros l Hl.
        unfold push. apply in_or_app. now left.
      - now contradiction Hstore.
      - eexists. split; [reflexivity|]. auto. }
    destruct Hcreated as (lines2 & Hcreated & H12).
    rewrite (bindS_run _ _ _ _ _ Hcreated). clear Hcreated.
    assert (H02 : forall l, In l lines -> In l lines2) by auto.
    clear H01 H12.
    unfold bindS.
    destruct includeDetails.
    + cbn [andb].
      destruct (truthy (EventDataStore.EventDataStoreArn store)) eqn:Harn.
      * unfold tryCatch, sendGetEventDataStore.
        destruct (onGetEventDataStore (stores sw) (requests sw) client
                    (orElse (EventDataStore.EventDataStoreArn store) ""))
          as [e|details] eqn:Hget.
        -- cbn [retS].
           destruct (IH (i + 1) (push (push lines2 unableToRetrieve) "")
                       (record client
                          (GetEventDataStoreCommand
                             (orElse (EventDataStore.EventDataStoreArn store) ""))
                          sw) Hrest)
             as (lines' & Hrun & Hkeep & Hunable).
           exists lines'. split; [|split].
           ++ rewrite Hrun. f_equal. unfold withRequests, record. cbn.
              unfold detailRequests, arnsOf. cbn [flat_map]. rewrite Harn.
              cbn [map app]. now rewrite <- app_assoc.
           ++ intros l Hl. apply Hkeep. unfold push.
              repeat (apply in_or_app; left). auto.
           ++ intros _ Hrej st [<-|Hin] Hst.
              ** apply Hkeep. unfold push. apply in_or_app. left.
                 apply in_or_app. right. now left.
              ** now apply (Hunable eq_refl Hrej st).
        -- cbn [retS].
           destruct (IH (i + 1) (push (detailLines lines2 details) "")
                       (record client
                          (GetEventDataStoreCommand
                             (orElse (EventDataStore.EventDataStoreArn store) ""))
                          sw) Hrest)
             as (lines' & Hrun & Hkeep & Hunable).
           exists lines'. split; [|split].
           ++ rewrite Hrun. f_equal. unfold withRequests, record. cbn.
              unfold detailRequests, arnsOf. cbn [flat_map]. rewrite Harn.
              cbn [map app]. now rewrite <- app_assoc.
           ++ intros l Hl. apply Hkeep. unfold push. apply in_or_app. left.
              unfold detailLines.
              destruct (GetEventDataStoreOutput.MultiRegionEnabled details),
                (GetEventDataStoreOutput.OrganizationEnabled details),
                (GetEventDataStoreOutput.AdvancedEventSelectors details)
                  as [[|? ?]|];
                cbn [option_map Lake.pushIf]; unfold push;
                repeat (apply in_or_app; left); auto.
           ++ intros _ Hrej st [<-|Hin] Hst.
              ** exfalso. destruct (Hrej (requests sw) client
                            (orElse (EventDataStore.EventDataStoreArn store) ""))
                   as (e & He).
                 rewrite He in Hget. discriminate.
              ** now apply (Hunable eq_refl Hrej st).
      * cbn [retS].
        destruct (IH (i + 1) (push lines2 "") sw Hrest)
          as (lines' & Hrun & Hkeep & Hunable).
        exists lines'. split; [|split].
        -- rewrite Hrun. f_equal. unfold detailRequests, arnsOf.
           cbn [flat_map]. now rewrite Harn.
        -- intros l Hl. apply Hkeep. unfold push. apply in_or_app. left. auto.
        -- intros _ Hrej st [<-|Hin] Hst; [congruence|].
           now apply (Hunable eq_refl Hrej st).
    + cbn [andb retS].
      destruct (IH (i + 1) (push lines2 "") sw Hrest)
        as (lines' & Hrun & Hkeep & _).
      exists lines'. split; [|split].
      * exact Hrun.
      * intros l Hl. apply Hkeep. unfold push. apply in_or_app. left. auto.
      * discriminate.
Qed.

(** The handler up to the loop: the client is made for the resolved
    region without touching the world, the list of stores is asked for
    once, and the answer decides what follows. *)
Lemma handleListEventDataStores_steps (config : CloudTrailConfig.t)
    (args : ListEventDataStoresArgs.t) (sw : StoreWorld) :
  exists client,
    Api.createCloudTrailClient config (Some (storeRegion config args sw))
      (world sw) = (Return client, world sw) /\
    Client.region client = storeRegion config args sw /\
    handleListEventDataStores host config args sw =
      match onListEventDataStores (stores sw) (requests sw) client with
      | inl e => (Throw e, record client ListEventDataStoresCommand sw)
      | inr response =>
          match orElse (ListEventDataStoresOutput.EventDataStores response) [] with
          | [] =>
              (Return
                 (join nl
                    (push (storeHeader (storeRegion config args sw) 0) noStores)),
               record client ListEventDataStoresCommand sw)
          | store :: rest =>
              (lines <~
                 describeStores host client
                   (orElse (ListEventDataStoresArgs.includeDetails args) true)
                   0 (store :: rest)
                   (storeHeader (storeRegion config args sw)
                      (List.length (store :: rest))) ;;
               retS (join nl (push lines tip)))
                (record client ListEventDataStoresCommand sw)
          end
      end.
Proof.
  destruct (createCloudTrailClient_pure config (storeRegion config args sw)
              (world sw)) as (client & Hclient & Hregion).
  exists client. split; [exact Hclient|]. split; [exact Hregion|].
  unfold handleListEventDataStores.
  unfold bindS at 1. unfold inWorld at 1, getenv. cbv beta iota zeta.
  unfold bindS at 1. unfold inWorld at 1. cbn [world stores requests].
  fold (storeRegion config args sw). rewrite Hclient.
  unfold bindS at 1. unfold sendListEventDataStores.
  cbn [world stores requests].
  destruct (onListEventDataStores (stores sw) (requests sw) client)
    as [e|response]; [reflexivity|].
  destruct (orElse (ListEventDataStoresOutput.EventDataStores response) []);
    reflexivity.
Qed.

(** X7.  When the caller turns the details off, the handler makes exactly
    one request, the one for the list of stores, with a client of the
    resolved region: whatever the service answers, however many stores
    it lists, and whether the handler returns or fails. *)
Theorem handleListEventDataStores_quiet (config : CloudTrailConfig.t)
    (args : ListEventDataStoresArgs.t) (sw : StoreWorld) :
  ListEventDataStoresArgs.includeDetails args = Some false ->
  exists client r,
    Client.region client = storeRegion config args sw /\
    handleListEventDataStores host config args sw
    = (r, withRequests sw (requests sw ++ [listRequest client])).
Proof.
  intros Hoff.
  destruct (handleListEventDataStores_steps config args sw)
    as (client & _ & Hregion & ->).
  exists client. rewrite Hoff. cbn [orElse].
  destruct (onListEventDataStores (stores sw) (requests sw) client)
    as [e|response].
  - eexists. split; [exact Hregion|]. reflexivity.
  - destruct (orElse (ListEventDataStoresOutput.EventDataStores response) [])
      as [|store rest].
    + eexists. split; [exact Hregion|]. reflexivity.
    + destruct (describeStores_quiet client (store :: rest) 0
                  (storeHeader (storeRegion config args sw)
                     (List.length (store :: rest)))
                  (record client ListEventDataStoresCommand sw))
        as (r & Hrun).
      unfold bindS. rewrite Hrun.
      destruct r as [lines|e]; eexists; (split; [exact Hregion|]);
        reflexivity.
Qed.

(** X8.  When the list of stores is answered and every creation time in
    it can be shown, the handler returns a text, never an error: not
    even when every request for details is rejected.  It has asked for
    the list once and then, unless the details were turned off, for the
    details of each store that has an ARN, in the order of the list, and
    of no other.  The text shows the region and the number of stores; it
    ends the list with the tip, or says that there are no stores; and it
    carries the line that stands in for the details when a store with an
    ARN had its request rejected. *)
Theorem handleListEventDataStores_details (config : CloudTrailConfig.t)
    (args : ListEventDataStoresArgs.t) (sw : StoreWorld)
    (response : ListEventDataStoresOutput.t) :
  let region := storeRegion config args sw in
  let includeDetails :=
    orElse (ListEventDataStoresArgs.includeDetails args) true in
  let storeList :=
    orElse (ListEventDataStoresOutput.EventDataStores response) [] in
  (forall client,
      Client.region client = region ->
      onListEventDataStores (stores sw) (requests sw) client = inr response) ->
  Forall datable storeList ->
  exists client text,
    Client.region client = region /\
    handleListEventDataStores host config args sw
    = (Return text,
       withRequests sw
         (requests sw ++
          listRequest client ::
          (if includeDetails then detailRequests client storeList else []))) /\
    includes ("(region: " ++ region ++ ")") text /\
    includes
      ("Found: " ++ showZ (Z.of_nat (List.length storeList)) ++ " store(s)")
      text /\
    includes (match storeList with [] => noStores | _ => tip end) text /\
    (includeDetails = true ->
     rejectsDetails (stores sw) ->
     (exists store,
         In store storeList /\
         truthy (EventDataStore.EventDataStoreArn store) = true) ->
     includes unableToRetrieve text).
Proof.
  intros region includeDetails storeList Hlist Hdates.
  destruct (handleListEventDataStores_steps config args sw)
    as (client & _ & Hregion & ->).
  exists client. rewrite (Hlist client Hregion).
  fold storeList region includeDetails.
  destruct storeList as [|store rest] eqn:Hstores.
  - eexists. split; [exact Hregion|]. split; [|split; [|split; [|split]]].
    + unfold withRequests, record, listRequest.
      destruct includeDetails; reflexivity.
    + apply includes_trans with
        (y := "CloudTrail Lake Event Data Stores (region: " ++ region ++ ")").
      * exists "CloudTrail Lake Event Data Stores ", "".
        rewrite append_empty_r. reflexivity.
      * apply includes_join. unfold push, storeHeader. cbn. auto.
    + apply includes_join. unfold push, storeHeader. cbn. auto.
    + apply includes_join. unfold push, storeHeader. cbn. auto.
    + intros _ _ (store & [] & _).
  - destruct (describeStores_run client includeDetails (store :: rest) 0
                (storeHeader region (List.length (store :: rest)))
                (record client ListEventDataStoresCommand sw) Hdates)
      as (lines & Hrun & Hkeep & Hunable).
    rewrite (bindS_run _ _ _ _ _ Hrun).
    eexists. split; [exact Hregion|]. split; [|split; [|split; [|split]]].
    + unfold retS. f_equal. unfold withRequests, record, listRequest.
      cbn [world stores requests]. now rewrite <- app_assoc.
    + apply includes_trans with
        (y := "CloudTrail Lake Event Data Stores (region: " ++ region ++ ")").
      * exists "CloudTrail Lake Event Data Stores ", "".
        rewrite append_empty_r. reflexivity.
      * apply includes_join. unfold push. apply in_or_app. left.
        apply Hkeep. unfold storeHeader. cbn. auto.
    + apply includes_join. unfold push. apply in_or_app. left.
      apply Hkeep. unfold storeHeader. cbn [In]. auto.
    + apply includes_join. unfold push. apply in_or_app. right. now left.
    + intros Hwanted Hrejects (st & Hin & Harn).
      apply includes_join. unfold push. apply in_or_app. left.
      exact (Hunable Hwanted Hrejects st Hin Harn).
Qed.

(** A creation time that cannot be shown stops the loop with the error
    of the host: the stores before it only make requests that never
    fail the loop. *)
Lemma describeStores_invalid_date (client : Client.t) (includeDetails : bool) :
  forall (storeList : list EventDataStore.t) (i : Z) (lines : list string)
         (sw : StoreWorld),
    Exists
      (fun store => EventDataStore.CreatedTimestamp store = Some InvalidDate)
      storeList ->
    exists sw',
      describeStores host client includeDetails i storeList lines sw
      = (Throw (RangeError "Invalid time value"), sw').
Proof.
  induction storeList as [|store rest IH]; intros i lines sw Hbad.
  - inversion Hbad.
  - cbn [describeStores]. unfold bindS at 1.
    destruct (EventDataStore.CreatedTimestamp store) as [[t|]|] eqn:Hdate.
    + assert (Hrest : Exists
                (fun store =>
                   EventDataStore.CreatedTimestamp store = Some InvalidDate)
                rest).
      { inversion Hbad as [? ? Hhere|? ? Hlater]; subst;
          [congruence | exact Hlater]. }
      cbn [toISOString liftS bindS retS]. unfold bindS at 1, retS at 1.
      unfold bindS.
      destruct includeDetails; cbn [andb];
        [destruct (truthy (EventDataStore.EventDataStoreArn store))|];
        unfold tryCatch, sendGetEventDataStore, bindS, retS;
        try destruct (onGetEventDataStore _ _ _ _);
        apply IH, Hrest.
    + eexists. reflexivity.
    + assert (Hrest : Exists
                (fun store =>
                   EventDataStore.CreatedTimestamp store = Some InvalidDate)
                rest).
      { inversion Hbad as [? ? Hhere|? ? Hlater]; subst;
          [congruence | exact Hlater]. }
      unfold retS at 1. unfold bindS.
      destruct includeDetails; cbn [andb];
        [destruct (truthy (EventDataStore.EventDataStoreArn store))|];
        unfold tryCatch, sendGetEventDataStore, bindS, retS;
        try destruct (onGetEventDataStore _ _ _ _);
        apply IH, Hrest.
Qed.

(** X9.  The creation time of a store is shown outside the [try] block:
    when the list that the service answers holds a store whose creation
    time is the invalid date, the handler fails with the host's
    [RangeError] instead of returning the list, with or without
    details. *)
Theorem handleListEventDataStores_invalid_date (config : CloudTrailConfig.t)
    (args : ListEventDataStoresArgs.t) (sw : StoreWorld)
    (response : ListEventDataStoresOutput.t) :
  (forall client,
      Client.region client = storeRegion config args sw ->
      onListEventDataStores (stores sw) (requests sw) client = inr response) ->
  Exists
    (fun store => EventDataStore.CreatedTimestamp store = Some InvalidDate)
    (orElse (ListEventDataStoresOutput.EventDataStores response) []) ->
  exists sw',
    handleListEventDataStores host config args sw
    = (Throw (RangeError "Invalid time value"), sw').
Proof.
  intros Hlist Hbad.
  destruct (handleListEventDataStores_steps config args sw)
    as (client & _ & Hregion & ->).
  rewrite (Hlist client Hregion).
  destruct (orElse (ListEventDataStoresOutput.EventDataStores response) [])
    as [|store rest]; [inversion Hbad|].
  destruct (describeStores_invalid_date client
              (orElse (ListEventDataStoresArgs.includeDetails args) true)
              (store :: rest) 0
              (storeHeader (storeRegion config args sw)
                 (List.length (store :: rest)))
              (record client ListEventDataStoresCommand sw) Hbad)
    as (sw' & Hrun).
  exists sw'. unfold bindS. now rewrite Hrun.
Qed.

End StoreList.

(* ===================================================================== *)
(** * The tools and the token ceiling of the server *)
(* ===================================================================== *)

(** What [trimStart] leaves is the end of the string. *)
Lemma trimStart_suffix :
  forall (n : nat) (s : string),
    (String.length s <= n)%nat -> exists pre, s = pre ++ trimStart s.
Proof.
  induction n as [|n IH]; intros s Hlen.
  - destruct s; [now exists "" | cbn in Hlen; lia].
  - destruct s as [|a r1]; [now exists ""|].
    cbn [String.length] in Hlen. cbn [trimStart].
    destruct (space1 a).
    { destruct (IH r1 ltac:(lia)) as (pre & Hpre).
      exists (String a pre). cbn [append]. now rewrite <- Hpre. }
    destruct r1 as [|b r2]; [now exists ""|].
    cbn [String.length] in Hlen.
    destruct (space2 a b).
    { destruct (IH r2 ltac:(lia)) as (pre & Hpre).
      exists (String a (String b pre)). cbn [append]. now rewrite <- Hpre. }
    destruct r2 as [|c r3]; [now exists ""|].
    cbn [String.length] in Hlen.
    destruct (space3 a b c); [|now exists ""].
    destruct (IH r3 ltac:(lia)) as (pre & Hpre).
    exists (String a (String b (String c pre))). cbn [append].
    now rewrite <- Hpre.
Qed.

Lemma noDigit_trimStart (s : string) :
  noDigit s = true -> noDigit (trimStart s) = true.
Proof.
  unfold noDigit. intros H.
  destruct (trimStart_suffix (String.length s) s (Nat.le_refl _))
    as (pre & Hpre).
  rewrite Hpre, allb_app in H. now apply andb_prop in H as [_ H].
Qed.

Lemma span_noDigit (s : string) :
  noDigit s = true -> fst (span isDigit s) = "".
Proof.
  unfold noDigit. destruct s as [|c s]; [reflexivity|].
  cbn [allb span]. intros H. apply andb_prop in H as [H _].
  apply negb_true_iff in H. now rewrite H.
Qed.

Lemma span_all (p : ascii -> bool) (s : string) :
  allb p s = true -> span p s = (s, "").
Proof.
  induction s as [|c s IH]; [reflexivity|].
  cbn [allb span]. intros H. apply andb_prop in H as [Hc Hs].
  now rewrite Hc, (IH Hs).
Qed.

(** [parseInt] finds no number in a text without digits. *)
Lemma parseInt_noDigit (host : Host) (s : string) :
  noDigit s = true -> Index.parseInt host s = NaN.
Proof.
  intros H. apply noDigit_trimStart in H. unfold Index.parseInt.
  destruct (trimStart s) as [|c r]; [reflexivity|].
  assert (Hr : noDigit r = true).
  { unfold noDigit in *. cbn [allb] in H. now apply andb_prop in H as [_ H]. }
  assert (Hcr : fst (span isDigit (String c r)) = "") by now apply span_noDigit.
  apply span_noDigit in Hr.
  destruct c as [[] [] [] [] [] [] [] []];
    cbv beta iota;
    try (destruct (span isDigit r) as [digits rest]; cbn [fst] in Hr;
         subst digits; reflexivity);
    destruct (span isDigit (String _ r)) as [digits rest]; cbn [fst] in Hcr;
    subst digits; reflexivity.
Qed.

(** [parseInt] reads back the decimal digits of a natural number that is
    a number. *)
Lemma parseInt_showN (host : Host) (n : N) :
  (n <= maxSafeInteger)%N ->
  Index.parseInt host (showN n) = Num (Z.of_N n).
Proof.
  intros Hsafe. unfold Index.parseInt.
  destruct (showN_cons n) as (c & s & E & Hc & Hs).
  assert (Hall : allb isDigit (showN n) = true) by apply showN_digits.
  assert (Htrim : trimStart (showN n) = showN n).
  { rewrite E.
    apply trimStart_keep; [now apply digit_ascii | now apply digit_not_space]. }
  rewrite Htrim.
  assert (Hsign :
            match showN n with
            | String "-" r => (-1, r)
            | String "+" r => (1, r)
            | _ => (1, showN n)
            end = (1, showN n)).
  { rewrite E.
    destruct c as [[] [] [] [] [] [] [] []]; try reflexivity; discriminate. }
  rewrite Hsign. rewrite (span_all isDigit _ Hall).
  rewrite parseInt10_showN, Z.mul_1_l. rewrite E at 1. cbn [String.eqb].
  assert (Hle : (Z.abs (Z.of_N n) <=? Z.of_N maxSafeInteger) = true)
    by (apply Z.leb_le; lia).
  now rewrite Hle.
Qed.

Section Tools.
Variable host : Host.
Import TokenLimiter EventsTools LakeTools.

(** The common tail of the callbacks, run. *)
Lemma guarded_run (ceiling : number) (bypass : bool) (text : string)
    (w : World) :
  guarded host ceiling bypass text w
  = if bypass then (Return (textItem text), w)
    else
      match tiktoken_encode host "gpt-4" text with
      | inl e => (Throw e, emits tokenizing w)
      | inr ids =>
          (Return
             (textItem
                (if gt (Num (tokenCount ids)) ceiling
                 then tokenLimitExceeded host (tokenCount ids) ceiling
                 else text)),
           emits tokenizing w)
      end.
Proof.
  unfold guarded, checkTokenLimit, calculateTokens, bind, ret, textItem,
    tokenCount, tokenizing.
  destruct bypass; [reflexivity|].
  destruct (tiktoken_encode host "gpt-4" text) as [e|ids];
    cbv beta iota zeta; [reflexivity|].
  destruct (gt _ ceiling); reflexivity.
Qed.

Lemma gt_exceeds (count : Z) (limit : number) :
  gt (Num count) limit = true <-> exceeds count limit.
Proof.
  destruct limit as [l|n d| | |]; cbn [gt exceeds].
  - apply Z.ltb_lt.
  - apply Z.ltb_lt.
  - split; [discriminate | contradiction].
  - split; auto.
  - split; [discriminate | contradiction].
Qed.

(** X10.  What every tool does with the text of its handler.  With the
    bypass on, it answers with the text as its one item of type text,
    and the tokenizer is not run.  Otherwise the tokenizer is run once.
    If it encodes the text, the tool answers with one item of type text:
    the message of the check, which always exists then, when the count
    exceeds the ceiling, and the text when it does not.  If it refuses
    the text, its error leaves the tool: that is the only way in which
    this part of a tool fails. *)
Theorem guarded_content (ceiling : number) (bypass : bool) (text : string)
    (w : World) :
  if bypass then guarded host ceiling bypass text w = (Return (textItem text), w)
  else
    match tiktoken_encode host "gpt-4" text with
    | inl e => guarded host ceiling bypass text w = (Throw e, emits tokenizing w)
    | inr ids =>
        exists shown,
          guarded host ceiling bypass text w
          = (Return (textItem shown), emits tokenizing w) /\
          (exceeds (tokenCount ids) ceiling ->
           shown = tokenLimitExceeded host (tokenCount ids) ceiling) /\
          (~ exceeds (tokenCount ids) ceiling -> shown = text)
    end.
Proof.
  rewrite guarded_run. destruct bypass; [reflexivity|].
  destruct (tiktoken_encode host "gpt-4" text) as [e|ids]; [reflexivity|].
  eexists. split; [reflexivity|].
  destruct (gt (Num (tokenCount ids)) ceiling) eqn:G.
  - split; [reflexivity|]. intros Hnot. apply gt_exceeds in G. contradiction.
  - split; [|reflexivity]. intros Hex. apply gt_exceeds in Hex. congruence.
Qed.

(** X11.  The ceiling of the server is [parseInt] of the variable: when
    [MAX_TOKEN_CALL] holds a text without any digit (the empty text
    too), the ceiling is [NaN] and no count exceeds it: a tool hands on
    the text of its handler whatever its size, with the bypass and
    without, whenever the tokenizer encodes it; without the bypass the
    tokenizer still runs, and a text that it refuses makes the tool fail
    with its error. *)
Theorem maxTokenCall_without_digits (server : World) (value : string) :
  env server "MAX_TOKEN_CALL" = Some value ->
  noDigit value = true ->
  Index.maxTokenCall host server = NaN /\
  forall (bypass : bool) (text : string) (w : World),
    guarded host (Index.maxTokenCall host server) bypass text w
    = if bypass then (Return (textItem text), w)
      else
        match tiktoken_encode host "gpt-4" text with
        | inr _ => (Return (textItem text), emits tokenizing w)
        | inl e => (Throw e, emits tokenizing w)
        end.
Proof.
  intros Henv Hdigits.
  assert (Hnan : Index.maxTokenCall host server = NaN).
  { unfold Index.maxTokenCall. rewrite Henv. cbn [orElse].
    now apply parseInt_noDigit. }
  split; [exact Hnan|]. intros bypass text w. rewrite Hnan, guarded_run.
  destruct bypass; [reflexivity|].
  destruct (tiktoken_encode host "gpt-4" text) as [e|ids]; reflexivity.
Qed.

(** X12.  The ceiling is 20000 when [MAX_TOKEN_CALL] is not set, and the
    number written in the variable when it holds the decimal digits of a
    natural number that the host represents exactly. *)
Theorem maxTokenCall_decimal (server : World) (n : N) :
  orElse (env server "MAX_TOKEN_CALL") "20000" = showN n ->
  (n <= maxSafeInteger)%N ->
  Index.maxTokenCall host server = Num (Z.of_N n).
Proof.
  intros Hvalue Hsafe. unfold Index.maxTokenCall. rewrite Hvalue.
  now apply parseInt_showN.
Qed.

(** X13.  [lake_query] validates before it acts: when [sql] is missing or
    is not a string, the tool fails with a schema error that names
    [sql], and nothing has happened: no query is started. *)
Theorem lake_query_requires_sql (config : CloudTrailConfig.t)
    (ceiling : number) (raw : LakeQueryRaw.t) (w : World) :
  requiredString (LakeQueryRaw.sql raw) = None ->
  exists issues,
    In "sql" issues /\
    lake_query host config ceiling raw w = (Throw (ZodError issues), w).
Proof.
  intros Hsql. unfold lake_query, LakeQuerySchema_parse, bind at 1.
  rewrite Hsql. cbv zeta.
  eexists. split; [|reflexivity]. cbn [issue app]. now left.
Qed.


(** X14.  [get_query_results] bounds the page size at the door: a
    [maxResults] below 1 or above 50 makes the tool fail with a schema
    error that names [maxResults], and nothing is sent. *)
Theorem get_query_results_rejects (config : CloudTrailConfig.t)
    (ceiling : number) (raw : GetQueryResultsRaw.t) (v : Z) (w : World) :
  GetQueryResultsRaw.maxResults raw = JNumber v ->
  v < 1 \/ 50 < v ->
  exists issues,
    In "maxResults" issues /\
    get_query_results host config ceiling raw w = (Throw (ZodError issues), w).
Proof.
  intros Hraw Hv.
  unfold get_query_results, GetQueryResultsSchema_parse, bind at 1.
  rewrite Hraw. cbv zeta.
  assert (Hno : optionalMaxResults (JNumber v) = None).
  { unfold optionalMaxResults.
    destruct ((1 <=? v) && (v <=? 50)) eqn:E; [|reflexivity].
    apply andb_prop in E as [E1 E2].
    apply Z.leb_le in E1. apply Z.leb_le in E2. lia. }
  rewrite Hno.
  destruct (requiredString (GetQueryResultsRaw.queryId raw)),
    (optionalString (GetQueryResultsRaw.nextToken raw)),
    (optionalString (GetQueryResultsRaw.region raw)),
    (booleanDefaultFalse (GetQueryResultsRaw.break_token_rule raw));
    eexists; (split; [|reflexivity]); cbn [issue app In]; auto.
Qed.

(** X15.  When the schema of [get_query_results] accepts the arguments,
    the tool sends its two requests, and the page it asks for has the
    size the caller wrote, or 50 when the caller wrote none: on this
    path the clamp of the handler changes nothing. *)
Theorem get_query_results_page_size (config : CloudTrailConfig.t)
    (ceiling : number) (raw : GetQueryResultsRaw.t)
    (args : Lake.GetQueryResultsArgs.t) (bypass : bool) (w : World) :
  GetQueryResultsSchema_parse raw = inr (args, bypass) ->
  let req := resultsRequest args in
  exists client r evs,
    get_query_results host config ceiling raw w
    = (r,
       emits
         (resultsEvent client req ::
          describeEvent client (Lake.GetQueryResultsArgs.queryId args) :: evs)
         w) /\
    GetQueryResultsRaw.queryId raw = JString (GetQueryResultsInput.QueryId req) /\
    GetQueryResultsInput.MaxQueryResults req
    = match GetQueryResultsRaw.maxResults raw with
      | JNumber v => v
      | _ => 50
      end.
Proof.
  intros Hparse req.
  destruct (createCloudTrailClient_pure config
              (regionOf config (Lake.GetQueryResultsArgs.region args) w) w)
    as (client & Hclient & _).
  exists client.
  unfold get_query_results, bind at 1. rewrite Hparse. cbn [lift ret fst snd].
  unfold bind at 1.
  rewrite (handleGetQueryResults_steps config args w client Hclient).
  cbv zeta. fold req.
  assert (Hfields :
            GetQueryResultsRaw.queryId raw
            = JString (GetQueryResultsInput.QueryId req) /\
            GetQueryResultsInput.MaxQueryResults req
            = match GetQueryResultsRaw.maxResults raw with
              | JNumber v => v
              | _ => 50
              end).
  { clear - Hparse. subst req. unfold GetQueryResultsSchema_parse in Hparse.
    destruct (GetQueryResultsRaw.queryId raw) as [| |b|n|q];
      cbn [requiredString] in Hparse;
      try (destruct (optionalMaxResults _), (optionalString _),
             (optionalString _), (booleanDefaultFalse _); discriminate).
    destruct (GetQueryResultsRaw.maxResults raw) as [| |b|v|s];
      cbn [optionalMaxResults] in Hparse;
      try (destruct (optionalString _), (optionalString _),
             (booleanDefaultFalse _); discriminate).
    - destruct (optionalString (GetQueryResultsRaw.nextToken raw)),
        (optionalString (GetQueryResultsRaw.region raw)),
        (booleanDefaultFalse (GetQueryResultsRaw.break_token_rule raw));
        try discriminate.
      injection Hparse as <- _. split; reflexivity.
    - destruct ((1 <=? v) && (v <=? 50)) eqn:E;
        [| destruct (optionalString _), (optionalString _),
             (booleanDefaultFalse _); discriminate ].
      apply andb_prop in E as [E1 E2].
      apply Z.leb_le in E1. apply Z.leb_le in E2.
      destruct (optionalString (GetQueryResultsRaw.nextToken raw)),
        (optionalString (GetQueryResultsRaw.region raw)),
        (booleanDefaultFalse (GetQueryResultsRaw.break_token_rule raw));
        try discriminate.
      injection Hparse as <- _. split; [reflexivity|].
      unfold resultsRequest, Lake.validateMaxResults.
      cbn [Lake.GetQueryResultsArgs.maxResults
             GetQueryResultsInput.MaxQueryResults]. lia. }
  destruct (onGetQueryResults _ _ _ _) as [e|results];
    destruct (onDescribeQuery _ _ _ _) as [e'|status];
    try (eexists (Throw _), []; split; [reflexivity|exact Hfields]).
  rewrite guarded_run.
  destruct bypass; [eexists _, []; split; [reflexivity|exact Hfields]|].
  destruct (tiktoken_encode host "gpt-4" _) as [e|ids];
    eexists _, tokenizing; (split; [reflexivity|exact Hfields]).
Qed.

End Tools.

(* ===================================================================== *)
(** * The text of a page of events *)
(* ===================================================================== *)

Section LookupPage.
Variable host : Host.
Import Events.

(** Every event of the list is shown among the lines of the loop. *)
Lemma formatEvents_shown :
  forall (events : list Event.t) (idx : Z) (lines : list string),
    formatEvents host idx events = inr lines ->
    forall ev,
      In ev events ->
      exists shown,
        Cloudtrail.formatEvent host ev = inr shown /\ In shown lines.
Proof.
  induction events as [|event rest IH]; intros idx lines Hrun ev Hin;
    [destruct Hin|].
  cbn [formatEvents] in Hrun.
  destruct (Cloudtrail.formatEvent host event) as [e|text] eqn:Hevent;
    [discriminate|].
  destruct (formatEvents host (idx + 1) rest) as [e|more] eqn:Hrest;
    [discriminate|].
  injection Hrun as <-.
  destruct Hin as [<-|Hin].
  - exists text. split; [exact Hevent|]. right. now left.
  - destruct (IH (idx + 1) more Hrest ev Hin) as (shown & Hshown & Hmore).
    exists shown. split; [exact Hshown|]. do 3 right. exact Hmore.
Qed.

(** X16.  The loop over the events of a page writes three lines for each
    event, the first of which numbers it: the events are numbered in the
    order of the answer, from [idx + 1] on. *)
Theorem formatEvents_numbered :
  forall (events : list Event.t) (idx : Z) (lines : list string),
    formatEvents host idx events = inr lines ->
    List.length lines = (3 * List.length events)%nat /\
    forall k,
      (k < List.length events)%nat ->
      nth (3 * k) lines ""
      = "─── Event " ++ showZ (idx + Z.of_nat k + 1) ++ " ───".
Proof.
  induction events as [|event rest IH]; intros idx lines Hrun.
  - injection Hrun as <-. split; [reflexivity|]. intros k Hk. inversion Hk.
  - cbn [formatEvents] in Hrun.
    destruct (Cloudtrail.formatEvent host event) as [e|text]; [discriminate|].
    destruct (formatEvents host (idx + 1) rest) as [e|more] eqn:Hrest;
      [discriminate|].
    injection Hrun as <-.
    destruct (IH (idx + 1) more Hrest) as (Hlen & Hnth).
    split.
    + cbn [List.length]. rewrite Hlen. lia.
    + intros [|k] Hk.
      * cbn [Nat.mul nth Z.of_nat]. now rewrite Z.add_0_r.
      * replace (3 * S k)%nat with (S (S (S (3 * k)))) by lia.
        cbn [nth]. rewrite Hnth by (cbn [List.length] in Hk; lia).
        do 2 f_equal. f_equal. lia.
Qed.

(** What the text of a page says. *)
Lemma renderLookup_report (region : string) (args : LookupEventsArgs.t)
    (startDt endDt : Date) (response : LookupEventsOutput.t) (text : string) :
  renderLookup host region args startDt endDt response = inr text ->
  let events := orElse (LookupEventsOutput.Events response) [] in
  exists startIso endIso,
    toISOString host startDt = inr startIso /\
    toISOString host endDt = inr endIso /\
    includes ("Time range: " ++ startIso ++ " → " ++ endIso) text /\
    includes
      ("Found: " ++ showZ (Z.of_nat (List.length events)) ++ " event(s)") text /\
    (events = [] ->
     includes "No events found matching the specified criteria." text) /\
    (forall ev,
       In ev events ->
       exists shown,
         Cloudtrail.formatEvent host ev = inr shown /\ includes shown text) /\
    (forall key,
       LookupEventsArgs.attributeKey args = Some key ->
       includes
         ("Filter: " ++ keyName key ++ " = " ++ dquote ++
          showOpt (LookupEventsArgs.attributeValue args) ++ dquote)
         text) /\
    (forall token,
       LookupEventsOutput.NextToken response = Some token ->
       token <> "" ->
       includes ("  nextToken: " ++ token) text /\
       includes
         ("  startTime: " ++ startIso ++ "  (must match original request)")
         text /\
       includes
         ("  endTime:   " ++ endIso ++ "  (must match original request)")
         text).
Proof.
  intros Hrender events. unfold renderLookup in Hrender. cbv zeta in Hrender.
  fold events in Hrender.
  destruct (toISOString host startDt) as [e|startIso]; [discriminate|].
  destruct (toISOString host endDt) as [e|endIso]; [discriminate|].
  exists startIso, endIso. split; [reflexivity|]. split; [reflexivity|].
  set (lines0 := [_; _]) in Hrender.
  set (lines1 := match LookupEventsArgs.attributeKey args with
                 | Some key => _ | None => _ end) in Hrender.
  destruct (match events with
            | [] => inr ["No events found matching the specified criteria."]
            | _ :: _ => formatEvents host 0 events
            end) as [e|eventLines] eqn:Hevents; [discriminate|].
  injection Hrender as <-.
  set (lines2 := pushAll (push (push lines1 _) "") eventLines).
  assert (H01 : forall l, In l lines0 -> In l lines1).
  { intros l Hl. subst lines1.
    destruct (LookupEventsArgs.attributeKey args); [|exact Hl].
    unfold push. apply in_or_app. now left. }
  assert (H12 : forall l, In l lines1 -> In l lines2).
  { intros l Hl. subst lines2. unfold pushAll, push.
    repeat (apply in_or_app; left). exact Hl. }
  assert (Hev : forall l, In l eventLines -> In l lines2).
  { intros l Hl. subst lines2. unfold pushAll. apply in_or_app. now right. }
  assert (H2 : forall l, In l lines2 ->
               In l (if truthy (LookupEventsOutput.NextToken response)
                     then pushAll lines2
                            [ "⟶ More results available. Use nextToken for the next page:";
                              "  nextToken: " ++
                                showOpt (LookupEventsOutput.NextToken response);
                              "  startTime: " ++ startIso ++
                                "  (must match original request)";
                              "  endTime:   " ++ endIso ++
                                "  (must match original request)" ]
                     else lines2)).
  { intros l Hl. destruct (truthy _); [|exact Hl].
    unfold pushAll. apply in_or_app. now left. }
  split; [|split; [|split; [|split; [|split]]]].
  - apply includes_join, H2, H12, H01. subst lines0. right. now left.
  - apply includes_join, H2. subst lines2. unfold pushAll, push.
    apply in_or_app. left. apply in_or_app. left. apply in_or_app. right.
    now left.
  - intros Hnone. rewrite Hnone in Hevents. injection Hevents as <-.
    apply includes_join, H2, Hev. now left.
  - intros ev Hin.
    destruct events as [|ev0 evs] eqn:E; [destruct Hin|].
    destruct (formatEvents_shown (ev0 :: evs) 0 eventLines Hevents ev Hin)
      as (shown & Hshown & Hline).
    exists shown. split; [exact Hshown|].
    apply includes_join, H2, Hev, Hline.
  - intros key Hkey. apply includes_join, H2, H12. subst lines1.
    rewrite Hkey. unfold push. apply in_or_app. right. now left.
  - intros token Htoken Hne.
    assert (Htruthy : truthy (LookupEventsOutput.NextToken response) = true).
    { rewrite Htoken. cbn [truthy]. apply String.eqb_neq in Hne.
      now rewrite Hne. }
    rewrite Htruthy, Htoken. cbn [showOpt orElse].
    repeat split; apply includes_join; unfold pushAll; apply in_or_app;
      right; cbn [In]; auto.
Qed.

(** X17.  A page of events that [handleLookupEvents] returns.  The
    handler has read the clock at most twice and then sent one request,
    built from its arguments and the two parsed instants, which the
    service answered.  The text shows the two instants of that request in
    ISO form and the number of events; it shows every event of the
    answer, or says that there is none; it shows a filter line whenever a
    key was given, with [undefined] for a value that was not; and when
    the answer holds a token that is not empty, it repeats the token
    together with the two instants, which the next call has to give
    back. *)
Theorem handleLookupEvents_page (config : CloudTrailConfig.t)
    (args : LookupEventsArgs.t) (w w' : World) (text : string) :
  handleLookupEvents host config args w = (Return text, w') ->
  exists client startDt endDt evs response startIso endIso,
    let req := lookupRequest args startDt endDt in
    let events := orElse (LookupEventsOutput.Events response) [] in
    w' = emits (evs ++ [lookupEvent client req]) w /\
    lookupsIn evs = [] /\
    onLookupEvents (cloudtrail w) (trace (emits evs w)) client req
    = inr response /\
    toISOString host startDt = inr startIso /\
    toISOString host endDt = inr endIso /\
    includes ("Time range: " ++ startIso ++ " → " ++ endIso) text /\
    includes
      ("Found: " ++ showZ (Z.of_nat (List.length events)) ++ " event(s)") text /\
    (events = [] ->
     includes "No events found matching the specified criteria." text) /\
    (forall ev,
       In ev events ->
       exists shown,
         Cloudtrail.formatEvent host ev = inr shown /\ includes shown text) /\
    (forall key,
       LookupEventsArgs.attributeKey args = Some key ->
       includes
         ("Filter: " ++ keyName key ++ " = " ++ dquote ++
          showOpt (LookupEventsArgs.attributeValue args) ++ dquote)
         text) /\
    (forall token,
       LookupEventsOutput.NextToken response = Some token ->
       token <> "" ->
       includes ("  nextToken: " ++ token) text /\
       includes
         ("  startTime: " ++ startIso ++ "  (must match original request)")
         text /\
       includes
         ("  endTime:   " ++ endIso ++ "  (must match original request)")
         text).
Proof.
  intros Hrun.
  destruct (handleLookupEvents_steps host config args w)
    as (client & _ & Hsteps).
  rewrite Hsteps in Hrun. clear Hsteps.
  destruct (resolveTimes args) as [e|[startStr endStr]]; [discriminate|].
  destruct (parseTimeInput_events host startStr w)
    as (r1 & evs1 & E1 & H1 & _).
  rewrite E1 in Hrun. destruct r1 as [startDt|e]; [|discriminate].
  destruct (parseTimeInput_events host endStr (emits evs1 w))
    as (r2 & evs2 & E2 & H2 & _).
  rewrite E2 in Hrun. destruct r2 as [endDt|e]; [|discriminate].
  cbv zeta in Hrun.
  destruct (onLookupEvents _ _ client (lookupRequest args startDt endDt))
    as [e|response] eqn:Hanswer; [discriminate|].
  destruct (renderLookup host _ args startDt endDt response)
    as [e|shown] eqn:Hrender; [discriminate|].
  injection Hrun as <- <-.
  destruct (renderLookup_report _ args startDt endDt response shown Hrender)
    as (startIso & endIso & Hstart & Hend & Hrest).
  exists client, startDt, endDt, (evs1 ++ evs2)%list, response, startIso, endIso.
  cbv zeta. split; [|split; [|split; [|split; [|split]]]].
  - now rewrite !emits_app.
  - now rewrite lookupsIn_app, H1, H2.
  - rewrite emits_app, <- Hanswer. now rewrite !cloudtrail_emits.
  - exact Hstart.
  - exact Hend.
  - exact Hrest.
Qed.

End LookupPage.

(* ===================================================================== *)
(** * The client, the normal form of a time, a query that is not started *)
(* ===================================================================== *)

(** X18.  The credentials of the client.  Each of the key and the secret
    is the configured one when the configuration has it, else that of
    the environment.  The client carries explicit credentials exactly
    when both are non-empty, and then a session token exactly when the
    resolved token is non-empty; making the client leaves the world as
    it is. *)
Theorem createCloudTrailClient_credentials (config : CloudTrailConfig.t)
    (region : option string) (w : World) :
  let key :=
    orElseOpt (CloudTrailConfig.accessKeyId config) (env w "AWS_ACCESS_KEY_ID") in
  let secret :=
    orElseOpt (CloudTrailConfig.secretAccessKey config)
      (env w "AWS_SECRET_ACCESS_KEY") in
  let token :=
    orElseOpt (CloudTrailConfig.sessionToken config) (env w "AWS_SESSION_TOKEN") in
  exists client,
    Api.createCloudTrailClient config region w = (Return client, w) /\
    Client.requestTimeout client = orElse (CloudTrailConfig.timeout config) 30000 /\
    (Client.credentials client = None <->
     truthy key = false \/ truthy secret = false) /\
    (forall c,
       Client.credentials client = Some c ->
       Some (Credentials.accessKeyId c) = key /\
       Some (Credentials.secretAccessKey c) = secret /\
       (Credentials.sessionToken c = None <-> truthy token = false) /\
       (forall t, Credentials.sessionToken c = Some t -> token = Some t)).
Proof.
  intros key secret token.
  unfold Api.createCloudTrailClient, bind, getenv, ret. cbv beta iota zeta.
  fold key secret.
  destruct (truthy key) eqn:Hkey; cbn [andb].
  - destruct (truthy secret) eqn:Hsecret; cbv beta iota.
    + fold token. clearbody token.
      eexists. split; [reflexivity|]. split; [reflexivity|].
      cbn [Client.credentials]. split.
      * split; [discriminate | intros [H|H]; discriminate].
      * intros c [= <-].
        cbn [Credentials.accessKeyId Credentials.secretAccessKey
               Credentials.sessionToken].
        destruct key as [k|]; [|discriminate].
        destruct secret as [s|]; [|discriminate].
        split; [reflexivity|]. split; [reflexivity|].
        destruct (truthy token) eqn:Htoken.
        -- split; [split; [|discriminate] | intros t Ht; exact Ht].
           intros Hnone. rewrite Hnone in Htoken. discriminate.
        -- split; [split; reflexivity | discriminate].
    + eexists. split; [reflexivity|]. split; [reflexivity|].
      cbn [Client.credentials]. split; [split; auto | discriminate].
  - eexists. split; [reflexivity|]. split; [reflexivity|].
    cbn [Client.credentials]. split; [split; auto | discriminate].
Qed.

(** X19.  A configured key or secret that is the empty text is not
    replaced by the one of the environment: the client is then made
    without explicit credentials, whatever the environment holds. *)
Theorem createCloudTrailClient_empty_key (config : CloudTrailConfig.t)
    (region : option string) (w : World) :
  CloudTrailConfig.accessKeyId config = Some "" \/
  CloudTrailConfig.secretAccessKey config = Some "" ->
  exists client,
    Api.createCloudTrailClient config region w = (Return client, w) /\
    Client.credentials client = None.
Proof.
  intros Hempty.
  unfold Api.createCloudTrailClient, bind, getenv, ret. cbv beta iota zeta.
  destruct Hempty as [-> | ->]; cbn [orElseOpt truthy String.eqb negb andb].
  - eexists. split; reflexivity.
  - rewrite andb_false_r. eexists. split; reflexivity.
Qed.

Section TimeForms.
Variable host : Host.
Import Cloudtrail.

(** X20.  For [now] and the relative forms the parser looks at the input
    through its normal form only, trimmed and in lower case: two inputs
    with the same normal form, which is [now] or matches the relative
    pattern, are parsed alike in every world. *)
Theorem parseTimeInput_normal_form (a b : string) (w : World) :
  toLowerCase host (trim a) = toLowerCase host (trim b) ->
  toLowerCase host (trim a) = "now" \/
  relativeMatch (toLowerCase host (trim a)) <> None ->
  parseTimeInput host a w = parseTimeInput host b w.
Proof.
  intros Hsame Hform. unfold parseTimeInput. rewrite <- Hsame.
  destruct Hform as [-> | Hmatch]; [reflexivity|].
  destruct (toLowerCase host (trim a) =? "now")%string; [reflexivity|].
  destruct (relativeMatch (toLowerCase host (trim a))) as [[digits unit]|];
    [reflexivity | now contradiction Hmatch].
Qed.

End TimeForms.

Section LakeStart.
Import Lake.

(** X21.  A Lake query whose start is rejected fails with that rejection
    and has sent nothing but the start: no status query, no pause,
    whether it was to wait or not. *)
Theorem handleLakeQuery_start_rejected (config : CloudTrailConfig.t)
    (args : LakeQueryArgs.t) (w : World) :
  exists client,
    Client.region client = regionOf config (LakeQueryArgs.region args) w /\
    forall e,
      onStartQuery (cloudtrail w) (trace w) client
        (StartQueryInput.mk (LakeQueryArgs.sql args)) = inl e ->
      handleLakeQuery config args w
      = (Throw e, emit (startEvent client (LakeQueryArgs.sql args)) w).
Proof.
  destruct (createCloudTrailClient_pure config
              (regionOf config (LakeQueryArgs.region args) w) w)
    as (client & Hclient & Hregion).
  exists client. split; [exact Hregion|]. intros e Hrejected.
  destruct (LakeQueryArgs.waitForCompletion args) as [[]|] eqn:Hwait.
  - rewrite (handleLakeQuery_waiting config args w client); auto.
    + now rewrite Hrejected.
    + rewrite Hwait. discriminate.
  - rewrite (handleLakeQuery_submitting config args w client Hwait Hclient).
    now rewrite Hrejected.
  - rewrite (handleLakeQuery_waiting config args w client); auto.
    + now rewrite Hrejected.
    + rewrite Hwait. discriminate.
Qed.

End LakeStart.

(* ===================================================================== *)
(** * The default range of a lookup *)
(* ===================================================================== *)

Section LookupDefaults.
Variable host : Host.
Import Events.

(** X22.  A lookup without a time range and without a token covers the
    last day: the handler reads the clock twice and sends one request
    that starts 86 400 000 ms before the first reading and ends at the
    second, for 10 events when no size is given. *)
Theorem handleLookupEvents_default_range (config : CloudTrailConfig.t)
    (args : LookupEventsArgs.t) (w : World) :
  LookupEventsArgs.startTime args = None ->
  LookupEventsArgs.endTime args = None ->
  truthy (LookupEventsArgs.nextToken args) = false ->
  let first := clock w (trace w) in
  let second := clock w (trace w ++ [EvNow]) in
  exists result client req,
    handleLookupEvents host config args w
    = (result, emits [EvNow; EvNow; lookupEvent client req] w) /\
    Client.region client = regionOf config (LookupEventsArgs.region args) w /\
    LookupEventsInput.StartTime req = Date_of_number (Some (first - 86400000)) /\
    LookupEventsInput.EndTime req = ValidDate second /\
    LookupEventsInput.NextToken req = None /\
    (LookupEventsArgs.maxResults args = None ->
     LookupEventsInput.MaxResults req = 10).
Proof.
  intros Hstart Hend Htoken first second.
  destruct (createCloudTrailClient_pure config
              (regionOf config (LookupEventsArgs.region args) w) w)
    as (client' & Hclient' & Hregion).
  destruct (handleLookupEvents_steps host config args w)
    as (client & Hclient & Hsteps).
  rewrite Hclient' in Hclient. injection Hclient as <-.
  rewrite Hsteps. clear Hsteps.
  unfold resolveTimes. rewrite Hstart, Hend, Htoken. cbn [orElse].
  change "1 day ago" with (relativeInput 1 Day false).
  rewrite parseTimeInput_relativeInput.
  change (Cloudtrail.parseTimeInput host "now" (emit EvNow w))
    with (Return (ValidDate (clock (emit EvNow w) (trace (emit EvNow w)))),
          emit EvNow (emit EvNow w)).
  cbv beta iota zeta.
  set (req := lookupRequest args _ _).
  exists (match onLookupEvents (cloudtrail (emit EvNow (emit EvNow w)))
                  (trace (emit EvNow (emit EvNow w))) client' req with
          | inl e => Throw e
          | inr response =>
              outcomeOf
                (renderLookup host
                   (regionOf config (LookupEventsArgs.region args) w) args
                   (Date_of_number
                      (Some (clock w (trace w) - Z.of_N 1 * unitDuration Day)))
                   (ValidDate (clock (emit EvNow w) (trace (emit EvNow w))))
                   response)
          end), client', req.
  split; [|split; [exact Hregion|]].
  - destruct (onLookupEvents _ _ client' req); reflexivity.
  - subst req. unfold lookupRequest.
    cbn [LookupEventsInput.StartTime LookupEventsInput.EndTime
           LookupEventsInput.NextToken LookupEventsInput.MaxResults].
    rewrite Htoken. repeat split.
    intros ->. reflexivity.
Qed.

End LookupDefaults.

(* ===================================================================== *)
(** * One event, and the next page *)
(* ===================================================================== *)

Section EventText.
Variable host : Host.
Import Cloudtrail.

(** X23.  [formatEvent] fails exactly on an event whose time is the
    invalid date, with the error of the host.  Otherwise its text has the
    name, the source, the time in ISO form, the user, the access key,
    the read-only flag and the id of the event, [Unknown] (or [N/A] for
    the key) standing in for what is missing; it has one line for every
    resource, and it consists of the seven lines alone when there is no
    resource. *)
Theorem formatEvent_shown (event : Event.t) :
  (forall e,
     formatEvent host event = inl e <->
     Event.EventTime event = Some InvalidDate /\
     e = RangeError "Invalid time value") /\
  (forall text,
     formatEvent host event = inr text ->
     includes ("Event:       " ++ orElse (Event.EventName event) "Unknown") text /\
     includes ("Source:      " ++ orElse (Event.EventSource event) "Unknown") text /\
     includes
       ("Time:        " ++
        match Event.EventTime event with
        | Some (ValidDate t) => isoString host t
        | _ => "Unknown"
        end) text /\
     includes ("User:        " ++ orElse (Event.Username event) "Unknown") text /\
     includes ("Access Key:  " ++ orElse (Event.AccessKeyId event) "N/A") text /\
     includes ("Read Only:   " ++ orElse (Event.ReadOnly event) "Unknown") text /\
     includes ("Event ID:    " ++ orElse (Event.EventId event) "Unknown") text /\
     (forall resources r,
        Event.Resources event = Some resources -> In r resources ->
        includes "Resources:" text /\ includes (formatResource r) text) /\
     (Event.Resources event = None \/ Event.Resources event = Some [] ->
      exists lines, text = join nl lines /\ List.length lines = 7%nat)).
Proof.
  unfold formatEvent. split.
  - intros e.
    destruct (Event.EventTime event) as [[t|]|]; cbn [toISOString].
    + split; [discriminate | intros [H _]; discriminate].
    + split; [intros [= <-]; now split | intros [_ ->]; reflexivity].
    + split; [discriminate | intros [H _]; discriminate].
  - intros text Hshown.
    destruct (Event.EventTime event) as [[t|]|]; cbn [toISOString] in Hshown;
      try discriminate; injection Hshown as <-.
    all: do 7 (split;
                 [ apply includes_join;
                   destruct (Event.Resources event) as [[|r0 rs]|];
                   unfold pushAll, push; cbn [In app]; auto 10 | ]).
    all: split;
      [ intros resources r Hres Hin; rewrite Hres;
        destruct resources as [|r0 rs]; [destruct Hin|];
        split; apply includes_join; cbn [In map app push pushAll];
        [ do 7 right; now left
        | destruct Hin as [->|Hin];
          [ do 8 right; now left | do 9 right; now apply in_map ] ]
      | intros [-> | ->]; eexists; split; reflexivity ].
Qed.

End EventText.

Section NextPage.
Variable host : Host.
Import Events.

(** X24.  A lookup for a further page, with a token and both times
    given, applies no default: each of the two instants is what the
    parser makes of the given text, the request carries the token as it
    was given, and it is the only request. *)
Theorem handleLookupEvents_next_page (config : CloudTrailConfig.t)
    (args : LookupEventsArgs.t) (token startStr endStr : string) (w : World) :
  LookupEventsArgs.nextToken args = Some token -> token <> "" ->
  LookupEventsArgs.startTime args = Some startStr -> startStr <> "" ->
  LookupEventsArgs.endTime args = Some endStr -> endStr <> "" ->
  exists result evs,
    handleLookupEvents host config args w = (result, emits evs w) /\
    forall req,
      In req (lookupsIn evs) ->
      lookupsIn evs = [req] /\
      LookupEventsInput.NextToken req = Some token /\
      exists w1,
        Cloudtrail.parseTimeInput host startStr w
        = (Return (LookupEventsInput.StartTime req), w1) /\
        fst (Cloudtrail.parseTimeInput host endStr w1)
        = Return (LookupEventsInput.EndTime req).
Proof.
  intros Htoken Hne Hstart Hs Hend He.
  assert (Ht : forall s, s <> "" -> truthy (Some s) = true).
  { intros s Hnes. cbn [truthy]. apply String.eqb_neq in Hnes.
    now rewrite Hnes. }
  destruct (handleLookupEvents_steps host config args w)
    as (client & _ & ->).
  unfold resolveTimes. rewrite Htoken, Hstart, Hend.
  rewrite !Ht by assumption. cbn [negb orb orElse].
  destruct (parseTimeInput_events host startStr w)
    as (r1 & evs1 & E1 & H1 & _).
  rewrite E1. destruct r1 as [startDt|e].
  2:{ exists (Throw e), evs1. split; [reflexivity|].
      intros req Hin. rewrite H1 in Hin. destruct Hin. }
  destruct (parseTimeInput_events host endStr (emits evs1 w))
    as (r2 & evs2 & E2 & H2 & _).
  rewrite E2. destruct r2 as [endDt|e].
  2:{ exists (Throw e), (evs1 ++ evs2)%list. rewrite emits_app.
      split; [reflexivity|].
      intros req Hin. rewrite lookupsIn_app, H1, H2 in Hin. destruct Hin. }
  cbv zeta.
  set (req := lookupRequest args startDt endDt).
  assert (Hsent : lookupsIn (evs1 ++ evs2 ++ [lookupEvent client req]) = [req]).
  { now rewrite !lookupsIn_app, H1, H2. }
  exists (match onLookupEvents (cloudtrail (emits evs2 (emits evs1 w)))
                  (trace (emits evs2 (emits evs1 w))) client req with
          | inl e => Throw e
          | inr response =>
              outcomeOf
                (renderLookup host
                   (regionOf config (LookupEventsArgs.region args) w) args
                   startDt endDt response)
          end),
    (evs1 ++ evs2 ++ [lookupEvent client req])%list.
  split.
  - rewrite !emits_app.
    destruct (onLookupEvents _ _ client req); reflexivity.
  - intros req' Hin. rewrite Hsent in Hin. destruct Hin as [<-|[]].
    split; [exact Hsent|]. split.
    + subst req. unfold lookupRequest. cbn [LookupEventsInput.NextToken].
      rewrite Htoken. now rewrite (Ht token Hne).
    + exists (emits evs1 w). split; [reflexivity|]. now rewrite E2.
Qed.

End NextPage.

(* ===================================================================== *)
(** * The further statements at concrete inputs *)
(* ===================================================================== *)

Lemma handleLakeQuery_async_witness :
  let w := Sample.world Sample.finishing [] in
  Lake.LakeQueryArgs.waitForCompletion Sample.asyncArgs = Some false /\
  exists client,
    Client.region client = "eu-west-1" /\
    exists text,
      Lake.handleLakeQuery Sample.config Sample.asyncArgs w
      = (Return text,
         emits [startEvent client "select 1"; describeEvent client "q-0001"] w) /\
      includes "Status:   RUNNING" text.
Proof.
  intros w.
  assert (H : Lake.LakeQueryArgs.waitForCompletion Sample.asyncArgs = Some false)
    by reflexivity.
  split; [exact H|].
  destruct (handleLakeQuery_async Sample.config Sample.asyncArgs w H)
    as (client & Hregion & Hrest).
  exists client. split; [exact Hregion|].
  simpl in Hrest. destruct Hrest as (text & Hrun & _ & Hstatus).
  exists text. split; [exact Hrun | exact Hstatus].
Defined.

Lemma handleLakeQuery_gives_up_witness :
  let w := Sample.world Sample.running [] in
  exists text,
    Lake.handleLakeQuery Sample.config Sample.lakeArgs w
    = (Return text,
       emits (startEvent Sample.client "select 1"
                :: pollRounds Sample.client "q-0001" 150) w) /\
    includes "Query completed with status: RUNNING (region: eu-west-1)" text /\
    includes "Query ID: q-0001" text.
Proof.
  intros w.
  destruct (handleLakeQuery_gives_up Sample.config Sample.lakeArgs w
              Sample.client (StartQueryOutput.mk "q-0001"))
    as (response & text & Hanswer & _ & Hrun & Hstatus & Hid).
  - discriminate.
  - reflexivity.
  - reflexivity.
  - intros tr. eexists. split; [reflexivity|].
    simpl. destruct (Sample.sleeps tr); reflexivity.
  - assert (Hresponse : response = Sample.noStats "RUNNING" None).
    { vm_compute in Hanswer. injection Hanswer as <-. reflexivity. }
    subst response. exists text.
    split; [exact Hrun|]. split; [exact Hstatus | exact Hid].
Defined.

Lemma toFixed2_1024_rounds_witness :
  0 <= 1536 < LakeStatus.toFixedLimit /\
  exists units hundredths,
    LakeStatus.toFixed2_1024 Sample.host 1536
    = showZ units ++ "." ++ LakeStatus.pad2 hundredths /\
    Z.abs (1024 * (100 * units + hundredths) - 100 * 1536) <= 512.
Proof.
  assert (H : 0 <= 1536 < LakeStatus.toFixedLimit)
    by (unfold LakeStatus.toFixedLimit; lia).
  split; [exact H|].
  destruct (toFixed2_1024_rounds Sample.host 1536 H)
    as (units & hundredths & Hshown & _ & _ & Hclose & _).
  exists units, hundredths. split; [exact Hshown | exact Hclose].
Defined.

Lemma handleListEventDataStores_quiet_witness :
  LakeStores.ListEventDataStoresArgs.includeDetails SampleStores.quietArgs
  = Some false /\
  exists client r,
    Client.region client = "eu-west-1" /\
    LakeStores.handleListEventDataStores Sample.host Sample.config
      SampleStores.quietArgs SampleStores.storeWorld
    = (r, withRequests SampleStores.storeWorld [listRequest client]).
Proof.
  split; [reflexivity|].
  apply (handleListEventDataStores_quiet Sample.host Sample.config
           SampleStores.quietArgs SampleStores.storeWorld).
  reflexivity.
Defined.

Lemma handleListEventDataStores_details_witness :
  exists client text,
    Client.region client = "eu-west-1" /\
    LakeStores.handleListEventDataStores Sample.host Sample.config
      SampleStores.defaultArgs SampleStores.storeWorld
    = (Return text,
       withRequests SampleStores.storeWorld
         [ listRequest client;
           (client,
            LakeStores.GetEventDataStoreCommand
              "arn:aws:cloudtrail:eu-west-1:1:eventdatastore/a") ]) /\
    includes "Found: 2 store(s)" text /\
    includes LakeStores.unableToRetrieve text.
Proof.
  destruct (handleListEventDataStores_details Sample.host Sample.config
              SampleStores.defaultArgs SampleStores.storeWorld
              (LakeStores.ListEventDataStoresOutput.mk
                 (Some SampleStores.twoStores)))
    as (client & text & Hregion & Hrun & _ & Hfound & _ & Hunable).
  - intros client _. reflexivity.
  - repeat constructor; discriminate.
  - exists client, text. split; [exact Hregion|]. split; [exact Hrun|].
    split; [exact Hfound|].
    apply Hunable.
    + reflexivity.
    + intros history client' arn. eexists. reflexivity.
    + eexists. split; [left; reflexivity | reflexivity].
Defined.

Lemma handleListEventDataStores_invalid_date_witness :
  exists sw',
    LakeStores.handleListEventDataStores Sample.host Sample.config
      SampleStores.defaultArgs SampleStores.undatedWorld
    = (Throw (RangeError "Invalid time value"), sw').
Proof.
  apply (handleListEventDataStores_invalid_date Sample.host Sample.config
           SampleStores.defaultArgs SampleStores.undatedWorld
           (LakeStores.ListEventDataStoresOutput.mk (Some SampleStores.undated))).
  - intros client _. reflexivity.
  - left. reflexivity.
Defined.

Lemma maxTokenCall_without_digits_witness :
  env SampleTools.unlimited "MAX_TOKEN_CALL" = Some "unlimited" /\
  noDigit "unlimited" = true /\
  Index.maxTokenCall Sample.host SampleTools.unlimited = NaN.
Proof.
  assert (Henv : env SampleTools.unlimited "MAX_TOKEN_CALL" = Some "unlimited")
    by reflexivity.
  assert (Hdigits : noDigit "unlimited" = true) by reflexivity.
  split; [exact Henv|]. split; [exact Hdigits|].
  exact (proj1 (maxTokenCall_without_digits Sample.host SampleTools.unlimited
                  "unlimited" Henv Hdigits)).
Defined.

Lemma maxTokenCall_decimal_witness :
  let server := Sample.world Sample.finishing [] in
  env server "MAX_TOKEN_CALL" = None /\
  Index.maxTokenCall Sample.host server = Num 20000.
Proof.
  intros server. split; [reflexivity|].
  apply (maxTokenCall_decimal Sample.host server 20000).
  - reflexivity.
  - vm_compute. discriminate.
Defined.

Lemma lake_query_requires_sql_witness :
  let w := Sample.world Sample.finishing [] in
  exists issues,
    In "sql" issues /\
    LakeTools.lake_query Sample.host Sample.config (Num 20000)
      SampleTools.noSql w
    = (Throw (ZodError issues), w).
Proof.
  intros w.
  apply (lake_query_requires_sql Sample.host Sample.config (Num 20000)
           SampleTools.noSql w).
  reflexivity.
Defined.

Lemma get_query_results_rejects_witness :
  let w := Sample.world Sample.finishing [] in
  exists issues,
    In "maxResults" issues /\
    LakeTools.get_query_results Sample.host Sample.config (Num 20000)
      (SampleTools.page 500) w
    = (Throw (ZodError issues), w).
Proof.
  intros w.
  apply (get_query_results_rejects Sample.host Sample.config (Num 20000)
           (SampleTools.page 500) 500 w).
  - reflexivity.
  - right. lia.
Defined.

Lemma get_query_results_page_size_witness :
  let w := Sample.world Sample.finishing [] in
  let args := Lake.GetQueryResultsArgs.mk "q-0001" (Some 25) None None in
  exists client r evs,
    LakeTools.get_query_results Sample.host Sample.config (Num 20000)
      (SampleTools.page 25) w
    = (r,
       emits
         (resultsEvent client (resultsRequest args) ::
          describeEvent client "q-0001" :: evs) w) /\
    GetQueryResultsInput.MaxQueryResults (resultsRequest args) = 25.
Proof.
  intros w args.
  destruct (get_query_results_page_size Sample.host Sample.config (Num 20000)
              (SampleTools.page 25) args false w eq_refl)
    as (client & r & evs & Hrun & _ & Hsize).
  exists client, r, evs. split; [exact Hrun | exact Hsize].
Defined.

Lemma handleLookupEvents_page_witness :
  let w := Sample.world SampleTools.paging [] in
  let run :=
    Events.handleLookupEvents Sample.host Sample.config Sample.keyOnlyArgs w in
  exists text,
    fst run = Return text /\
    includes "Found: 1 event(s)" text /\
    includes ("Filter: Username = " ++ dquote ++ "undefined" ++ dquote) text /\
    includes "  nextToken: page-2" text.
Proof.
  intros w run.
  set (text := match fst run with Return t => t | Throw _ => "" end).
  assert (Hrun : run = (Return text, snd run)) by reflexivity.
  destruct (handleLookupEvents_page Sample.host Sample.config
              Sample.keyOnlyArgs w (snd run) text Hrun)
    as (client & startDt & endDt & evs & response & startIso & endIso & Hpage).
  cbv zeta in Hpage.
  destruct Hpage as (_ & _ & Hanswer & _ & _ & _ & Hfound & _ & _ & Hfilter & Hmore).
  injection Hanswer as <-.
  exists text. split; [reflexivity|]. split; [exact Hfound|].
  split.
  - exact (Hfilter Username eq_refl).
  - apply (Hmore "page-2" eq_refl). discriminate.
Defined.

Lemma formatEvents_numbered_witness :
  exists lines,
    Events.formatEvents Sample.host 0 [SampleTools.login; SampleTools.login]
    = inr lines /\
    List.length lines = 6%nat /\
    nth 3 lines "" = "─── Event 2 ───".
Proof.
  eexists. split; [reflexivity|].
  destruct (formatEvents_numbered Sample.host
              [SampleTools.login; SampleTools.login] 0 _ eq_refl)
    as (Hlength & Hnth).
  split; [exact Hlength|]. exact (Hnth 1%nat ltac:(cbn; lia)).
Defined.

Lemma createCloudTrailClient_empty_key_witness :
  CloudTrailConfig.accessKeyId SampleTools.emptyKey = Some "" /\
  truthy (env SampleTools.withKeys "AWS_ACCESS_KEY_ID") = true /\
  truthy (env SampleTools.withKeys "AWS_SECRET_ACCESS_KEY") = true /\
  exists client,
    Api.createCloudTrailClient SampleTools.emptyKey None SampleTools.withKeys
    = (Return client, SampleTools.withKeys) /\
    Client.credentials client = None.
Proof.
  split; [reflexivity|]. split; [reflexivity|]. split; [reflexivity|].
  apply (createCloudTrailClient_empty_key SampleTools.emptyKey None
           SampleTools.withKeys).
  left. reflexivity.
Defined.

Lemma parseTimeInput_normal_form_witness :
  let w := Sample.world Sample.finishing [] in
  Cloudtrail.parseTimeInput Sample.host "  2 HOURS ago " w
  = Cloudtrail.parseTimeInput Sample.host "2 hours ago" w.
Proof.
  intros w.
  apply (parseTimeInput_normal_form Sample.host "  2 HOURS ago " "2 hours ago" w).
  - reflexivity.
  - right. vm_compute. discriminate.
Defined.

Lemma handleLookupEvents_default_range_witness :
  let w := Sample.world Sample.finishing [] in
  exists result client req,
    Events.handleLookupEvents Sample.host Sample.config Sample.noArgs w
    = (result, emits [EvNow; EvNow; lookupEvent client req] w) /\
    LookupEventsInput.StartTime req = ValidDate 1699913600000 /\
    LookupEventsInput.EndTime req = ValidDate 1700000000001.
Proof.
  intros w.
  destruct (handleLookupEvents_default_range Sample.host Sample.config
              Sample.noArgs w eq_refl eq_refl eq_refl)
    as (result & client & req & Hrun & _ & Hstart & Hend & _).
  exists result, client, req.
  split; [exact Hrun|]. split; [exact Hstart | exact Hend].
Defined.

Lemma handleLookupEvents_next_page_witness :
  let w := Sample.world SampleTools.paging [] in
  let args :=
    Events.LookupEventsArgs.mk (Some "2025-01-01T00:00:00Z") (Some "now")
      None None None (Some "page-2") None in
  exists result evs,
    Events.handleLookupEvents Sample.host Sample.config args w
    = (result, emits evs w) /\
    forall req,
      In req (lookupsIn evs) ->
      LookupEventsInput.NextToken req = Some "page-2".
Proof.
  intros w args.
  destruct (handleLookupEvents_next_page Sample.host Sample.config args
              "page-2" "2025-01-01T00:00:00Z" "now" w)
    as (result & evs & Hrun & Hsent);
    try reflexivity; try discriminate.
  exists result, evs. split; [exact Hrun|].
  intros req Hin. exact (proj1 (proj2 (Hsent req Hin))).
Defined.
